(** * graphtools/graphs.py: kernel builders, embedded and verified

    The four graph classes of [graphtools/graphs.py] ([kNNGraph],
    [TraditionalGraph], [LandmarkGraph], [MNNGraph]) are embedded as Rocq
    functions.  Floating-point numbers are read as real numbers, numpy and
    scipy.sparse matrices as a shape together with an entry function, and
    Python exceptions as the [Raise] case of a result type. *)

From Stdlib Require Import String.
From Stdlib Require Import Reals Lra Lia ZArith Bool Arith List.
From Stdlib Require Import Permutation Sorted.
Import ListNotations.
Open Scope string_scope.
Open Scope R_scope.

(** ** Python values, exceptions and results *)

Inductive exn : Type :=
| ValueError (msg : string)
| IndexError
| ZeroDivisionError
| TypeError
| UnboundLocalError
| Diverges.

Inductive result (A : Type) : Type :=
| Ok (a : A)
| Raise (e : exn).
Arguments Ok {A} a.
Arguments Raise {A} e.

Definition bind {A B : Type} (r : result A) (k : A -> result B) : result B :=
  match r with
  | Ok a => k a
  | Raise e => Raise e
  end.

Notation "x <- r ;; k" := (bind r (fun x => k))
  (at level 61, r at next level, right associativity).

(** Values that travel through [**params] and untyped attributes. *)
Inductive pyval : Type :=
| PyNone
| PyInt (z : Z)
| PyFloat (r : R)
| PyStr (s : string).

(** Python's [==] on those values: numbers compare by value across [int]
    and [float]; values of unrelated types are different. *)
Definition py_eq (a b : pyval) : bool :=
  match a, b with
  | PyNone, PyNone => true
  | PyInt x, PyInt y => Z.eqb x y
  | PyInt x, PyFloat y => if Req_dec_T (IZR x) y then true else false
  | PyFloat x, PyInt y => if Req_dec_T x (IZR y) then true else false
  | PyFloat x, PyFloat y => if Req_dec_T x y then true else false
  | PyStr s, PyStr t => String.eqb s t
  | _, _ => false
  end.

Definition py_ne (a b : pyval) : bool := negb (py_eq a b).

(** A keyword dictionary, [**params]. *)
Definition kwargs : Type := list (string * pyval).

Fixpoint lookup (k : string) (d : kwargs) : option pyval :=
  match d with
  | [] => None
  | (k', v) :: d' => if String.eqb k k' then Some v else lookup k d'
  end.

(** [k in params and params[k] != v] *)
Definition updates (k : string) (d : kwargs) (v : pyval) : bool :=
  match lookup k d with
  | Some w => py_ne w v
  | None => false
  end.

Definition of_option_int (o : option Z) : pyval :=
  match o with
  | None => PyNone
  | Some z => PyInt z
  end.

Definition of_option_str (o : option string) : pyval :=
  match o with
  | None => PyNone
  | Some s => PyStr s
  end.

(** [d[k] = v]: the value of a key that is present is replaced where it
    stands, a new key is added at the end. *)
Fixpoint set_item (k : string) (v : pyval) (d : kwargs) : kwargs :=
  match d with
  | [] => [(k, v)]
  | (k', w) :: d' => if String.eqb k k' then (k, v) :: d'
                     else (k', w) :: set_item k v d'
  end.

(** [d.update(new)] *)
Definition update (d new : kwargs) : kwargs :=
  fold_left (fun acc kv => set_item (fst kv) (snd kv) acc) new d.

(** ** Matrices

    A numpy array or scipy sparse matrix of rank 2: its shape and its
    entries.  Sparse and dense storage hold the same entries, so the
    sparse formats ([csr], [coo], [lil]) and [eliminate_zeros] do not show. *)

Record matrix : Type := mkMatrix {
  nrows : nat;
  ncols : nat;
  entry : nat -> nat -> R
}.

Definition shape (M : matrix) : nat * nat := (nrows M, ncols M).

(** [K.T] *)
Definition T (M : matrix) : matrix :=
  mkMatrix (ncols M) (nrows M) (fun i j => entry M j i).

(** [A + B], for operands of one shape *)
Definition madd (A B : matrix) : matrix :=
  mkMatrix (nrows A) (ncols A) (fun i j => entry A i j + entry B i j).

(** [A / c] *)
Definition mdiv (A : matrix) (c : R) : matrix :=
  mkMatrix (nrows A) (ncols A) (fun i j => entry A i j / c).

(** [c * A] *)
Definition mscale (c : R) (A : matrix) : matrix :=
  mkMatrix (nrows A) (ncols A) (fun i j => c * entry A i j).

(** [A.multiply(B)], the element-wise product *)
Definition multiply (A B : matrix) : matrix :=
  mkMatrix (nrows A) (ncols A) (fun i j => entry A i j * entry B i j).

(** [K[K < t] = 0] *)
Definition zero_below (t : R) (K : matrix) : matrix :=
  mkMatrix (nrows K) (ncols K)
    (fun i j => if Rlt_dec (entry K i j) t then 0 else entry K i j).

Definition zeros (n m : nat) : matrix := mkMatrix n m (fun _ _ => 0).

Definition symmetric (K : matrix) : Prop :=
  nrows K = ncols K /\
  forall i j, (i < nrows K)%nat -> (j < nrows K)%nat ->
              entry K i j = entry K j i.

(** Entry-wise equality of two matrices of one shape. *)
Definition meq (A B : matrix) : Prop :=
  shape A = shape B /\
  forall i j, (i < nrows A)%nat -> (j < ncols A)%nat ->
              entry A i j = entry B i j.

Fixpoint sum_list (l : list R) : R :=
  match l with
  | [] => 0
  | x :: l' => x + sum_list l'
  end.

(** [np.max] of a non-empty sequence *)
Definition np_max (l : list R) : R :=
  match l with
  | [] => 0
  | x :: l' => fold_left Rmax l' x
  end.

(** Sum of row [i] of [M]. *)
Definition row_sum (M : matrix) (i : nat) : R :=
  sum_list (map (entry M i) (seq 0 (ncols M))).

(** ** Index helpers *)

(** Positions at which a boolean mask holds ([np.ix_] of a mask,
    [X[mask]]). *)
Fixpoint where_from {A : Type} (p : A -> bool) (k : nat) (l : list A)
  : list nat :=
  match l with
  | [] => []
  | x :: l' => if p x then k :: where_from p (S k) l'
               else where_from p (S k) l'
  end.

Definition np_where {A : Type} (p : A -> bool) (l : list A) : list nat :=
  where_from p 0%nat l.

(** Position of [x] in a list of positions. *)
Fixpoint index_of (x : nat) (l : list nat) : option nat :=
  match l with
  | [] => None
  | y :: l' => if Nat.eqb x y then Some 0%nat
               else option_map S (index_of x l')
  end.

(** [l[i] = v] *)
Fixpoint set_nth {A : Type} (i : nat) (v : A) (l : list A) : list A :=
  match l, i with
  | [], _ => []
  | _ :: l', O => v :: l'
  | x :: l', S i' => x :: set_nth i' v l'
  end.

(** ** Nearest-neighbour search (sklearn.neighbors)

    The search primitive the builders call.  A fitted [NearestNeighbors]
    holds the fitted points and the name of its metric; the points are
    kept abstract and a named metric is read through [cdist]. *)

(** One search result: a distance and the index of the fitted point. *)
Abbreviation neighbor := (R * nat)%type (only parsing).

Module Neighbors.
Section Defs.

Context {point : Type}.
Variable cdist : string -> point -> point -> R.

Record NearestNeighbors : Type := mkNN {
  n_neighbors : nat;
  metric : string;
  fit_X : list point
}.

Fixpoint insert_by_dist (x : neighbor) (l : list neighbor) : list neighbor :=
  match l with
  | [] => [x]
  | y :: l' => if Rle_dec (fst x) (fst y) then x :: l
               else y :: insert_by_dist x l'
  end.

(** Ascending by distance, ties in index order. *)
Definition sort_by_dist (l : list neighbor) : list neighbor :=
  fold_right insert_by_dist [] l.

(** Distances from [y] to every fitted point, in index order. *)
Definition all_distances (t : NearestNeighbors) (y : point) : list neighbor :=
  combine (map (cdist (metric t) y) (fit_X t)) (seq 0 (length (fit_X t))).

(** [t.kneighbors(Y, n_neighbors=k)]: per row of [Y] the [k] nearest fitted
    points, nearest first.  sklearn raises when [k] exceeds the number of
    fitted points.  Among fitted points at one distance from the query
    point the library's choice is not specified; here the lower index
    comes first.  The library's own validation of its input (a query
    without rows, [k = 0]) is not modelled. *)
Definition kneighbors (t : NearestNeighbors) (Y : list point) (k : nat)
  : result (list (list neighbor)) :=
  if (length (fit_X t) <? k)%nat
  then Raise (ValueError "Expected n_neighbors <= n_samples")
  else Ok (map (fun y => firstn k (sort_by_dist (all_distances t y))) Y).

(** [t.radius_neighbors(Y, radius=r)]: per row of [Y] every fitted point
    at distance at most [r]. *)
Definition radius_neighbors (t : NearestNeighbors) (Y : list point) (r : R)
  : list (list neighbor) :=
  map (fun y => filter (fun p => if Rle_dec (fst p) r then true else false)
                       (all_distances t y)) Y.

(** [sparse.csr_matrix((data, indices, indptr), shape)]: row [i] holds the
    values [rows[i]] at their column indices; values stored twice at one
    position add up. *)
Definition csr_matrix (rows : list (list neighbor)) (n m : nat) : matrix :=
  mkMatrix n m
    (fun i j => sum_list
       (map fst (filter (fun p => Nat.eqb (snd p) j) (nth i rows [])))).

(** [t.kneighbors_graph(Y, n_neighbors=k, mode='connectivity')] *)
Definition kneighbors_graph (t : NearestNeighbors) (Y : list point) (k : nat)
  : result matrix :=
  nb <- kneighbors t Y k ;;
  Ok (csr_matrix (map (map (fun p : neighbor => (1, snd p))) nb)
                 (length Y) (length (fit_X t))).

End Defs.
Arguments NearestNeighbors point : clear implicits.
End Neighbors.

(** ** The base class

    Modelled from the spec: the [DataGraph] base class of [base.py] is not
    among the sources.  What the builders read from it is kept: the
    preprocessed data [data_nu], the cached kernel, and the attributes the
    setters assign. *)
Module Base.
Section Defs.

(** The type of the data array: a list of points for the neighbour
    search, a matrix where the array itself is read as one. *)
Context {array : Type}.

Record DataGraph : Type := mkDataGraph {
  data_nu : array;
  n_pca : pyval;
  n_jobs : pyval;
  random_state : pyval;
  verbose : pyval;
  cached_kernel : option matrix
}.

Definition with_n_jobs (v : pyval) (b : DataGraph) : DataGraph :=
  mkDataGraph (data_nu b) (n_pca b) v (random_state b) (verbose b)
              (cached_kernel b).

Definition with_random_state (v : pyval) (b : DataGraph) : DataGraph :=
  mkDataGraph (data_nu b) (n_pca b) (n_jobs b) v (verbose b)
              (cached_kernel b).

Definition with_verbose (v : pyval) (b : DataGraph) : DataGraph :=
  mkDataGraph (data_nu b) (n_pca b) (n_jobs b) (random_state b) v
              (cached_kernel b).

(** [if k in params: self.attr = params[k]] *)
Definition assign_if_given (k : string) (d : kwargs)
  (setter : pyval -> DataGraph -> DataGraph) (b : DataGraph) : DataGraph :=
  match lookup k d with
  | Some v => setter v b
  | None => b
  end.

End Defs.
Arguments DataGraph array : clear implicits.
End Base.

(** ** kNNGraph *)

Module kNNGraph.
Import Neighbors Base.
Section Defs.

Context {point : Type}.
Variable cdist : string -> point -> point -> R.

(** The base class's constructor and setter, which are not among the
    sources, are parameters. *)
Variable DataGraph_init :
  list point -> kwargs -> result (DataGraph (list point)).
Variable DataGraph_set_params :
  kwargs -> DataGraph (list point) -> DataGraph (list point) * result unit.

Record t : Type := mk {
  knn : nat;
  decay : option Z;
  distance : string;
  thresh : R;
  base : DataGraph (list point)
}.

Definition with_base (b : DataGraph (list point)) (g : t) : t :=
  mk (knn g) (decay g) (distance g) (thresh g) b.

Definition is_some {A : Type} (o : option A) : bool :=
  match o with
  | Some _ => true
  | None => false
  end.

(** [kNNGraph.__init__] *)
Definition __init__ (data : list point) (knn : nat) (decay : option Z)
  (distance : string) (thresh : R) (kw : kwargs) : result t :=
  if is_some decay && (if Rle_dec thresh 0 then true else false)
  then Raise (ValueError
         "Cannot instantiate a kNNGraph with `decay=None` and `thresh=0`. Use a TraditionalGraph instead.")
  else b <- DataGraph_init data kw ;;
       Ok (mk knn decay distance thresh b).

(** [kNNGraph.set_params]: the object after the call, and whether the call
    returned or raised. *)
Definition set_params (params : kwargs) (g : t) : t * result unit :=
  if updates "knn" params (PyInt (Z.of_nat (knn g)))
  then (g, Raise (ValueError "Cannot update knn. Please create a new graph"))
  else if updates "decay" params (of_option_int (decay g))
  then (g, Raise (ValueError "Cannot update decay. Please create a new graph"))
  else if updates "distance" params (PyStr (distance g))
  then (g, Raise (ValueError
                    "Cannot update distance. Please create a new graph"))
  else if updates "thresh" params (PyFloat (thresh g))
          && py_ne (of_option_int (decay g)) (PyInt 0)
  then (g, Raise (ValueError "Cannot update thresh. Please create a new graph"))
  else
    let b1 := assign_if_given "n_jobs" params with_n_jobs (base g) in
    let b2 := assign_if_given "random_state" params with_random_state b1 in
    let b3 := assign_if_given "verbose" params with_verbose b2 in
    let (b4, r) := DataGraph_set_params params b3 in
    (with_base b4 g, r).

(** The [knn_tree] property: the search index fitted on [data_nu]. *)
Definition knn_tree (g : t) : NearestNeighbors point :=
  mkNN (knn g) (distance g) (data_nu (base g)).

(** [distances[:, i]] on an array of [width] columns, with Python's
    negative indices. *)
Definition column (rows : list (list neighbor)) (width : nat) (i : Z)
  : result (list R) :=
  let j := if (i <? 0)%Z then (i + Z.of_nat width)%Z else i in
  if ((0 <=? j)%Z && (j <? Z.of_nat width)%Z)%bool
  then Ok (map (fun r => fst (nth (Z.to_nat j) r (0, 0%nat))) rows)
  else Raise IndexError.

(** The bandwidth of each row of [Y]: its distance to the [knn]-th nearest
    fitted point, [distances[:, knn - 1]] after the first search. *)
Definition bandwidths (g : t) (Y : list point) (knn : nat)
  : result (list R) :=
  let search_knn := Nat.min (knn * 20) (length (data_nu (base g))) in
  rows <- kneighbors cdist (knn_tree g) Y search_knn ;;
  column rows search_knn (Z.of_nat knn - 1).

(** [Y[update_idx]] *)
Definition take_rows {A : Type} (Y : list A) (idx : list nat) : list A :=
  flat_map (fun i => match nth_error Y i with
                     | Some y => [y]
                     | None => []
                     end) idx.

(** Rows whose farthest found neighbour is still inside the row's radius:
    [[i for i, d in enumerate(distances) if np.max(d) < radius[i]]]. *)
Definition inside_radius (rows : list (list neighbor)) (radius : list R)
  : list nat :=
  np_where (fun dr : list neighbor * R =>
              if Rlt_dec (np_max (map fst (fst dr))) (snd dr)
              then true else false)
           (combine rows radius).

(** [for i, idx in enumerate(update_idx): distances[idx] = dist_new[i]] *)
Definition replace_rows (rows : list (list neighbor)) (update_idx : list nat)
  (new : list (list neighbor)) : list (list neighbor) :=
  fold_left (fun acc (p : nat * list neighbor) => set_nth (fst p) (snd p) acc)
            (combine update_idx new) rows.

(** The [while] loop that widens the search; it stops when few rows are
    left or the search covers half of the data. *)
Fixpoint widen (fuel : nat) (tree : NearestNeighbors point) (Y : list point)
  (radius : list R) (search_knn : nat) (rows : list (list neighbor))
  (update_idx : list nat)
  : result (nat * list (list neighbor) * list nat) :=
  if ((length Y / 10 <? length update_idx)%nat
      && (2 * search_knn <? length (fit_X tree))%nat)%bool
  then
    match fuel with
    | O => Raise Diverges
    | S fuel' =>
        let search_knn' := Nat.min (search_knn * 20) (length (fit_X tree)) in
        new <- kneighbors cdist tree (take_rows Y update_idx) search_knn' ;;
        let rows' := replace_rows rows update_idx new in
        widen fuel' tree Y radius search_knn' rows'
              (inside_radius rows' radius)
    end
  else Ok (search_knn, rows, update_idx).

(** [K.data = np.exp(-1 * np.power(K.data, decay))] followed by
    [K.data[K.data < thresh] = 0], on the rows [distances[i] / bandwidth[i]]. *)
Definition affinity (dec : Z) (th : R) (d bw : R) : R :=
  let a := exp (-1 * powerRZ (d / bw) dec) in
  if Rlt_dec a th then 0 else a.

Definition affinities (dec : Z) (th : R) (rows : list (list neighbor))
  (bandwidth : list R) : list (list neighbor) :=
  map (fun rb : list neighbor * R =>
         map (fun p : neighbor => (affinity dec th (fst p) (snd rb), snd p))
             (fst rb))
      (combine rows bandwidth).

(** The alpha-decay branch of [build_kernel_to_data]. *)
Definition decay_kernel_to_data (g : t) (dec : Z) (Y : list point) (knn : nat)
  : result matrix :=
  let n := length (data_nu (base g)) in
  let tree := knn_tree g in
  let search_knn := Nat.min (knn * 20) n in
  rows <- kneighbors cdist tree Y search_knn ;;
  bandwidth <- column rows search_knn (Z.of_nat knn - 1) ;;
  if (dec =? 0)%Z then Raise ZeroDivisionError else
  let radius :=
    map (fun bw => bw * Rpower (-1 * ln (thresh g)) (1 / IZR dec)) bandwidth in
  let update_idx := inside_radius rows radius in
  st <- widen (S n) tree Y radius search_knn rows update_idx ;;
  let '(search_knn, rows, update_idx) := st in
  let tree := if (n <? 2 * search_knn)%nat
              then mkNN knn "minkowski" (data_nu (base g))
              else tree in
  let rows :=
    if (0 <? length update_idx)%nat
    then replace_rows rows update_idx
           (radius_neighbors cdist tree (take_rows Y update_idx)
              (np_max (map (fun i => nth i radius 0) update_idx)))
    else rows in
  Ok (csr_matrix (affinities dec (thresh g) rows bandwidth) (length Y) n).

(** [kNNGraph.build_kernel_to_data(Y, knn)].  [Y] ranges over points of
    the fitted feature space, so [_check_extension_shape] passes it on. *)
Definition build_kernel_to_data (g : t) (Y : list point) (knn_arg : option nat)
  : result matrix :=
  let knn := match knn_arg with
             | None => knn g
             | Some k => k
             end in
  match decay g with
  | None => kneighbors_graph cdist (knn_tree g) Y knn
  | Some dec =>
      if Req_dec_T (thresh g) 1
      then kneighbors_graph cdist (knn_tree g) Y knn
      else decay_kernel_to_data g dec Y knn
  end.

(** [kNNGraph.build_kernel] *)
Definition build_kernel (g : t) : result matrix :=
  K <- match decay g with
       | None => kneighbors_graph cdist (knn_tree g) (data_nu (base g)) (knn g)
       | Some dec =>
           if Req_dec_T (thresh g) 1
           then kneighbors_graph cdist (knn_tree g) (data_nu (base g)) (knn g)
           else build_kernel_to_data g (data_nu (base g)) None
       end ;;
  Ok (mdiv (madd K (T K)) 2).

(** The base class's [get_params], which is not among the sources, is a
    parameter. *)
Variable DataGraph_get_params : DataGraph (list point) -> kwargs.

(** [kNNGraph.get_params] *)
Definition get_params (g : t) : kwargs :=
  update (DataGraph_get_params (base g))
    [("knn", PyInt (Z.of_nat (knn g)));
     ("decay", of_option_int (decay g));
     ("distance", PyStr (distance g));
     ("thresh", PyFloat (thresh g));
     ("n_jobs", n_jobs (base g));
     ("random_state", random_state (base g));
     ("verbose", verbose (base g))].

End Defs.
Arguments t point : clear implicits.
End kNNGraph.

(** ** TraditionalGraph *)

Module TraditionalGraph.
Import Neighbors Base.
Section Defs.

(** [squareform(pdist(X, metric))]: the square matrix of pairwise
    distances between the rows of [X] (scipy.spatial.distance). *)
Variable pdist : string -> matrix -> matrix.

(** The base class's constructor, which is not among the sources, is a
    parameter; it receives the data, [n_pca] and the other keywords. *)
Variable DataGraph_init :
  matrix -> option nat -> kwargs -> result (DataGraph matrix).

Record t : Type := mk {
  knn : nat;
  decay : option Z;
  distance : string;
  thresh : R;
  precomputed : option string;
  base : DataGraph matrix
}.

Definition is_some {A : Type} (o : option A) : bool :=
  match o with
  | Some _ => true
  | None => false
  end.

Definition str_in (s : string) (l : list string) : bool :=
  existsb (String.eqb s) l.

(** [precomputed in l], where [precomputed] may be [None] *)
Definition opt_in (o : option string) (l : list string) : bool :=
  match o with
  | Some s => str_in s l
  | None => false
  end.

(** [np.any(data < 0)] *)
Definition any_negative (data : matrix) : bool :=
  existsb (fun i =>
    existsb (fun j => if Rlt_dec (entry data i j) 0 then true else false)
            (seq 0 (ncols data)))
    (seq 0 (nrows data)).

(** [TraditionalGraph.__init__]: the warnings issued, and the object or
    the exception raised. *)
Definition __init__ (data : matrix) (knn : nat) (decay : option Z)
  (distance : string) (n_pca : option nat) (thresh : R)
  (precomputed : option string) (kw : kwargs) : list string * result t :=
  let '(n_pca, warned) :=
    if is_some precomputed && is_some n_pca
    then (None, ["n_pca cannot be given on a precomputed graph. Setting n_pca=None"])
    else (n_pca, []) in
  (warned,
   if negb (is_some decay) && negb (opt_in precomputed ["affinity"; "adjacency"])
   then Raise (ValueError
          "`decay` must be provided for a TraditionalGraph. For kNN kernel, use kNNGraph.")
   else
     _ <- match precomputed with
          | Some p =>
              if negb (str_in p ["distance"; "affinity"; "adjacency"])
              then Raise (ValueError
                     "Precomputed value {} not recognized. Choose from ['distance', 'affinity', 'adjacency']")
              else if negb (nrows data =? ncols data)%nat
              then Raise (ValueError
                     "Precomputed {} must be a square matrix. {} was given")
              else if any_negative data
              then Raise (ValueError "Precomputed {} should be non-negative")
              else Ok tt
          | None => Ok tt
          end ;;
     b <- DataGraph_init data n_pca kw ;;
     Ok (mk knn decay distance thresh precomputed b)).

(** Modelled from the spec: [utils.set_diagonal] is not among the sources;
    the diagonal is forced to the given value, the rest is untouched. *)
Definition set_diagonal (X : matrix) (v : R) : matrix :=
  mkMatrix (nrows X) (ncols X)
    (fun i j => if Nat.eqb i j then v else entry X i j).

(** [np.max(np.partition(pdx, knn, axis=1)[:, :knn], axis=1)]: per row the
    largest of its [knn] smallest entries.  numpy raises when [knn] is not
    a column index, and when it is [0] and the maximum is over nothing. *)
Definition smallest (k : nat) (M : matrix) (i : nat) : list R :=
  map fst (firstn k
             (sort_by_dist (combine (map (entry M i) (seq 0 (ncols M)))
                                    (seq 0 (ncols M))))).

Definition knn_max (k : nat) (M : matrix) : result (nat -> R) :=
  if (ncols M <=? k)%nat then Raise (ValueError "kth out of bounds")
  else if (k =? 0)%nat
  then Raise (ValueError "zero-size array to reduction operation maximum")
  else Ok (fun i => np_max (smallest k M i)).

(** [np.exp(-1 * np.power((pdx.T / epsilon).T, decay))] *)
Definition gaussian (decay : Z) (pdx : matrix) (epsilon : nat -> R) : matrix :=
  mkMatrix (nrows pdx) (ncols pdx)
    (fun i j => exp (-1 * powerRZ (entry pdx i j / epsilon i) decay)).

(** [TraditionalGraph.build_kernel].  The tests [precomputed is "affinity"],
    [is "adjacency"] and [is "distance"] compare objects, not spellings.
    They are read here for a tag that is the string constant itself, as
    every literal of that spelling is; [precomputed is None] is exact.  A
    tag that is spelled like a constant and held in another object is not
    represented: for it the code takes none of the branches that bind
    [pdx] and ends in [UnboundLocalError], as it does here for a tag with
    another spelling. *)
Definition build_kernel (g : t) : result matrix :=
  K <- (if opt_in (precomputed g) ["affinity"] then Ok (data_nu (base g))
        else if opt_in (precomputed g) ["adjacency"]
        then Ok (set_diagonal (data_nu (base g)) 1)
        else
          pdx <- (if opt_in (precomputed g) ["distance"]
                  then Ok (data_nu (base g))
                  else match precomputed g with
                       | None => Ok (pdist (distance g) (data_nu (base g)))
                       | Some _ => Raise UnboundLocalError
                       end) ;;
          epsilon <- knn_max (knn g) pdx ;;
          match decay g with
          | Some dec => Ok (gaussian dec pdx epsilon)
          | None => Raise TypeError
          end) ;;
  Ok (zero_below (thresh g) (mdiv (madd K (T K)) 2)).

(** The base class's setter, [get_params] and [_check_extension_shape],
    which are not among the sources, are parameters; so is
    [scipy.spatial.distance.cdist], the matrix of distances from the rows
    of one array to the rows of another. *)
Variable DataGraph_set_params :
  kwargs -> DataGraph matrix -> DataGraph matrix * result unit.
Variable DataGraph_get_params : DataGraph matrix -> kwargs.
Variable _check_extension_shape : DataGraph matrix -> matrix -> result matrix.
Variable cdist : string -> matrix -> matrix -> matrix.

Definition with_base (b : DataGraph matrix) (g : t) : t :=
  mk (knn g) (decay g) (distance g) (thresh g) (precomputed g) b.

(** [TraditionalGraph.get_params] *)
Definition get_params (g : t) : kwargs :=
  update (DataGraph_get_params (base g))
    [("knn", PyInt (Z.of_nat (knn g)));
     ("decay", of_option_int (decay g));
     ("distance", PyStr (distance g));
     ("precomputed", of_option_str (precomputed g))].

(** [TraditionalGraph.set_params]: the object after the call, and whether
    the call returned or raised. *)
Definition set_params (params : kwargs) (g : t) : t * result unit :=
  if updates "precomputed" params (of_option_str (precomputed g))
  then (g, Raise (ValueError
                    "Cannot update precomputed. Please create a new graph"))
  else if updates "distance" params (PyStr (distance g))
          && is_some (precomputed g)
  then (g, Raise (ValueError
                    "Cannot update distance. Please create a new graph"))
  else if updates "knn" params (PyInt (Z.of_nat (knn g)))
          && is_some (precomputed g)
  then (g, Raise (ValueError "Cannot update knn. Please create a new graph"))
  else if updates "decay" params (of_option_int (decay g))
          && is_some (precomputed g)
  then (g, Raise (ValueError "Cannot update decay. Please create a new graph"))
  else
    let (b, r) := DataGraph_set_params params (base g) in
    (with_base b g, r).

(** [TraditionalGraph.build_kernel_to_data] *)
Definition build_kernel_to_data (g : t) (Y : matrix) (knn_arg : option nat)
  : result matrix :=
  let knn := match knn_arg with
             | None => knn g
             | Some k => k
             end in
  if is_some (precomputed g)
  then Raise (ValueError "Cannot extend kernel on precomputed graph")
  else
    Y <- _check_extension_shape (base g) Y ;;
    let pdx := cdist (distance g) Y (data_nu (base g)) in
    epsilon <- knn_max knn pdx ;;
    match decay g with
    | Some dec => Ok (gaussian dec pdx epsilon)
    | None => Raise TypeError
    end.

End Defs.
End TraditionalGraph.

(** ** Labels *)

Fixpoint insert_unique (x : Z) (l : list Z) : list Z :=
  match l with
  | [] => [x]
  | y :: l' => if (x <? y)%Z then x :: l
               else if (x =? y)%Z then l
               else y :: insert_unique x l'
  end.

(** [np.unique(labels)]: the distinct labels in ascending order. *)
Definition np_unique (labels : list Z) : list Z :=
  fold_right insert_unique [] labels.

(** [labels == v], as the positions where it holds. *)
Definition mask (labels : list Z) (v : Z) : list nat :=
  np_where (Z.eqb v) labels.

(** [enumerate(l)] *)
Definition enumerate {A : Type} (l : list A) : list (nat * A) :=
  combine (seq 0 (length l)) l.

(** A [for] loop whose body may raise. *)
Fixpoint for_each {A S : Type} (l : list A) (body : S -> A -> result S)
  (s : S) : result S :=
  match l with
  | [] => Ok s
  | x :: l' => s' <- body s x ;; for_each l' body s'
  end.

(** ** Helpers of utils.py

    Modelled from the spec: [utils.py] is not among the sources.
    [set_submatrix(X, i, j, values)] writes [values] into the block of [X]
    at the rows and columns the masks select ("assemble all blocks into one
    matrix"); a value of another shape than the block is refused.
    [elementwise_minimum] and [elementwise_maximum] are the entry-wise
    minimum and maximum of two matrices of one shape. *)

Definition set_submatrix (X : matrix) (rows cols : list nat) (values : matrix)
  : result matrix :=
  if ((nrows values =? length rows)%nat && (ncols values =? length cols)%nat)%bool
  then Ok (mkMatrix (nrows X) (ncols X)
             (fun r c => match index_of r rows, index_of c cols with
                         | Some a, Some b => entry values a b
                         | _, _ => entry X r c
                         end))
  else Raise (ValueError "shape mismatch in assignment").

Definition elementwise_minimum (A B : matrix) : matrix :=
  mkMatrix (nrows A) (ncols A) (fun i j => Rmin (entry A i j) (entry B i j)).

Definition elementwise_maximum (A B : matrix) : matrix :=
  mkMatrix (nrows A) (ncols A) (fun i j => Rmax (entry A i j) (entry B i j)).

(** [K[rows, :][:, cols]] *)
Definition submatrix (K : matrix) (rows cols : list nat) : matrix :=
  mkMatrix (length rows) (length cols)
    (fun a b => entry K (nth a rows 0%nat) (nth b cols 0%nat)).

(** [A.dot(B)] *)
Definition dot (A B : matrix) : matrix :=
  mkMatrix (nrows A) (ncols B)
    (fun i j => sum_list (map (fun k => entry A i k * entry B k j)
                              (seq 0 (ncols A)))).

(** [sklearn.preprocessing.normalize(X, norm='l1', axis=1)]: every row is
    divided by the sum of the absolute values of its entries; a row of
    zeros is left as it is. *)
Definition l1_norm (X : matrix) (i : nat) : R :=
  sum_list (map (fun j => Rabs (entry X i j)) (seq 0 (ncols X))).

Definition normalize (X : matrix) : matrix :=
  mkMatrix (nrows X) (ncols X)
    (fun i j => entry X i j /
                (if Req_dec_T (l1_norm X i) 0 then 1 else l1_norm X i)).

(** ** Attributes that may be missing

    Reading an attribute that is not set raises [AttributeError]; a method
    that reads one ends by returning, by that error, or by one of the
    exceptions above. *)
Inductive outcome (A : Type) : Type :=
| Returned (a : A)
| AttributeError (name : string)
| Raised (e : exn).
Arguments Returned {A} a.
Arguments AttributeError {A} name.
Arguments Raised {A} e.

(** ** LandmarkGraph *)

Module LandmarkGraph.
Section Defs.

(** The spectral clustering step, [randomized_svd] followed by
    [MiniBatchKMeans(n_landmark, ...).fit_predict], is a parameter: from
    the diffusion operator, [n_svd], [n_landmark] and [random_state] it
    returns one cluster id per sample. *)
Variable spectral_clusters : matrix -> nat -> nat -> pyval -> list Z.

Record t : Type := mk {
  n_landmark : nat;
  n_svd : nat;
  random_state : pyval;
  kernel : matrix
}.

(** What [build_landmark_op] stores and computes. *)
Record landmarks : Type := mkLandmarks {
  clusters : list Z;
  pmn : matrix;
  transitions : matrix;
  landmark_op : matrix
}.

(** Modelled from the spec: the [diff_op] property of the base class is
    not among the sources; the diffusion operator is the row-normalized
    kernel. *)
Definition diff_op (g : t) : matrix := normalize (kernel g).

(** [self.kernel[self._clusters == i, :].sum(axis=0)], one row per
    realized cluster id. *)
Definition cluster_sums (K : matrix) (cl : list Z) (ids : list Z) : matrix :=
  mkMatrix (length ids) (ncols K)
    (fun a c => sum_list (map (fun r => entry K r c)
                              (mask cl (nth a ids 0%Z)))).

(** [LandmarkGraph.build_landmark_op] *)
Definition build_landmark_op (g : t) : landmarks :=
  let cl := spectral_clusters (diff_op g) (n_svd g) (n_landmark g)
                              (random_state g) in
  let ids := np_unique cl in
  let pmn := cluster_sums (kernel g) cl ids in
  let pnm := T pmn in
  let pmn := normalize pmn in
  let pnm := normalize pnm in
  mkLandmarks cl pmn pnm (dot pmn pnm).

(** The base class's constructor and setter, which are not among the
    sources, are parameters; the constructor returns the base object, the
    setter acts on the attributes of the graph. *)
Context {B : Type}.
Variable DataGraph_init : matrix -> kwargs -> result B.
Variable DataGraph_set_params : kwargs -> t -> t * result unit.

(** [LandmarkGraph.__init__]: the warnings issued, and the stored
    [n_landmark] and [n_svd] with the base object, or the exception
    raised. *)
Definition __init__ (data : matrix) (n_landmark n_svd : nat) (kw : kwargs)
  : list string * result (nat * nat * B) :=
  if (nrows data <=? n_landmark)%nat
  then ([], Raise (ValueError
                     "n_landmark ({}) >= n_samples ({}). Use kNNGraph instead"))
  else
    (if (nrows data <=? n_svd)%nat
     then ["n_svd ({}) >= n_samples ({}) Consider using kNNGraph or lower n_svd"]
     else [],
     b <- DataGraph_init data kw ;;
     Ok (n_landmark, n_svd, b)).

(** The graph with the attributes [build_landmark_op] stores; [None] is an
    attribute that is not set. *)
Record obj : Type := mkObj {
  self : t;
  _landmark_op : option matrix;
  _transitions : option matrix;
  _clusters : option (list Z)
}.

Definition with_self (g : t) (o : obj) : obj :=
  mkObj g (_landmark_op o) (_transitions o) (_clusters o).

(** [LandmarkGraph._reset_landmarks]: the three attributes are deleted in
    turn, and the first that is missing ends the method. *)
Definition _reset_landmarks (o : obj) : obj :=
  match _landmark_op o with
  | None => o
  | Some _ =>
      match _transitions o with
      | None => mkObj (self o) None None (_clusters o)
      | Some _ => mkObj (self o) None None None
      end
  end.

(** [k in params and params[k] != old], for a keyword that holds a
    count *)
Definition changed (new : option nat) (old : nat) : bool :=
  match new with
  | Some v => negb (v =? old)%nat
  | None => false
  end.

Definition updated (new : option nat) (old : nat) : nat :=
  match new with
  | Some v => if (v =? old)%nat then old else v
  | None => old
  end.

(** [LandmarkGraph.set_params].  [new_landmark] and [new_svd] are the
    values of the keywords [n_landmark] and [n_svd] in [params], [None]
    when the keyword is not given; they are counts, as in the
    constructor. *)
Definition set_params (new_landmark new_svd : option nat) (params : kwargs)
  (o : obj) : obj * result unit :=
  let g := self o in
  let reset_landmarks :=
    changed new_landmark (n_landmark g) || changed new_svd (n_svd g) in
  let g1 := mk (updated new_landmark (n_landmark g))
               (updated new_svd (n_svd g)) (random_state g) (kernel g) in
  let (g2, r) := DataGraph_set_params params g1 in
  match r with
  | Raise e => (with_self g2 o, Raise e)
  | Ok _ =>
      (if reset_landmarks then _reset_landmarks (with_self g2 o)
       else with_self g2 o,
       Ok tt)
  end.

(** [build_landmark_op], storing what it computes. *)
Definition store_landmark_op (o : obj) : obj :=
  let L := build_landmark_op (self o) in
  mkObj (self o) (Some (landmark_op L)) (Some (transitions L))
        (Some (clusters L)).

(** The [landmark_op] property: the value, and the object after the
    read. *)
Definition landmark_op_property (o : obj) : matrix * obj :=
  match _landmark_op o with
  | Some M => (M, o)
  | None => (landmark_op (build_landmark_op (self o)), store_landmark_op o)
  end.

(** The [transitions] property *)
Definition transitions_property (o : obj) : matrix * obj :=
  match _transitions o with
  | Some M => (M, o)
  | None => (transitions (build_landmark_op (self o)), store_landmark_op o)
  end.

(** [kernel[:, self._clusters == i].sum(axis=1)], one column per realized
    cluster id. *)
Definition cluster_col_sums (K : matrix) (cl : list Z) (ids : list Z)
  : matrix :=
  mkMatrix (nrows K) (length ids)
    (fun y a => sum_list (map (fun c => entry K y c)
                              (mask cl (nth a ids 0%Z)))).

(** The kernel builder of the class the landmarks are mixed into is a
    parameter. *)
Context {D : Type}.
Variable build_kernel_to_data : t -> D -> kwargs -> result matrix.

(** [LandmarkGraph.extend_to_data].  [self._clusters] is read as it is,
    not through a property.  A boolean mask of another length than the
    columns is an [IndexError]; with no cluster at all there is nothing to
    stack, a [ValueError] of numpy or of scipy. *)
Definition extend_to_data (o : obj) (data : D) (kw : kwargs)
  : outcome matrix :=
  match build_kernel_to_data (self o) data kw with
  | Raise e => Raised e
  | Ok kernel =>
      match _clusters o with
      | None => AttributeError "_clusters"
      | Some cl =>
          match np_unique cl with
          | [] => Raised (ValueError "no cluster to stack")
          | ids =>
              if (length cl =? ncols kernel)%nat
              then Returned (normalize (cluster_col_sums kernel cl ids))
              else Raised IndexError
          end
      end
  end.

End Defs.
End LandmarkGraph.

(** ** Rounding

    [np.round]: to the nearest integer, a half to the even neighbour. *)
Definition np_round (x : R) : Z :=
  let f := Int_part x in
  if Rlt_dec (frac_part x) (1 / 2) then f
  else if Rlt_dec (1 / 2) (frac_part x) then (f + 1)%Z
  else if Z.even f then f else (f + 1)%Z.

(** [np.min] of a non-empty array of counts *)
Definition min_count (l : list nat) : nat :=
  match l with
  | [] => 0%nat
  | c :: l' => fold_left Nat.min l' c
  end.

(** ** MNNGraph *)

Module MNNGraph.
Import Neighbors Base.
Section Defs.

Context {point : Type}.
Variable cdist : string -> point -> point -> R.

(** [gamma]: a string, a number, or a matrix indexed by batch pairs. *)
Inductive gamma_t : Type :=
| GammaStr (s : string)
| GammaNum (x : R)
| GammaMatrix (G : matrix).

(** [knn_args] holds the keywords handed on to the subgraphs. *)
Record t : Type := mk {
  sample_idx : list Z;
  knn : nat;
  beta : R;
  gamma : gamma_t;
  weighted_knn : list nat;
  knn_decay : option Z;
  knn_distance : string;
  knn_thresh : R;
  base : DataGraph (list point)
}.

(** [self.samples], set by [__init__] to [np.unique(sample_idx)] *)
Definition samples (g : t) : list Z := np_unique (sample_idx g).

(** The rows of batch [i], the batch of label [samples[i]]. *)
Definition batch (g : t) (i : nat) : list nat :=
  mask (sample_idx g) (nth i (samples g) 0%Z).

(** The batch labels are [0, 1, ..., B-1]. *)
Definition canonical (g : t) : Prop :=
  samples g = map Z.of_nat (seq 0 (length (samples g))).

(** [np.max(gamma)], [np.min(gamma)] and [np.any(gamma != gamma.T)] on a
    matrix [gamma] *)
Definition entries (G : matrix) : list R :=
  flat_map (fun i => map (entry G i) (seq 0 (ncols G))) (seq 0 (nrows G)).

Definition np_min (l : list R) : R :=
  match l with
  | [] => 0
  | x :: l' => fold_left Rmin l' x
  end.

Definition any_asymmetric (G : matrix) : bool :=
  existsb (fun i =>
    existsb (fun j => if Req_dec_T (entry G i j) (entry G j i)
                      then false else true)
            (seq 0 (ncols G)))
    (seq 0 (nrows G)).

(** The checks of [MNNGraph.__init__] on [sample_idx] and [gamma] *)
Definition __init__checks (g : t) : result unit :=
  if negb (length (sample_idx g) =? length (data_nu (base g)))%nat
  then Raise (ValueError "sample_idx ({}) must be the same length as data ({})")
  else if (length (samples g) =? 1)%nat
  then Raise (ValueError "sample_idx must contain more than one unique value")
  else
    match gamma g with
    | GammaStr s =>
        if negb (existsb (String.eqb s) ["+"; "*"])
        then Raise (ValueError "gamma '{}' not recognized.")
        else Ok tt
    | GammaNum x =>
        if (if Rlt_dec x 0 then true else false)
           || (if Rlt_dec 1 x then true else false)
        then Raise (ValueError "gamma '{}' invalid.")
        else Ok tt
    | GammaMatrix G =>
        if negb ((nrows G =? length (samples g))%nat
                 && (ncols G =? length (samples g))%nat)
        then Raise (ValueError "Matrix gamma must be of shape ({}), got ({})")
        else if (if Rlt_dec 1 (np_max (entries G)) then true else false)
                || (if Rlt_dec (np_min (entries G)) 0 then true else false)
        then Raise (ValueError "Values in matrix gamma must be between 0 and 1")
        else if any_asymmetric G
        then Raise (ValueError "gamma must be a symmetric matrix")
        else Ok tt
    end.

(** Modelled from the spec: the factory [api.Graph] is not among the
    sources; for each batch it builds a [kNNGraph] over the rows of that
    batch, without PCA, with the batch's adaptive [knn] and the keywords of
    [knn_args]. *)
Definition Graph (g : t) (data : list point) (k : nat)
  : kNNGraph.t point :=
  kNNGraph.mk k (knn_decay g) (knn_distance g) (knn_thresh g)
    (mkDataGraph data PyNone (n_jobs (base g)) (random_state (base g))
                 (verbose (base g)) None).

(** The loop that fills [self.subgraphs]. *)
Definition subgraphs (g : t) : list (kNNGraph.t point) :=
  map (fun p : nat * Z =>
         Graph g (kNNGraph.take_rows (data_nu (base g))
                    (mask (sample_idx g) (snd p)))
               (nth (fst p) (weighted_knn g) 0%nat))
      (enumerate (samples g)).

(** [Y.build_kernel_to_data(X.data_nu, knn=self.weighted_knn[i])],
    multiplied by [beta] when [i == j] *)
Definition block (g : t) (iX jY : nat * kNNGraph.t point) : result matrix :=
  Kij <- kNNGraph.build_kernel_to_data cdist (snd jY)
           (data_nu (kNNGraph.base (snd iX)))
           (Some (nth (fst iX) (weighted_knn g) 0%nat)) ;;
  Ok (if (fst iX =? fst jY)%nat then mscale (beta g) Kij else Kij).

(** The double loop that assembles the blocks. *)
Definition assemble (g : t) : result matrix :=
  let n := length (data_nu (base g)) in
  let sub := enumerate (subgraphs g) in
  for_each sub (fun K iX =>
    for_each sub (fun K jY =>
      Kij <- block g iX jY ;;
      set_submatrix K (mask (sample_idx g) (Z.of_nat (fst iX)))
                      (mask (sample_idx g) (Z.of_nat (fst jY))) Kij) K)
    (zeros n n).

(** [gamma * elementwise_minimum(A, B) + (1 - gamma) * elementwise_maximum(A, B)] *)
Definition blend (gm : R) (A B : matrix) : matrix :=
  madd (mscale gm (elementwise_minimum A B))
       (mscale (1 - gm) (elementwise_maximum A B)).

(** The body of the loops over [i <= j] for a matrix [gamma]. *)
Definition symmetrize_pair (g : t) (G : matrix) (K : matrix) (ij : nat * nat)
  : result matrix :=
  let (i, j) := ij in
  let mi := mask (sample_idx g) (Z.of_nat i) in
  let mj := mask (sample_idx g) (Z.of_nat j) in
  let Kij := submatrix K mi mj in
  let Kji := submatrix K mj mi in
  let Kij_symm := blend (entry G i j) Kij (T Kji) in
  K <- set_submatrix K mi mj Kij_symm ;;
  if (i =? j)%nat then Ok K
  else set_submatrix K mj mi (T Kij_symm).

(** [for i in range(B): for j in range(i, B)] *)
Definition upper_pairs (B : nat) : list (nat * nat) :=
  flat_map (fun i => map (fun j => (i, j)) (seq i (B - i))) (seq 0 B).

(** The symmetrization at the end of [build_kernel]. *)
Definition symmetrize (g : t) (K : matrix) : result matrix :=
  match gamma g with
  | GammaMatrix G =>
      for_each (upper_pairs (length (samples g))) (symmetrize_pair g G) K
  | GammaStr s =>
      if String.eqb s "+" then Ok (mdiv (madd K (T K)) 2)
      else if String.eqb s "*" then Ok (multiply K (T K))
      else Ok K
  | GammaNum x => Ok (blend x K (T K))
  end.

(** [MNNGraph.build_kernel] *)
Definition build_kernel (g : t) : result matrix :=
  K <- assemble g ;;
  symmetrize g K.

(** The object with what [set_params] reads besides: [adaptive_k], the
    keywords kept for the subgraphs, and the subgraphs once [build_kernel]
    has stored them ([None] while the attribute is not set). *)
Record obj : Type := mkObj {
  self : t;
  adaptive_k : string;
  knn_args : kwargs;
  stored_subgraphs : option (list (kNNGraph.t point))
}.

Definition with_base (b : DataGraph (list point)) (g : t) : t :=
  mk (sample_idx g) (knn g) (beta g) (gamma g) (weighted_knn g) (knn_decay g)
     (knn_distance g) (knn_thresh g) b.

(** The base class's setter, which is not among the sources, is a
    parameter; so is numpy's comparison of a keyword value with a matrix
    [gamma] together with the truth value of its result, which may be an
    error. *)
Variable DataGraph_set_params :
  kwargs -> DataGraph (list point) -> DataGraph (list point) * result unit.
Variable ndarray_ne : pyval -> matrix -> result bool.

(** [params['gamma'] != self.gamma], as the condition of an [if] *)
Definition gamma_differs (v : pyval) (gm : gamma_t) : result bool :=
  match gm with
  | GammaStr s => Ok (py_ne v (PyStr s))
  | GammaNum x => Ok (py_ne v (PyFloat x))
  | GammaMatrix G => ndarray_ne v G
  end.

(** [arg in params and (arg not in self.knn_args or
    params[arg] != self.knn_args[arg])] *)
Definition kernel_arg_changed (params args : kwargs) (arg : string) : bool :=
  match lookup arg params with
  | None => false
  | Some v =>
      match lookup arg args with
      | None => true
      | Some w => py_ne v w
      end
  end.

(** [for arg in knn_other_args: if arg in params:
    self.knn_args[arg] = params[arg]] *)
Definition store_other_args (params args : kwargs) : kwargs :=
  fold_left (fun acc arg =>
               match lookup arg params with
               | Some v => set_item arg v acc
               | None => acc
               end)
            ["n_jobs"; "random_state"; "verbose"] args.

(** [MNNGraph.set_params]: the object after the call, and how the call
    ended.  Each subgraph's [set_params] is called with
    [knn_other_args], the list of the three names, unpacked as keywords:
    unpacking a list as keywords is a [TypeError], raised at the first
    subgraph. *)
Definition set_params (params : kwargs) (o : obj) : obj * outcome unit :=
  let g := self o in
  if updates "beta" params (PyFloat (beta g))
  then (o, Raised (ValueError "Cannot update beta. Please create a new graph"))
  else
    match (match lookup "gamma" params with
           | Some v => gamma_differs v (gamma g)
           | None => Ok false
           end) with
    | Raise e => (o, Raised e)
    | Ok true =>
        (o, Raised (ValueError
                      "Cannot update gamma. Please create a new graph"))
    | Ok false =>
        if updates "adaptive_k" params (PyStr (adaptive_k o))
        then (o, Raised (ValueError
                           "Cannot update adaptive_k. Please create a new graph"))
        else if existsb (kernel_arg_changed params (knn_args o))
                        ["knn"; "decay"; "distance"; "thresh"]
        then (o, Raised (ValueError
                           "Cannot update {}. Please create a new graph"))
        else
          let o1 := mkObj g (adaptive_k o)
                          (store_other_args params (knn_args o))
                          (stored_subgraphs o) in
          match stored_subgraphs o with
          | None => (o1, AttributeError "subgraphs")
          | Some (_ :: _) => (o1, Raised TypeError)
          | Some [] =>
              let (b, r) := DataGraph_set_params params (base g) in
              (mkObj (with_base b g) (adaptive_k o)
                     (store_other_args params (knn_args o))
                     (stored_subgraphs o),
               match r with
               | Ok _ => Returned tt
               | Raise e => Raised e
               end)
          end
    end.

(** [self.n_cells], the counts [np.unique(sample_idx, return_counts=True)]
    gives beside [self.samples]. *)
Definition n_cells (labels : list Z) : list nat :=
  map (fun v => length (mask labels v)) (np_unique labels).

(** What [_weight_knn] returns: an array, or its only element. *)
Inductive weights : Type :=
| Scalar (k : Z)
| Array (ks : list Z).

(** The conversion [astype(np.int32)] of a rounded float that does not fit
    in 32 bits is left to the platform: a parameter. *)
Variable int32_overflow : Z -> Z.

Definition astype_int32 (z : Z) : Z :=
  if ((- 2 ^ 31 <=? z) && (z <? 2 ^ 31))%Z%bool then z else int32_overflow z.

(** [MNNGraph._weight_knn].  The argument [sample_size] is replaced by
    [n_cells] when it is [None] and is not read after that. *)
Definition _weight_knn (adaptive_k : string) (knn : nat) (cells : list nat)
  (sample_size : option nat) : result weights :=
  knn_weight <-
    (if String.eqb adaptive_k "min" then
       match cells with
       | [] => Raise (ValueError
                 "zero-size array to reduction operation minimum which has no identity")
       | _ => Ok (map (fun c => INR c / INR (min_count cells)) cells)
       end
     else if String.eqb adaptive_k "mean" then
       Ok (map (fun c => INR c / (sum_list (map INR cells)
                                  / INR (length cells))) cells)
     else if String.eqb adaptive_k "sqrt" then
       match cells with
       | [] => Raise (ValueError
                 "zero-size array to reduction operation minimum which has no identity")
       | _ => Ok (map (fun c => sqrt (INR c / INR (min_count cells))) cells)
       end
     else if String.eqb adaptive_k "none" then
       Ok (map (fun _ => 1) cells)
     else Raise UnboundLocalError) ;;
  let weighted_knn :=
    map (fun w => astype_int32 (np_round (INR knn * w))) knn_weight in
  Ok (match weighted_knn with
      | [k] => Scalar k
      | _ => Array weighted_knn
      end).

End Defs.
Arguments t point : clear implicits.
Arguments obj point : clear implicits.
End MNNGraph.

(** ** Base-class behaviour used in closed examples

    Modelled from the spec: the base class's constructor and setter are not
    among the sources.  Without PCA the preprocessing stage keeps the data
    as [data_nu] and no kernel is cached yet; the setter fails with a
    configuration error on a changed [n_pca], the base class's own
    parameter that requires recomputation, and returns otherwise. *)

Definition DataGraph_keep {array : Type} (data : array) (kw : kwargs)
  : result (Base.DataGraph array) :=
  Ok (Base.mkDataGraph data PyNone (PyInt 1) PyNone (PyInt 1) None).

Definition DataGraph_setter {array : Type} (params : kwargs)
  (b : Base.DataGraph array) : Base.DataGraph array * result unit :=
  if updates "n_pca" params (Base.n_pca b)
  then (b, Raise (ValueError "Cannot update n_pca. Please create a new graph"))
  else (b, Ok tt).

(** A kNN graph over no data with [decay = 0], as [kNNGraph(data, decay=0,
    thresh=1)] leaves it. *)
Definition decay0_graph : kNNGraph.t unit :=
  kNNGraph.mk 5 (Some 0%Z) "euclidean" 1
    (Base.mkDataGraph [] PyNone (PyInt 1) PyNone (PyInt 1) None).

(** * Predicates and functions of the statements *)

(** The head of a sorted result is at most every other entry. *)
Definition head_least (l : list neighbor) : Prop :=
  match l with
  | [] => True
  | x :: l' => Forall (fun y => fst x <= fst y) l'
  end.

(** [gamma * min(x, y) + (1 - gamma) * max(x, y)] on two entries *)
Definition blend_entries (gm x y : R) : R :=
  gm * Rmin x y + (1 - gm) * Rmax x y.

(** The positions [(r, c)] a pass over the pair of batches [p] rewrites. *)
Definition covers {point : Type} (g : MNNGraph.t point) (p : nat * nat)
  (r c : nat) : Prop :=
  (In r (mask (MNNGraph.sample_idx g) (Z.of_nat (fst p)))
   /\ In c (mask (MNNGraph.sample_idx g) (Z.of_nat (snd p))))
  \/ (In r (mask (MNNGraph.sample_idx g) (Z.of_nat (snd p)))
      /\ In c (mask (MNNGraph.sample_idx g) (Z.of_nat (fst p)))).

(** The body of the double loop of [MNNGraph.build_kernel], on a pair of
    enumerated subgraphs. *)
Definition assemble_body {point : Type}
  (cdist : string -> point -> point -> R) (g : MNNGraph.t point) (K : matrix)
  (p : (nat * kNNGraph.t point) * (nat * kNNGraph.t point)) : result matrix :=
  Kij <- MNNGraph.block cdist g (fst p) (snd p) ;;
  set_submatrix K (mask (MNNGraph.sample_idx g) (Z.of_nat (fst (fst p))))
                  (mask (MNNGraph.sample_idx g) (Z.of_nat (fst (snd p)))) Kij.

(** The subgraph of batch [i]. *)
Definition subgraph {point : Type} (g : MNNGraph.t point) (i : nat)
  : kNNGraph.t point :=
  MNNGraph.Graph g
    (kNNGraph.take_rows (Base.data_nu (MNNGraph.base g))
       (MNNGraph.batch g i))
    (nth i (MNNGraph.weighted_knn g) 0%nat).

(** The radius of each row, from its bandwidth:
    [bandwidth * np.power(-1 * np.log(thresh), 1 / decay)]. *)
Definition radii {point : Type} (g : kNNGraph.t point) (dec : Z)
  (bandwidth : list R) : list R :=
  map (fun bw => bw * Rpower (-1 * ln (kNNGraph.thresh g)) (1 / IZR dec))
      bandwidth.

(** The rows after the radius search that follows the loop. *)
Definition after_radius_search {point : Type}
  (cdist : string -> point -> point -> R) (g : kNNGraph.t point) (dec : Z)
  (Y : list point) (knn : nat) (bandwidth : list R)
  (st : nat * list (list neighbor) * list nat) : list (list neighbor) :=
  let '(search_knn, rows, update_idx) := st in
  let tree := if (length (Base.data_nu (kNNGraph.base g))
                  <? 2 * search_knn)%nat
              then Neighbors.mkNN knn "minkowski"
                     (Base.data_nu (kNNGraph.base g))
              else kNNGraph.knn_tree g in
  if (0 <? length update_idx)%nat
  then kNNGraph.replace_rows rows update_idx
         (Neighbors.radius_neighbors cdist tree
            (kNNGraph.take_rows Y update_idx)
            (np_max (map (fun i => nth i (radii g dec bandwidth) 0)
                         update_idx)))
  else rows.

(** One row per query point, each with the property [Q] of its index. *)
Definition rows_ok {point : Type} (Y : list point)
  (Q : nat -> list neighbor -> Prop) (rows : list (list neighbor)) : Prop :=
  length rows = length Y
  /\ forall i row, nth_error rows i = Some row -> Q i row.

(** Rows that name every column once and hold no negative distance. *)
Definition clean_row (i : nat) (row : list neighbor) : Prop :=
  NoDup (map snd row) /\ Forall (fun p : neighbor => 0 <= fst p) row.

(** The matrix of distances of a TraditionalGraph: the data when they are
    precomputed, [squareform(pdist(data))] otherwise. *)
Definition distances_of (pdist : string -> matrix -> matrix)
  (g : TraditionalGraph.t) : matrix :=
  match TraditionalGraph.precomputed g with
  | Some _ => Base.data_nu (TraditionalGraph.base g)
  | None => pdist (TraditionalGraph.distance g)
                  (Base.data_nu (TraditionalGraph.base g))
  end.

(** The data a search index is fitted on, with no two samples in one
    place: a sample is at distance 0 from itself and at a positive
    distance from every other sample, in every metric. *)
Definition apart {point : Type} (cdist : string -> point -> point -> R)
  (data : list point) : Prop :=
  (forall m x, cdist m x x = 0)
  /\ forall m i j x y, i <> j ->
       nth_error data i = Some x -> nth_error data j = Some y ->
       0 < cdist m x y.

(** The [k] nearest neighbours of a point [y] among the samples [data],
    as the specification speaks of them: stated from the distances alone,
    with no reference to the search.  They are [k] different samples, none
    of which is farther from [y] than a sample that is left out.  Every
    sample is a candidate, so that a sample is not kept from being its own
    neighbour. *)
Definition k_nearest {point : Type} (cdist : string -> point -> point -> R)
  (metric : string) (data : list point) (k : nat) (y : point)
  (N : list nat) : Prop :=
  NoDup N /\ length N = k
  /\ (forall j, In j N -> (j < length data)%nat)
  /\ forall j c xj xc,
       In j N -> ~ In c N ->
       nth_error data j = Some xj -> nth_error data c = Some xc ->
       cdist metric y xj <= cdist metric y xc.

(** Rows that name every column once and hold the sample itself at
    distance 0. *)
Definition holds_self (i : nat) (row : list neighbor) : Prop :=
  NoDup (map snd row) /\ In (0, i) row.

(** * Examples *)

(** A precomputed distance matrix over one sample. *)
Definition one_by_one (v : R) : matrix := mkMatrix 1 1 (fun _ _ => v).

(** The base-class constructor of a [TraditionalGraph] that was given no
    [n_pca]; PCA itself is not modelled. *)
Definition DataGraph_keep_matrix (data : matrix) (n_pca : option nat)
  (kw : kwargs) : result (Base.DataGraph matrix) :=
  match n_pca with
  | None => DataGraph_keep data kw
  | Some _ => Raise (ValueError "PCA is outside the model")
  end.

(** Points on the integer line; every named metric is the absolute
    difference there. *)
Definition line_dist (m : string) (a b : Z) : R := IZR (Z.abs (a - b)).

Definition base_of {array : Type} (data : array) : Base.DataGraph array :=
  Base.mkDataGraph data PyNone (PyInt 1) PyNone (PyInt 1) None.

(** [kNNGraph([[0], [1], [3]], knn=2)] *)
Definition three_points : kNNGraph.t Z :=
  kNNGraph.mk 2 None "euclidean" (1 / 10000) (base_of [0; 1; 3]%Z).

(** [kNNGraph([[0], [1], [2]], knn=3, decay=1, thresh=0.5)] *)
Definition decay_points : kNNGraph.t Z :=
  kNNGraph.mk 3 (Some 1%Z) "euclidean" (1 / 2) (base_of [0; 1; 2]%Z).

(** What the first search finds: per sample the three points, nearest
    first. *)
Definition decay_points_rows : list (list neighbor) :=
  [ [(0, 0%nat); (1, 1%nat); (2, 2%nat)];
    [(0, 1%nat); (1, 0%nat); (1, 2%nat)];
    [(0, 2%nat); (1, 1%nat); (2, 0%nat)] ].

(** Three samples, each at distance 1 from the two others, given as a
    precomputed distance matrix, and
    [TraditionalGraph(D, knn=2, decay=10, precomputed='distance')]. *)
Definition three_distances : matrix :=
  mkMatrix 3 3 (fun i j => if Nat.eqb i j then 0 else 1).

Definition precomputed_distances : TraditionalGraph.t :=
  TraditionalGraph.mk 2 (Some 10%Z) "euclidean" (1 / 10000) (Some "distance")
    (base_of three_distances).

(** A precomputed affinity of 2 of one sample with itself. *)
Definition affinity_two : TraditionalGraph.t :=
  TraditionalGraph.mk 5 (Some 10%Z) "euclidean" (1 / 10000) (Some "affinity")
    (base_of (one_by_one 2)).

(** Two samples with affinity 1/2, clustered into one landmark. *)
Definition two_sample_kernel : matrix :=
  mkMatrix 2 2 (fun i j => if Nat.eqb i j then 1 else 1 / 2).

Definition one_cluster (_ : matrix) (_ _ : nat) (_ : pyval) : list Z :=
  [0; 0]%Z.

Definition one_landmark : LandmarkGraph.t :=
  LandmarkGraph.mk 1 1 PyNone two_sample_kernel.

(** Three samples of which the third has no affinity to any sample,
    itself included, given as a precomputed affinity matrix; the kernel
    [TraditionalGraph.build_kernel] makes of it; and a clustering that
    puts the first two samples together and leaves the third alone. *)
Definition isolated_affinity : matrix :=
  mkMatrix 3 3
    (fun i j => if ((i <? 2) && (j <? 2))%nat
                then (if (i =? j)%nat then 1 else 1 / 2)
                else 0).

Definition isolated_graph : TraditionalGraph.t :=
  TraditionalGraph.mk 5 (Some 10%Z) "euclidean" (1 / 10000) (Some "affinity")
    (base_of isolated_affinity).

Definition isolated_kernel : matrix :=
  zero_below (1 / 10000) (mdiv (madd isolated_affinity (T isolated_affinity)) 2).

Definition isolated_clusters (_ : matrix) (_ _ : nat) (_ : pyval) : list Z :=
  [0; 0; 1]%Z.

Definition isolated_landmarks : LandmarkGraph.t :=
  LandmarkGraph.mk 2 1 PyNone isolated_kernel.

(** [MNNGraph(data, sample_idx, knn=1, beta=0.5, gamma=...)] on the points
    0, 1, 10, 11 with the given batch labels. *)
Definition four_points (labels : list Z) (gm : MNNGraph.gamma_t)
  : MNNGraph.t Z :=
  MNNGraph.mk labels 1 (1 / 2) gm [1; 1]%nat None "euclidean" (1 / 10000)
    (base_of [0; 1; 10; 11]%Z).

Definition two_batches : MNNGraph.t Z :=
  four_points [0; 0; 1; 1]%Z (MNNGraph.GammaNum (99 / 100)).

(** The same four points with the batches labelled 1 and 2. *)
Definition batches_1_2 : MNNGraph.t Z :=
  four_points [1; 1; 2; 2]%Z (MNNGraph.GammaNum (99 / 100)).

(** [kNNGraph([[0], [1], [3]], knn=2, decay=0, thresh=0.5)] *)
Definition decay0_points : kNNGraph.t Z :=
  kNNGraph.mk 2 (Some 0%Z) "euclidean" (1 / 2) (base_of [0; 1; 3]%Z).

(** Samples on a line as the rows of a one-column array, and the distances
    between two such arrays. *)
Definition column_of (xs : list R) : matrix :=
  mkMatrix (length xs) 1 (fun i _ => nth i xs 0).

Definition line_cdist (m : string) (Y X : matrix) : matrix :=
  mkMatrix (nrows Y) (nrows X) (fun i j => Rabs (entry Y i 0 - entry X j 0)).

(** [TraditionalGraph([[0], [1], [3]], knn=2, decay=2)] *)
Definition traditional_line : TraditionalGraph.t :=
  TraditionalGraph.mk 2 (Some 2%Z) "euclidean" (1 / 10000) None
    (base_of (column_of [0; 1; 3])).

(** The graph of the two samples, with no landmark computed yet. *)
Definition fresh_landmarks : LandmarkGraph.obj :=
  LandmarkGraph.mkObj one_landmark None None None.

(** A base-class setter that refuses every call, and one that accepts
    every call and changes nothing. *)
Definition setter_refuses (params : kwargs) (g : LandmarkGraph.t)
  : LandmarkGraph.t * result unit :=
  (g, Raise (ValueError "Cannot update n_pca. Please create a new graph")).

Definition setter_accepts (params : kwargs) (g : LandmarkGraph.t)
  : LandmarkGraph.t * result unit :=
  (g, Ok tt).

(** The two batches after [build_kernel] has stored the subgraphs; no
    keyword was kept for them. *)
Definition two_batches_built : MNNGraph.obj Z :=
  MNNGraph.mkObj two_batches "sqrt" [] (Some (MNNGraph.subgraphs two_batches)).

(** A base-class setter of the neighbour graphs that accepts every
    call. *)
Definition setter_accepts_points (params : kwargs)
  (b : Base.DataGraph (list Z)) : Base.DataGraph (list Z) * result unit :=
  (b, Ok tt).

(** A comparison with a matrix [gamma] whose truth value is ambiguous. *)
Definition ambiguous_truth (v : pyval) (G : matrix) : result bool :=
  Raise (ValueError
           "The truth value of an array with more than one element is ambiguous. Use a.any() or a.all()").

(** * Properties *)

(** Comparisons of concrete reals are decided case by case. *)
Ltac decide_R :=
  repeat (simpl;
          match goal with
          | |- context [Rle_dec ?a ?b] => destruct (Rle_dec a b); try lra
          | |- context [Rlt_dec ?a ?b] => destruct (Rlt_dec a b); try lra
          | |- context [Req_dec_T ?a ?b] => destruct (Req_dec_T a b); try lra
          end).

(** ** Construction and parameter updates *)

Lemma Rle_dec_true (a b : R) : a <= b -> (if Rle_dec a b then true else false) = true.
Proof. intros H. destruct (Rle_dec a b); [reflexivity | contradiction]. Qed.

Lemma Rle_dec_false (a b : R) : ~ a <= b -> (if Rle_dec a b then true else false) = false.
Proof. intros H. destruct (Rle_dec a b); [contradiction | reflexivity]. Qed.

(** C10: [kNNGraph.__init__] raises its configuration error exactly when
    [decay] is not [None] and [thresh <= 0]; in every other case, and so
    whenever [decay] is [None], whatever [thresh] is, the constructor hands
    on to the base class and builds the object from what that returns. *)
Theorem kNNGraph_init_raises_iff :
  forall (point : Type)
         (DataGraph_init : list point -> kwargs
                           -> result (Base.DataGraph (list point)))
         (data : list point) (knn : nat) (decay : option Z)
         (distance : string) (thresh : R) (kw : kwargs),
    let built := b <- DataGraph_init data kw ;;
                 Ok (kNNGraph.mk knn decay distance thresh b) in
    (decay <> None /\ thresh <= 0 ->
     exists msg,
       kNNGraph.__init__ DataGraph_init data knn decay distance thresh kw
       = Raise (ValueError msg))
    /\ (~ (decay <> None /\ thresh <= 0) ->
        kNNGraph.__init__ DataGraph_init data knn decay distance thresh kw
        = built)
    /\ (decay = None ->
        kNNGraph.__init__ DataGraph_init data knn decay distance thresh kw
        = built).
Proof.
  intros point DataGraph_init data knn decay distance thresh kw built.
  unfold kNNGraph.__init__.
  repeat split.
  - intros [Hd Ht]. destruct decay as [d|]; [|congruence].
    simpl. rewrite Rle_dec_true by assumption. eexists. reflexivity.
  - intros Hn. destruct decay as [d|]; simpl; [|reflexivity].
    rewrite Rle_dec_false; [reflexivity|].
    intro Ht. apply Hn. split; [discriminate | assumption].
  - intros ->. reflexivity.
Qed.

(** [kNNGraph(data, decay=None, thresh=-1)] is accepted: the object is the
    one built from the base class's result. *)
Example kNNGraph_init_negative_thresh_accepted :
  kNNGraph.__init__ DataGraph_keep ([] : list unit) 5 None "euclidean" (-1) []
  = Ok (kNNGraph.mk 5 None "euclidean" (-1)
          (Base.mkDataGraph [] PyNone (PyInt 1) PyNone (PyInt 1) None)).
Proof. reflexivity. Qed.

Lemma updates_spec (k : string) (d : kwargs) (v : pyval) :
  updates k d v = true <-> exists w, lookup k d = Some w /\ py_ne w v = true.
Proof.
  unfold updates. destruct (lookup k d) as [w|].
  - split; [intros H; exists w; auto | intros [w' [E H]]; congruence].
  - split; [discriminate | intros [w' [E _]]; discriminate].
Qed.

(** C8, as amended: [kNNGraph.set_params] with a changed value for [knn],
    [decay] or [distance], or with a changed [thresh] on a graph whose
    [decay] is not [0], raises a configuration error and leaves the
    object, and with it the cached kernel and every stored parameter, as
    it was. *)
Theorem kNNGraph_set_params_immutable :
  forall (point : Type)
         (DataGraph_set_params :
            kwargs -> Base.DataGraph (list point)
            -> Base.DataGraph (list point) * result unit)
         (params : kwargs) (g : kNNGraph.t point),
    updates "knn" params (PyInt (Z.of_nat (kNNGraph.knn g))) = true
    \/ updates "decay" params (of_option_int (kNNGraph.decay g)) = true
    \/ updates "distance" params (PyStr (kNNGraph.distance g)) = true
    \/ (updates "thresh" params (PyFloat (kNNGraph.thresh g)) = true
        /\ kNNGraph.decay g <> Some 0%Z) ->
    exists msg,
      kNNGraph.set_params DataGraph_set_params params g
      = (g, Raise (ValueError msg)).
Proof.
  intros point S params g H. unfold kNNGraph.set_params.
  destruct (updates "knn" params _); [eexists; reflexivity|].
  destruct (updates "decay" params _); [eexists; reflexivity|].
  destruct (updates "distance" params _); [eexists; reflexivity|].
  destruct H as [H|[H|[H|[H Hd]]]]; try discriminate.
  rewrite H. simpl.
  assert (E : py_ne (of_option_int (kNNGraph.decay g)) (PyInt 0) = true).
  { destruct (kNNGraph.decay g) as [z|]; simpl; [|reflexivity].
    unfold py_ne. simpl. destruct (Z.eqb_spec z 0); [subst; congruence | reflexivity]. }
  rewrite E. eexists. reflexivity.
Qed.

Lemma kNNGraph_set_params_immutable_witness :
  exists msg,
    kNNGraph.set_params DataGraph_setter [("knn", PyInt 7)] decay0_graph
    = (decay0_graph, Raise (ValueError msg)).
Proof.
  apply (kNNGraph_set_params_immutable unit DataGraph_setter
           [("knn", PyInt 7)] decay0_graph).
  left. reflexivity.
Defined.

Lemma py_ne_floats (x y : R) : x <> y -> py_ne (PyFloat x) (PyFloat y) = true.
Proof.
  intros H. unfold py_ne. simpl. destruct (Req_dec_T x y); [contradiction | reflexivity].
Qed.

(** C8, as stated, fails: on a graph with [decay = 0], [set_params(thresh=2)]
    changes the value of [thresh] asked for and yet returns without an
    error. *)
Lemma kNNGraph_set_params_thresh_not_refused :
  updates "thresh" [("thresh", PyFloat 2)]
          (PyFloat (kNNGraph.thresh decay0_graph)) = true
  /\ kNNGraph.set_params DataGraph_setter [("thresh", PyFloat 2)] decay0_graph
     = (decay0_graph, Ok tt).
Proof.
  split.
  - unfold updates. simpl. apply py_ne_floats. lra.
  - unfold kNNGraph.set_params.
    replace (updates "thresh" [("thresh", PyFloat 2)]
               (PyFloat (kNNGraph.thresh decay0_graph))) with true
      by (symmetry; unfold updates; simpl; apply py_ne_floats; lra).
    reflexivity.
Qed.

Lemma existsb_seq_true (f : nat -> bool) (n i : nat) :
  (i < n)%nat -> f i = true -> existsb f (seq 0 n) = true.
Proof.
  intros Hi Hf. apply existsb_exists. exists i. split; [|assumption].
  apply in_seq. lia.
Qed.

Lemma any_negative_true (data : matrix) (i j : nat) :
  (i < nrows data)%nat -> (j < ncols data)%nat -> entry data i j < 0 ->
  TraditionalGraph.any_negative data = true.
Proof.
  intros Hi Hj Hneg. unfold TraditionalGraph.any_negative.
  apply existsb_seq_true with (i := i); [assumption|].
  apply existsb_seq_true with (i := j); [assumption|].
  destruct (Rlt_dec (entry data i j) 0); [reflexivity | contradiction].
Qed.

(** C9, as amended: [TraditionalGraph.__init__] raises a configuration
    error when [decay] is [None] and the data is not tagged affinity or
    adjacency, when the [precomputed] tag is not recognized, and when a
    precomputed matrix is not square or has a negative entry.  When
    [precomputed] is given together with [n_pca] it does not raise for
    that: it warns, and goes on as if [n_pca] had been [None]. *)
Theorem TraditionalGraph_init_validation :
  forall (DataGraph_init : matrix -> option nat -> kwargs
                           -> result (Base.DataGraph matrix))
         (data : matrix) (knn : nat) (decay : option Z) (distance : string)
         (n_pca : option nat) (thresh : R) (precomputed : option string)
         (kw : kwargs),
    let run := TraditionalGraph.__init__ DataGraph_init data knn decay
                 distance n_pca thresh precomputed kw in
    (decay = None ->
     (precomputed <> Some "affinity" /\ precomputed <> Some "adjacency") ->
     exists msg, snd run = Raise (ValueError msg))
    /\ (forall p, precomputed = Some p ->
          p <> "distance" -> p <> "affinity" -> p <> "adjacency" ->
          exists msg, snd run = Raise (ValueError msg))
    /\ (forall p, precomputed = Some p -> nrows data <> ncols data ->
          exists msg, snd run = Raise (ValueError msg))
    /\ (forall p i j, precomputed = Some p ->
          (i < nrows data)%nat -> (j < ncols data)%nat ->
          entry data i j < 0 ->
          exists msg, snd run = Raise (ValueError msg))
    /\ (forall p k, precomputed = Some p -> n_pca = Some k ->
          fst run
          = ["n_pca cannot be given on a precomputed graph. Setting n_pca=None"]
          /\ snd run
             = snd (TraditionalGraph.__init__ DataGraph_init data knn decay
                      distance None thresh precomputed kw)).
Proof.
  intros BI data knn decay distance n_pca thresh precomputed kw run.
  assert (Hsnd : snd run =
    if negb (TraditionalGraph.is_some decay)
       && negb (TraditionalGraph.opt_in precomputed ["affinity"; "adjacency"])
    then Raise (ValueError
          "`decay` must be provided for a TraditionalGraph. For kNN kernel, use kNNGraph.")
    else
     _ <- match precomputed with
          | Some p =>
              if negb (TraditionalGraph.str_in p ["distance"; "affinity"; "adjacency"])
              then Raise (ValueError
                     "Precomputed value {} not recognized. Choose from ['distance', 'affinity', 'adjacency']")
              else if negb (nrows data =? ncols data)%nat
              then Raise (ValueError
                     "Precomputed {} must be a square matrix. {} was given")
              else if TraditionalGraph.any_negative data
              then Raise (ValueError "Precomputed {} should be non-negative")
              else Ok tt
          | None => Ok tt
          end ;;
     b <- BI data (if TraditionalGraph.is_some precomputed
                      && TraditionalGraph.is_some n_pca
                   then None else n_pca) kw ;;
     Ok (TraditionalGraph.mk knn decay distance thresh precomputed b)).
  { unfold run, TraditionalGraph.__init__.
    destruct (TraditionalGraph.is_some precomputed
              && TraditionalGraph.is_some n_pca); reflexivity. }
  repeat split.
  - intros -> [Ha Hj]. rewrite Hsnd. simpl.
    replace (TraditionalGraph.opt_in precomputed ["affinity"; "adjacency"])
      with false; [eexists; reflexivity|].
    destruct precomputed as [p|]; [|reflexivity]. simpl.
    destruct (String.eqb_spec p "affinity"); [subst; congruence|].
    destruct (String.eqb_spec p "adjacency"); [subst; congruence|].
    reflexivity.
  - intros p -> Hd Ha Hj. rewrite Hsnd.
    destruct (negb (TraditionalGraph.is_some decay) && _); [eexists; reflexivity|].
    unfold TraditionalGraph.str_in. simpl.
    destruct (String.eqb_spec p "distance"); [contradiction|].
    destruct (String.eqb_spec p "affinity"); [contradiction|].
    destruct (String.eqb_spec p "adjacency"); [contradiction|].
    simpl. eexists. reflexivity.
  - intros p -> Hsq. rewrite Hsnd.
    destruct (negb (TraditionalGraph.is_some decay) && _); [eexists; reflexivity|].
    destruct (negb (TraditionalGraph.str_in p _)); [eexists; reflexivity|].
    destruct (Nat.eqb_spec (nrows data) (ncols data)); [contradiction|].
    simpl. eexists. reflexivity.
  - intros p i j -> Hi Hj Hneg. rewrite Hsnd.
    destruct (negb (TraditionalGraph.is_some decay) && _); [eexists; reflexivity|].
    destruct (negb (TraditionalGraph.str_in p _)); [eexists; reflexivity|].
    destruct (negb (nrows data =? ncols data)%nat); [eexists; reflexivity|].
    rewrite (any_negative_true data i j Hi Hj Hneg). simpl. eexists. reflexivity.
  - subst precomputed n_pca. reflexivity.
  - rewrite Hsnd. subst precomputed n_pca. reflexivity.
Qed.

(** C9, as stated, fails in its first case.  On a precomputed matrix of
    distances between three samples, [knn = 2], [n_pca = 2] is answered by
    the warning alone: the constructor returns the graph, with [n_pca]
    reset to [None] for the base class, and the kernel of that graph is
    built without an exception. *)
Lemma TraditionalGraph_precomputed_with_pca_only_warns :
  TraditionalGraph.__init__ DataGraph_keep_matrix three_distances 2
    (Some 10%Z) "euclidean" (Some 2%nat) (1 / 10000) (Some "distance") []
  = (["n_pca cannot be given on a precomputed graph. Setting n_pca=None"],
     Ok precomputed_distances)
  /\ exists K,
       TraditionalGraph.build_kernel (fun _ X => X) precomputed_distances
       = Ok K
       /\ shape K = (3%nat, 3%nat)
       /\ entry K 0 0 = 1.
Proof.
  split.
  - unfold TraditionalGraph.__init__. simpl.
    unfold TraditionalGraph.any_negative. simpl.
    destruct (Rlt_dec 0 0) as [H|H]; [lra|].
    destruct (Rlt_dec 1 0) as [H1|H1]; [lra|]. reflexivity.
  - eexists. split; [reflexivity|]. split; [reflexivity|].
    simpl. set (e := np_max _).
    replace (0 / e) with 0 by (unfold Rdiv; ring).
    rewrite !Rmult_0_l. replace (-1 * 0) with 0 by lra. rewrite exp_0.
    destruct (Rlt_dec ((1 + 1) / 2) (1 / 10000)); lra.
Qed.

(** ** Results and matrices *)

Lemma bind_Ok {A B : Type} (r : result A) (k : A -> result B) (b : B) :
  bind r k = Ok b -> exists a, r = Ok a /\ k a = Ok b.
Proof.
  destruct r as [a|e]; simpl; intros H; [exists a; auto | discriminate].
Qed.

Lemma symmetric_average (K : matrix) :
  nrows K = ncols K -> symmetric (mdiv (madd K (T K)) 2).
Proof.
  intros Hsq. split; simpl; [assumption|]. intros i j _ _. lra.
Qed.

Lemma symmetric_zero_below (t : R) (K : matrix) :
  symmetric K -> symmetric (zero_below t K).
Proof.
  intros [Hsq Hsym]. split; simpl; [assumption|].
  intros i j Hi Hj. rewrite (Hsym i j Hi Hj). reflexivity.
Qed.

Lemma sum_list_app (l1 l2 : list R) :
  sum_list (l1 ++ l2) = sum_list l1 + sum_list l2.
Proof. induction l1 as [|x l1 IH]; simpl; [lra | rewrite IH; lra]. Qed.

Lemma sum_list_nonneg (l : list R) :
  Forall (fun x => 0 <= x) l -> 0 <= sum_list l.
Proof.
  induction 1 as [|x l Hx _ IH]; simpl; lra.
Qed.

Lemma sum_list_ge_member (l : list R) (x : R) :
  Forall (fun y => 0 <= y) l -> In x l -> x <= sum_list l.
Proof.
  induction 1 as [|y l Hy Hl IH]; simpl; [contradiction|].
  intros [->|Hin].
  - pose proof (sum_list_nonneg l Hl). lra.
  - specialize (IH Hin). lra.
Qed.

Lemma sum_list_map_div {A : Type} (f : A -> R) (c : R) (l : list A) :
  sum_list (map (fun a => f a / c) l) = sum_list (map f l) / c.
Proof.
  induction l as [|a l IH]; simpl; [lra | rewrite IH; lra].
Qed.

(** ** The neighbour search *)

Section NeighborFacts.

Context {point : Type}.
Variable cdist : string -> point -> point -> R.

Lemma insert_by_dist_perm (x : neighbor) (l : list neighbor) :
  Permutation (Neighbors.insert_by_dist x l) (x :: l).
Proof.
  induction l as [|y l IH]; simpl; [reflexivity|].
  destruct (Rle_dec (fst x) (fst y)); [reflexivity|].
  rewrite IH. apply perm_swap.
Qed.

Lemma sort_by_dist_perm (l : list neighbor) :
  Permutation (Neighbors.sort_by_dist l) l.
Proof.
  induction l as [|x l IH]; simpl; [reflexivity|].
  rewrite insert_by_dist_perm. apply perm_skip, IH.
Qed.

Lemma insert_by_dist_head (x : neighbor) (l : list neighbor) :
  head_least l -> head_least (Neighbors.insert_by_dist x l).
Proof.
  destruct l as [|y l]; simpl; [constructor|].
  intros Hy. destruct (Rle_dec (fst x) (fst y)) as [Hle|Hgt]; simpl.
  - constructor; [assumption|].
    eapply Forall_impl; [|exact Hy]. simpl. intros; lra.
  - rewrite (insert_by_dist_perm x l). constructor; [lra | assumption].
Qed.

Lemma sort_by_dist_head (l : list neighbor) :
  head_least (Neighbors.sort_by_dist l).
Proof.
  induction l as [|x l IH]; simpl; [exact I|].
  apply insert_by_dist_head, IH.
Qed.

Lemma all_distances_indices (t : Neighbors.NearestNeighbors point) (y : point) :
  map snd (Neighbors.all_distances cdist t y)
  = seq 0 (length (Neighbors.fit_X t)).
Proof.
  unfold Neighbors.all_distances.
  generalize 0%nat.
  induction (Neighbors.fit_X t) as [|x l IH]; intros k; simpl;
    [reflexivity | rewrite IH; reflexivity].
Qed.

Lemma all_distances_length (t : Neighbors.NearestNeighbors point) (y : point) :
  length (Neighbors.all_distances cdist t y) = length (Neighbors.fit_X t).
Proof.
  unfold Neighbors.all_distances.
  rewrite length_combine, length_map, length_seq. apply Nat.min_id.
Qed.

Lemma In_firstn {A : Type} (k : nat) (l : list A) (x : A) :
  In x (firstn k l) -> In x l.
Proof.
  revert k. induction l as [|y l IH]; intros [|k]; simpl; try tauto.
  intros [->|H]; [left; reflexivity | right; eapply IH; exact H].
Qed.

Lemma NoDup_firstn {A : Type} (k : nat) (l : list A) :
  NoDup l -> NoDup (firstn k l).
Proof.
  intros H. revert k. induction H as [|x l Hx Hl IH]; intros [|k]; simpl;
    try constructor.
  - intros Hin. apply Hx. eapply In_firstn. exact Hin.
  - apply IH.
Qed.

Lemma sorted_indices_NoDup (t : Neighbors.NearestNeighbors point) (y : point) :
  NoDup (map snd (Neighbors.sort_by_dist (Neighbors.all_distances cdist t y))).
Proof.
  eapply Permutation_NoDup.
  - apply Permutation_map. symmetry. apply sort_by_dist_perm.
  - rewrite all_distances_indices. apply seq_NoDup.
Qed.

Lemma kneighbors_row_NoDup (t : Neighbors.NearestNeighbors point) (y : point)
  (k : nat) :
  NoDup (map snd (firstn k (Neighbors.sort_by_dist
                              (Neighbors.all_distances cdist t y)))).
Proof.
  rewrite <- firstn_map. apply NoDup_firstn, sorted_indices_NoDup.
Qed.

(** Dropping neighbours from a row keeps its column indices distinct. *)
Lemma filter_row_NoDup (keep : neighbor -> bool) (row : list neighbor) :
  NoDup (map snd row) -> NoDup (map snd (filter keep row)).
Proof.
  induction row as [|[d j] row IH]; simpl; intros Hnd; [constructor|].
  apply NoDup_cons_iff in Hnd. destruct Hnd as [Hj Hrow].
  destruct (keep (d, j)); simpl; [|apply IH, Hrow].
  apply NoDup_cons; [|apply IH, Hrow].
  intros Hin. apply Hj. apply in_map_iff in Hin.
  destruct Hin as [q [Eq Hq]]. apply filter_In in Hq.
  apply in_map_iff. exists q. tauto.
Qed.

Lemma radius_row_NoDup (t : Neighbors.NearestNeighbors point) (y : point)
  (r : R) :
  NoDup (map snd (filter (fun p : neighbor => if Rle_dec (fst p) r then true else false)
                         (Neighbors.all_distances cdist t y))).
Proof.
  apply filter_row_NoDup. rewrite all_distances_indices. apply seq_NoDup.
Qed.

Lemma kneighbors_Ok (t : Neighbors.NearestNeighbors point) (Y : list point)
  (k : nat) :
  (k <= length (Neighbors.fit_X t))%nat ->
  Neighbors.kneighbors cdist t Y k
  = Ok (map (fun y => firstn k (Neighbors.sort_by_dist
                                  (Neighbors.all_distances cdist t y))) Y).
Proof.
  intros Hk. unfold Neighbors.kneighbors.
  destruct (Nat.ltb_spec (length (Neighbors.fit_X t)) k); [lia | reflexivity].
Qed.

Lemma kneighbors_inv (t : Neighbors.NearestNeighbors point) (Y : list point)
  (k : nat) (nb : list (list neighbor)) :
  Neighbors.kneighbors cdist t Y k = Ok nb ->
  (k <= length (Neighbors.fit_X t))%nat
  /\ nb = map (fun y => firstn k (Neighbors.sort_by_dist
                                    (Neighbors.all_distances cdist t y))) Y.
Proof.
  unfold Neighbors.kneighbors.
  destruct (Nat.ltb_spec (length (Neighbors.fit_X t)) k) as [Hlt|Hge];
    [discriminate|].
  intros E. injection E as <-. split; [lia | reflexivity].
Qed.

End NeighborFacts.

(** ** The neighbours a search returns *)

Lemma insert_by_dist_sorted (x : neighbor) (l : list neighbor) :
  StronglySorted (fun p q : neighbor => fst p <= fst q) l ->
  StronglySorted (fun p q : neighbor => fst p <= fst q)
                 (Neighbors.insert_by_dist x l).
Proof.
  induction 1 as [|y l Hl IH Hy]; simpl.
  - constructor; constructor.
  - destruct (Rle_dec (fst x) (fst y)) as [Hle|Hgt].
    + constructor; [constructor; assumption|].
      constructor; [exact Hle|].
      eapply Forall_impl; [|exact Hy]. simpl. intros q Hq. lra.
    + constructor; [exact IH|].
      apply Forall_forall. intros q Hq.
      apply (Permutation_in _ (insert_by_dist_perm x l)) in Hq.
      destruct Hq as [<-|Hq]; [lra|].
      rewrite Forall_forall in Hy. apply Hy, Hq.
Qed.

Lemma sort_by_dist_sorted (l : list neighbor) :
  StronglySorted (fun p q : neighbor => fst p <= fst q)
                 (Neighbors.sort_by_dist l).
Proof.
  induction l as [|x l IH]; simpl; [constructor|].
  apply insert_by_dist_sorted, IH.
Qed.

Lemma sorted_app_le (l1 l2 : list neighbor) (a b : neighbor) :
  StronglySorted (fun p q : neighbor => fst p <= fst q) (l1 ++ l2) ->
  In a l1 -> In b l2 -> fst a <= fst b.
Proof.
  induction l1 as [|x l1 IH]; simpl; intros Hs Ha Hb; [contradiction|].
  inversion Hs as [|? ? Hs' Hx]; subst.
  destruct Ha as [<-|Ha].
  - rewrite Forall_forall in Hx. apply Hx. apply in_or_app. right. exact Hb.
  - apply IH; assumption.
Qed.

Lemma kneighbors_row_length {point : Type}
  (cdist : string -> point -> point -> R)
  (t : Neighbors.NearestNeighbors point) (y : point) (k : nat) :
  (k <= length (Neighbors.fit_X t))%nat ->
  length (firstn k (Neighbors.sort_by_dist
                      (Neighbors.all_distances cdist t y))) = k.
Proof.
  intros Hk. rewrite length_firstn.
  rewrite (Permutation_length (sort_by_dist_perm _)).
  rewrite all_distances_length. lia.
Qed.

Lemma kneighbors_row_bound {point : Type}
  (cdist : string -> point -> point -> R)
  (t : Neighbors.NearestNeighbors point) (y : point) (k j : nat) :
  In j (map snd (firstn k (Neighbors.sort_by_dist
                             (Neighbors.all_distances cdist t y)))) ->
  (j < length (Neighbors.fit_X t))%nat.
Proof.
  intros H. apply in_map_iff in H. destruct H as [p [<- Hp]].
  apply In_firstn in Hp.
  apply (Permutation_in _ (sort_by_dist_perm _)) in Hp.
  assert (Hs : In (snd p) (map snd (Neighbors.all_distances cdist t y)))
    by (apply in_map; exact Hp).
  rewrite all_distances_indices in Hs. apply in_seq in Hs. lia.
Qed.

Section SelfNeighbor.

Context {point : Type}.
Variable cdist : string -> point -> point -> R.

Lemma all_distances_In (t : Neighbors.NearestNeighbors point) (y : point)
  (d : R) (j : nat) :
  In (d, j) (Neighbors.all_distances cdist t y) <->
  exists x, nth_error (Neighbors.fit_X t) j = Some x
            /\ d = cdist (Neighbors.metric t) y x.
Proof.
  unfold Neighbors.all_distances.
  assert (H : forall (l : list point) k,
             In (d, j) (combine (map (cdist (Neighbors.metric t) y) l)
                                (seq k (length l)))
             <-> (k <= j)%nat
                 /\ exists x, nth_error l (j - k) = Some x
                              /\ d = cdist (Neighbors.metric t) y x).
  { induction l as [|x l IH]; intros k; simpl.
    - split; [contradiction|]. intros [_ [x [Hx _]]].
      destruct (j - k)%nat; discriminate.
    - rewrite IH. split.
      + intros [E|[Hle [x' [Hx' Hd]]]].
        * injection E as <- <-. split; [lia|]. exists x.
          rewrite Nat.sub_diag. auto.
        * split; [lia|]. exists x'.
          replace (j - k)%nat with (S (j - S k)) by lia. auto.
      + intros [Hle [x' [Hx' Hd]]].
        destruct (Nat.eq_dec k j) as [->|Hne].
        * rewrite Nat.sub_diag in Hx'. simpl in Hx'. injection Hx' as <-.
          left. congruence.
        * right. split; [lia|]. exists x'.
          replace (j - k)%nat with (S (j - S k)) in Hx' by lia. auto. }
  rewrite H, Nat.sub_0_r. intuition lia.
Qed.

(** The nearest neighbour of a sample among the fitted data is the sample
    itself. *)
Lemma self_first (t : Neighbors.NearestNeighbors point) (i : nat) (y : point) :
  apart cdist (Neighbors.fit_X t) ->
  nth_error (Neighbors.fit_X t) i = Some y ->
  exists rest,
    Neighbors.sort_by_dist (Neighbors.all_distances cdist t y)
    = (0, i) :: rest.
Proof.
  intros [Hzero Hpos] Hy.
  assert (Hself : In (0, i) (Neighbors.sort_by_dist
                               (Neighbors.all_distances cdist t y))).
  { eapply Permutation_in; [symmetry; apply sort_by_dist_perm|].
    apply all_distances_In. exists y. split; [exact Hy|].
    symmetry. apply Hzero. }
  pose proof (sort_by_dist_head (Neighbors.all_distances cdist t y)) as Hhead.
  destruct (Neighbors.sort_by_dist (Neighbors.all_distances cdist t y))
    as [|[d j] rest] eqn:E; [contradiction|].
  exists rest. f_equal.
  destruct Hself as [Hs|Hs]; [exact Hs|].
  simpl in Hhead. rewrite Forall_forall in Hhead.
  specialize (Hhead _ Hs). simpl in Hhead.
  assert (Hin : In (d, j) (Neighbors.all_distances cdist t y)).
  { eapply Permutation_in; [apply sort_by_dist_perm|].
    rewrite E. left. reflexivity. }
  apply all_distances_In in Hin. destruct Hin as [x [Hx Hd]].
  destruct (Nat.eq_dec i j) as [<-|Hne].
  - rewrite Hy in Hx. injection Hx as <-. rewrite Hd, Hzero. reflexivity.
  - exfalso. pose proof (Hpos (Neighbors.metric t) i j y x Hne Hy Hx).
    lra.
Qed.

Lemma holds_self_kneighbors (t : Neighbors.NearestNeighbors point) (i : nat)
  (y : point) (k : nat) :
  apart cdist (Neighbors.fit_X t) ->
  nth_error (Neighbors.fit_X t) i = Some y -> (1 <= k)%nat ->
  holds_self i (firstn k (Neighbors.sort_by_dist
                            (Neighbors.all_distances cdist t y))).
Proof.
  intros Hap Hy Hk. split; [apply kneighbors_row_NoDup|].
  destruct (self_first t i y Hap Hy) as [rest ->].
  destruct k as [|k]; [lia|]. left. reflexivity.
Qed.

Lemma holds_self_radius (t : Neighbors.NearestNeighbors point) (i : nat)
  (y : point) (r : R) :
  apart cdist (Neighbors.fit_X t) ->
  nth_error (Neighbors.fit_X t) i = Some y -> 0 <= r ->
  holds_self i (filter (fun p : neighbor =>
                          if Rle_dec (fst p) r then true else false)
                       (Neighbors.all_distances cdist t y)).
Proof.
  intros [Hzero _] Hy Hr. split; [apply radius_row_NoDup|].
  apply filter_In. split.
  - apply all_distances_In. exists y. split; [exact Hy|].
    symmetry. apply Hzero.
  - simpl. destruct (Rle_dec 0 r); [reflexivity | contradiction].
Qed.

Lemma holds_self_find (i : nat) (row : list neighbor) :
  holds_self i row ->
  find (fun p : neighbor => Nat.eqb (snd p) i) row = Some (0, i).
Proof.
  intros [Hnd Hin]. induction row as [|[d j] row IH]; simpl in *;
    [contradiction|].
  inversion Hnd as [|? ? Hj Hnd']; subst.
  destruct (Nat.eqb_spec j i) as [->|Hne].
  - destruct Hin as [E|Hin]; [congruence|].
    exfalso. apply Hj. apply in_map_iff. exists (0, i). auto.
  - destruct Hin as [E|Hin]; [congruence|]. apply IH; assumption.
Qed.

End SelfNeighbor.

(** ** Sparse rows *)

Lemma filter_index_absent (row : list neighbor) (j : nat) :
  ~ In j (map snd row) ->
  filter (fun p : neighbor => Nat.eqb (snd p) j) row = [].
Proof.
  induction row as [|p row IH]; simpl; [reflexivity|].
  intros Hn. destruct (Nat.eqb_spec (snd p) j) as [E|E]; [tauto|].
  apply IH. tauto.
Qed.

(** In a row that names every column at most once, the entry of a column
    is the value stored for it, and [0] when none is. *)
Lemma csr_row_entry (row : list neighbor) (j : nat) :
  NoDup (map snd row) ->
  sum_list (map fst (filter (fun p : neighbor => Nat.eqb (snd p) j) row))
  = match find (fun p : neighbor => Nat.eqb (snd p) j) row with
    | Some p => fst p
    | None => 0
    end.
Proof.
  induction row as [|p row IH]; simpl; [reflexivity|].
  intros H. inversion H as [|? ? Hp Hrow]; subst.
  destruct (Nat.eqb_spec (snd p) j) as [E|E]; simpl.
  - subst j. rewrite (filter_index_absent row (snd p) Hp). simpl. lra.
  - apply IH, Hrow.
Qed.

Lemma find_index_some (row : list neighbor) (j : nat) :
  In j (map snd row) ->
  exists p, find (fun p : neighbor => Nat.eqb (snd p) j) row = Some p
            /\ In p row /\ snd p = j.
Proof.
  induction row as [|q row IH]; simpl; [contradiction|].
  intros Hin. destruct (Nat.eqb_spec (snd q) j) as [E|E].
  - exists q. auto.
  - destruct Hin as [Hq|Hin]; [contradiction|].
    destruct (IH Hin) as [p [Hf [Hp Hs]]]. exists p. auto.
Qed.

Lemma find_index_none (row : list neighbor) (j : nat) :
  ~ In j (map snd row) ->
  find (fun p : neighbor => Nat.eqb (snd p) j) row = None.
Proof.
  induction row as [|q row IH]; simpl; [reflexivity|].
  intros Hn. destruct (Nat.eqb_spec (snd q) j) as [E|E]; [tauto|].
  apply IH. tauto.
Qed.

(** A connectivity row holds [1] at the columns it names and [0]
    elsewhere. *)
Lemma connectivity_row_entry (row : list neighbor) (j : nat) :
  NoDup (map snd row) ->
  sum_list (map fst (filter (fun p : neighbor => Nat.eqb (snd p) j)
                            (map (fun p : neighbor => (1, snd p)) row)))
  = if in_dec Nat.eq_dec j (map snd row) then 1 else 0.
Proof.
  intros Hnd.
  assert (Hsnd : map snd (map (fun p : neighbor => (1, snd p)) row)
                 = map snd row).
  { rewrite map_map. reflexivity. }
  rewrite csr_row_entry by (rewrite Hsnd; exact Hnd).
  destruct (in_dec Nat.eq_dec j (map snd row)) as [Hin|Hn].
  - rewrite <- Hsnd in Hin.
    destruct (find_index_some _ j Hin) as [p [Hf [Hp _]]]. rewrite Hf.
    apply in_map_iff in Hp. destruct Hp as [q [<- _]]. reflexivity.
  - rewrite find_index_none; [reflexivity | rewrite Hsnd; exact Hn].
Qed.

(** ** kNNGraph: the connectivity kernel *)

Section BinaryKernel.

Context {point : Type}.
Variable cdist : string -> point -> point -> R.

Lemma kneighbors_rows_NoDup (t : Neighbors.NearestNeighbors point)
  (Y : list point) (k : nat) (nb : list (list neighbor)) (i : nat) :
  Neighbors.kneighbors cdist t Y k = Ok nb ->
  NoDup (map snd (nth i nb [])).
Proof.
  intros H. apply kneighbors_inv in H. destruct H as [_ ->].
  destruct (nth_in_or_default i
              (map (fun y => firstn k (Neighbors.sort_by_dist
                                         (Neighbors.all_distances cdist t y))) Y)
              []) as [Hin| ->]; [|constructor].
  apply in_map_iff in Hin. destruct Hin as [y [<- _]].
  apply kneighbors_row_NoDup.
Qed.

Lemma kneighbors_graph_entry (t : Neighbors.NearestNeighbors point)
  (Y : list point) (k : nat) (nb : list (list neighbor)) :
  Neighbors.kneighbors cdist t Y k = Ok nb ->
  exists A,
    Neighbors.kneighbors_graph cdist t Y k = Ok A
    /\ nrows A = length Y /\ ncols A = length (Neighbors.fit_X t)
    /\ forall i j,
         entry A i j
         = if in_dec Nat.eq_dec j (map snd (nth i nb [])) then 1 else 0.
Proof.
  intros H. unfold Neighbors.kneighbors_graph. rewrite H. simpl.
  eexists. split; [reflexivity|]. simpl. repeat split.
  intros i j.
  change (@nil neighbor) with (map (fun p : neighbor => (1, snd p)) []) at 1.
  rewrite map_nth.
  apply connectivity_row_entry. eapply kneighbors_rows_NoDup. exact H.
Qed.

(** A row of the search holds [k] nearest neighbours of its query
    point. *)
Lemma kneighbors_row_k_nearest (t : Neighbors.NearestNeighbors point)
  (y : point) (k : nat) :
  (k <= length (Neighbors.fit_X t))%nat ->
  k_nearest cdist (Neighbors.metric t) (Neighbors.fit_X t) k y
    (map snd (firstn k (Neighbors.sort_by_dist
                          (Neighbors.all_distances cdist t y)))).
Proof.
  intros Hk.
  set (S := Neighbors.sort_by_dist (Neighbors.all_distances cdist t y)).
  split; [apply kneighbors_row_NoDup|].
  split; [rewrite length_map; apply kneighbors_row_length; exact Hk|].
  split; [intros j Hj; eapply kneighbors_row_bound; exact Hj|].
  intros j c xj xc Hin Hout Hj Hc.
  apply in_map_iff in Hin. destruct Hin as [[d j'] [Ej' Hp]].
  simpl in Ej'. subst j'.
  assert (Hd : d = cdist (Neighbors.metric t) y xj).
  { pose proof (In_firstn _ _ _ Hp) as Hp'.
    apply (Permutation_in _ (sort_by_dist_perm _)) in Hp'.
    apply all_distances_In in Hp'. destruct Hp' as [x [Hx ->]].
    rewrite Hj in Hx. injection Hx as <-. reflexivity. }
  assert (Hq : In (cdist (Neighbors.metric t) y xc, c) S).
  { apply (Permutation_in _ (Permutation_sym (sort_by_dist_perm _))).
    apply all_distances_In. exists xc. split; [exact Hc | reflexivity]. }
  rewrite <- (firstn_skipn k S) in Hq. apply in_app_or in Hq.
  destruct Hq as [Hq|Hq].
  - exfalso. apply Hout. apply in_map_iff.
    exists (cdist (Neighbors.metric t) y xc, c). auto.
  - pose proof (sort_by_dist_sorted (Neighbors.all_distances cdist t y))
      as Hs. fold S in Hs. rewrite <- (firstn_skipn k S) in Hs.
    pose proof (sorted_app_le _ _ _ _ Hs Hp Hq) as Hle.
    simpl in Hle. rewrite Hd in Hle. exact Hle.
Qed.

(** The kernel [kNNGraph.build_kernel] returns when it takes the binary
    branch. *)
Lemma binary_build_kernel (g : kNNGraph.t point) (nb : list (list neighbor)) :
  kNNGraph.decay g = None \/ kNNGraph.thresh g = 1 ->
  Neighbors.kneighbors cdist (kNNGraph.knn_tree g)
    (Base.data_nu (kNNGraph.base g)) (kNNGraph.knn g) = Ok nb ->
  exists K,
    kNNGraph.build_kernel cdist g = Ok K
    /\ shape K = (length (Base.data_nu (kNNGraph.base g)),
                  length (Base.data_nu (kNNGraph.base g)))
    /\ forall i j,
         entry K i j
         = ((if in_dec Nat.eq_dec j (map snd (nth i nb [])) then 1 else 0)
            + (if in_dec Nat.eq_dec i (map snd (nth j nb [])) then 1 else 0))
           / 2.
Proof.
  intros Hmode Hnb.
  destruct (kneighbors_graph_entry _ _ _ _ Hnb) as [A [HA [Hr [Hc Hent]]]].
  assert (E : kNNGraph.build_kernel cdist g = Ok (mdiv (madd A (T A)) 2)).
  { unfold kNNGraph.build_kernel.
    destruct (kNNGraph.decay g) as [dec|].
    - destruct Hmode as [Hd|Ht]; [discriminate|].
      destruct (Req_dec_T (kNNGraph.thresh g) 1); [|contradiction].
      rewrite HA. reflexivity.
    - rewrite HA. reflexivity. }
  exists (mdiv (madd A (T A)) 2). split; [exact E|]. split.
  - unfold shape. simpl. rewrite Hr, Hc. reflexivity.
  - intros i j. simpl. rewrite !Hent. reflexivity.
Qed.

End BinaryKernel.

(** C3: for a kNNGraph with [decay] [None] or [thresh] equal to [1] (and
    [1 <= knn <= n_samples], so that the search answers), [build_kernel]
    returns a kernel [K] over the samples, and there are neighbour sets
    [N i], one per sample, such that
    - [N i] is a set of [knn] nearest neighbours of sample [i]: [knn]
      different samples, none farther from sample [i] in the graph's
      metric than a sample outside [N i], the sample [i] being a
      candidate like every other;
    - where no two samples are in one place, every sample is among its
      own neighbours and the diagonal of [K] is 1;
    - every entry of [K] is [0], [1/2] or [1]: it is [1] exactly when [i]
      and [j] are in each other's sets, [1/2] exactly when one of them is
      in the other's and not the other way round, and [0] exactly when
      neither is. *)
Theorem kNNGraph_binary_kernel_entries :
  forall (point : Type) (cdist : string -> point -> point -> R)
         (g : kNNGraph.t point),
    kNNGraph.decay g = None \/ kNNGraph.thresh g = 1 ->
    (1 <= kNNGraph.knn g <= length (Base.data_nu (kNNGraph.base g)))%nat ->
    exists (K : matrix) (N : nat -> list nat),
      kNNGraph.build_kernel cdist g = Ok K
      /\ shape K = (length (Base.data_nu (kNNGraph.base g)),
                    length (Base.data_nu (kNNGraph.base g)))
      /\ (forall i x,
            nth_error (Base.data_nu (kNNGraph.base g)) i = Some x ->
            k_nearest cdist (kNNGraph.distance g)
              (Base.data_nu (kNNGraph.base g)) (kNNGraph.knn g) x (N i))
      /\ (apart cdist (Base.data_nu (kNNGraph.base g)) ->
          forall i, (i < length (Base.data_nu (kNNGraph.base g)))%nat ->
                    In i (N i) /\ entry K i i = 1)
      /\ forall i j,
           (entry K i j = 0 \/ entry K i j = 1 / 2 \/ entry K i j = 1)
           /\ (entry K i j = 1 <-> In j (N i) /\ In i (N j))
           /\ (entry K i j = 1 / 2 <->
               (In j (N i) /\ ~ In i (N j)) \/ (~ In j (N i) /\ In i (N j)))
           /\ (entry K i j = 0 <-> ~ In j (N i) /\ ~ In i (N j)).
Proof.
  intros point cdist g Hmode [Hone Hk].
  pose proof (kneighbors_Ok cdist (kNNGraph.knn_tree g)
                (Base.data_nu (kNNGraph.base g)) (kNNGraph.knn g) Hk) as Hnb.
  set (nb := map _ _) in Hnb.
  destruct (binary_build_kernel cdist g nb Hmode Hnb) as [K [HK [Hsh Hent]]].
  exists K, (fun i => map snd (nth i nb [])).
  split; [exact HK|]. split; [exact Hsh|].
  assert (Hrow : forall i x,
             nth_error (Base.data_nu (kNNGraph.base g)) i = Some x ->
             nth i nb []
             = firstn (kNNGraph.knn g)
                 (Neighbors.sort_by_dist
                    (Neighbors.all_distances cdist (kNNGraph.knn_tree g) x))).
  { intros i x Hx. apply nth_error_nth. unfold nb.
    rewrite nth_error_map, Hx. reflexivity. }
  split; [|split].
  - intros i x Hx. rewrite (Hrow i x Hx).
    apply (kneighbors_row_k_nearest cdist (kNNGraph.knn_tree g) x
             (kNNGraph.knn g) Hk).
  - intros Hap i Hi.
    destruct (nth_error (Base.data_nu (kNNGraph.base g)) i) as [x|] eqn:Hx;
      [|apply nth_error_None in Hx; lia].
    assert (Hin : In i (map snd (nth i nb []))).
    { rewrite (Hrow i x Hx).
      destruct (holds_self_kneighbors cdist (kNNGraph.knn_tree g) i x
                  (kNNGraph.knn g) Hap Hx Hone) as [_ Hself].
      apply in_map_iff. exists (0, i). split; [reflexivity | exact Hself]. }
    split; [exact Hin|]. rewrite (Hent i i).
    destruct (in_dec Nat.eq_dec i (map snd (nth i nb [])));
      [lra | contradiction].
  - intros i j. rewrite (Hent i j).
    destruct (in_dec Nat.eq_dec j (map snd (nth i nb [])));
      destruct (in_dec Nat.eq_dec i (map snd (nth j nb [])));
      repeat split; intros; try tauto; try lra.
Qed.

(** ** Points on a line *)

Lemma line_dist_nonneg (m : string) (a b : Z) : 0 <= line_dist m a b.
Proof. unfold line_dist. apply IZR_le. apply Z.abs_nonneg. Qed.

Lemma line_apart (data : list Z) : NoDup data -> apart line_dist data.
Proof.
  intros Hnd. split.
  - intros m x. unfold line_dist. rewrite Z.sub_diag. reflexivity.
  - intros m i j x y Hij Hx Hy. unfold line_dist. apply IZR_lt.
    assert (x <> y).
    { intros ->. apply Hij.
      apply (proj1 (NoDup_nth_error data) Hnd).
      - apply nth_error_Some. congruence.
      - congruence. }
    lia.
Qed.

Lemma NoDup_three_points : NoDup [0; 1; 3]%Z.
Proof.
  repeat constructor; simpl; intuition discriminate.
Qed.

(** *** Three samples on a line *)

(** On the points 0, 1 and 3 with [knn = 2]: the sample 1 has two
    nearest neighbours, itself among them, and the entries of its row are
    as stated. *)
Lemma kNNGraph_binary_kernel_entries_witness :
  exists (K : matrix) (N : nat -> list nat),
    kNNGraph.build_kernel line_dist three_points = Ok K
    /\ shape K = (3%nat, 3%nat)
    /\ k_nearest line_dist "euclidean" [0; 1; 3]%Z 2 1%Z (N 1%nat)
    /\ In 1%nat (N 1%nat) /\ entry K 1 1 = 1
    /\ (entry K 1 2 = 1 / 2 <->
        (In 2%nat (N 1%nat) /\ ~ In 1%nat (N 2%nat))
        \/ (~ In 2%nat (N 1%nat) /\ In 1%nat (N 2%nat))).
Proof.
  destruct (kNNGraph_binary_kernel_entries Z line_dist three_points)
    as [K [N [HK [Hsh [Hnear [Hself Hent]]]]]].
  - left. reflexivity.
  - simpl. lia.
  - exists K, N. split; [exact HK|]. split; [exact Hsh|].
    split; [exact (Hnear 1%nat 1%Z eq_refl)|].
    split; [|split].
    + apply (Hself (line_apart _ NoDup_three_points)). simpl. lia.
    + apply (Hself (line_apart _ NoDup_three_points)). simpl. lia.
    + apply (Hent 1%nat 2%nat).
Defined.

(** On the points 0, 1 and 3 with [knn = 2]: 0 and 1 are each other's
    neighbours, 1 is a neighbour of 3 but not the other way round, and
    0 and 3 are no neighbours. *)
Example three_points_kernel :
  exists K,
    kNNGraph.build_kernel line_dist three_points = Ok K
    /\ entry K 0 1 = 1 /\ entry K 1 2 = 1 / 2 /\ entry K 0 2 = 0
    /\ entry K 0 0 = 1 /\ entry K 1 1 = 1 /\ entry K 2 2 = 1.
Proof.
  eexists. split; [reflexivity|].
  unfold line_dist. repeat split; decide_R; simpl; lra.
Qed.

(** ** Masks and labels *)

Lemma where_from_In {A : Type} (p : A -> bool) (l : list A) (k r : nat) :
  In r (where_from p k l) <->
  (k <= r)%nat /\ exists x, nth_error l (r - k) = Some x /\ p x = true.
Proof.
  revert k. induction l as [|y l IH]; intros k; simpl.
  - split; [contradiction|]. intros [_ [x [H _]]].
    destruct (r - k)%nat; discriminate.
  - assert (Hstep : In r (where_from p (S k) l) <->
                    (k < r)%nat /\ exists x, nth_error l (r - S k) = Some x
                                             /\ p x = true).
    { rewrite IH. reflexivity. }
    assert (Hcase : forall x, (k < r)%nat ->
               nth_error (y :: l) (r - k) = Some x
               <-> nth_error l (r - S k) = Some x).
    { intros x Hlt. replace (r - k)%nat with (S (r - S k)) by lia.
      reflexivity. }
    destruct (p y) eqn:Hp; simpl; rewrite Hstep.
    + split.
      * intros [<-|[Hlt [x [Hx Hpx]]]].
        -- split; [lia|]. exists y. rewrite Nat.sub_diag. auto.
        -- split; [lia|]. exists x. rewrite Hcase by assumption. auto.
      * intros [Hle [x [Hx Hpx]]].
        destruct (Nat.eq_dec k r) as [->|Hne]; [left; reflexivity|].
        right. split; [lia|]. exists x. rewrite <- Hcase by lia. auto.
    + split.
      * intros [Hlt [x [Hx Hpx]]]. split; [lia|]. exists x.
        rewrite Hcase by assumption. auto.
      * intros [Hle [x [Hx Hpx]]].
        destruct (Nat.eq_dec k r) as [->|Hne].
        -- rewrite Nat.sub_diag in Hx. simpl in Hx. congruence.
        -- split; [lia|]. exists x. rewrite <- Hcase by lia. auto.
Qed.

Lemma mask_In (labels : list Z) (v : Z) (r : nat) :
  In r (mask labels v) <-> nth_error labels r = Some v.
Proof.
  unfold mask, np_where. rewrite where_from_In, Nat.sub_0_r. split.
  - intros [_ [x [Hx Hp]]]. apply Z.eqb_eq in Hp. congruence.
  - intros H. split; [lia|]. exists v. split; [assumption | apply Z.eqb_refl].
Qed.

Lemma where_from_sorted {A : Type} (p : A -> bool) (l : list A) (k : nat) :
  StronglySorted lt (where_from p k l).
Proof.
  revert k. induction l as [|y l IH]; intros k; simpl; [constructor|].
  destruct (p y); [|apply IH].
  constructor; [apply IH|].
  apply Forall_forall. intros r Hr. apply where_from_In in Hr. lia.
Qed.

Lemma StronglySorted_lt_NoDup (l : list nat) :
  StronglySorted lt l -> NoDup l.
Proof.
  induction 1 as [|x l Hl IH Hx]; constructor; [|assumption].
  intros Hin. rewrite Forall_forall in Hx. specialize (Hx x Hin). lia.
Qed.

Lemma mask_NoDup (labels : list Z) (v : Z) : NoDup (mask labels v).
Proof. apply StronglySorted_lt_NoDup, where_from_sorted. Qed.

Lemma mask_bound (labels : list Z) (v : Z) (r : nat) :
  In r (mask labels v) -> (r < length labels)%nat.
Proof.
  intros H. apply mask_In in H. apply nth_error_Some. congruence.
Qed.

Lemma insert_unique_In (x : Z) (l : list Z) (c : Z) :
  In c (insert_unique x l) <-> c = x \/ In c l.
Proof.
  induction l as [|y l IH]; simpl; [intuition|].
  destruct (Z.ltb_spec x y); simpl; [intuition|].
  destruct (Z.eqb_spec x y); simpl.
  - subst. intuition.
  - rewrite IH. intuition.
Qed.

Lemma np_unique_In (labels : list Z) (c : Z) :
  In c (np_unique labels) <-> In c labels.
Proof.
  induction labels as [|x l IH]; simpl; [reflexivity|].
  rewrite insert_unique_In, IH. intuition.
Qed.

Lemma insert_unique_sorted (x : Z) (l : list Z) :
  StronglySorted Z.lt l -> StronglySorted Z.lt (insert_unique x l).
Proof.
  induction 1 as [|y l Hl IH Hy]; simpl; [repeat constructor|].
  destruct (Z.ltb_spec x y).
  - constructor; [constructor; assumption|].
    constructor; [assumption|].
    eapply Forall_impl; [|exact Hy]. simpl. intros; lia.
  - destruct (Z.eqb_spec x y); [constructor; assumption|].
    constructor; [assumption|].
    apply Forall_forall. intros c Hc. apply insert_unique_In in Hc.
    destruct Hc as [->|Hc]; [lia|].
    rewrite Forall_forall in Hy. apply Hy, Hc.
Qed.

Lemma np_unique_sorted (labels : list Z) :
  StronglySorted Z.lt (np_unique labels).
Proof.
  induction labels as [|x l IH]; simpl; [constructor|].
  apply insert_unique_sorted, IH.
Qed.

Lemma np_unique_NoDup (labels : list Z) : NoDup (np_unique labels).
Proof.
  pose proof (np_unique_sorted labels) as H.
  induction H as [|x l Hl IH Hx]; constructor; [|assumption].
  intros Hin. rewrite Forall_forall in Hx. specialize (Hx x Hin). lia.
Qed.

(** Distinct labels below [N] are at most [N]. *)
Lemma distinct_labels_bound (ids : list Z) (N : nat) :
  NoDup ids -> Forall (fun c => (0 <= c < Z.of_nat N)%Z) ids ->
  (length ids <= N)%nat.
Proof.
  intros Hnd Hall.
  assert (Hlen : (length (map Z.to_nat ids) <= length (seq 0 N))%nat).
  { apply NoDup_incl_length.
    - induction Hnd as [|x l Hx Hl IH]; simpl; constructor.
      + intros Hin. apply in_map_iff in Hin. destruct Hin as [c [Hc Hin]].
        inversion Hall as [|? ? Hx0 Hl0]; subst.
        rewrite Forall_forall in Hl0. specialize (Hl0 c Hin).
        assert (c = x) by lia. subst. contradiction.
      + apply IH. inversion Hall; assumption.
    - intros k Hk. apply in_map_iff in Hk. destruct Hk as [c [<- Hc]].
      rewrite Forall_forall in Hall. specialize (Hall c Hc).
      apply in_seq. lia. }
  rewrite length_map, length_seq in Hlen. exact Hlen.
Qed.

(** ** LandmarkGraph: the transition matrices *)

Lemma normalize_row_sum (X : matrix) (i : nat) :
  (forall j, (j < ncols X)%nat -> 0 <= entry X i j) ->
  (exists j, (j < ncols X)%nat /\ 0 < entry X i j) ->
  row_sum (normalize X) i = 1.
Proof.
  intros Hnn [j0 [Hj0 Hpos]].
  assert (Hnorm : l1_norm X i = sum_list (map (entry X i) (seq 0 (ncols X)))).
  { unfold l1_norm. f_equal. apply map_ext_in. intros j Hj.
    apply in_seq in Hj. apply Rabs_right. apply Rle_ge, Hnn. lia. }
  assert (Hsum : 0 < sum_list (map (entry X i) (seq 0 (ncols X)))).
  { apply Rlt_le_trans with (entry X i j0); [assumption|].
    apply sum_list_ge_member.
    - apply Forall_forall. intros x Hx. apply in_map_iff in Hx.
      destruct Hx as [j [<- Hj]]. apply in_seq in Hj. apply Hnn. lia.
    - apply in_map. apply in_seq. lia. }
  unfold row_sum, normalize. simpl.
  rewrite (sum_list_map_div (entry X i)).
  destruct (Req_dec_T (l1_norm X i) 0) as [E|E]; [lra|].
  rewrite Hnorm. field. lra.
Qed.

Section Landmarks.

Variable K : matrix.
Variable cl : list Z.
Hypothesis K_square : ncols K = nrows K.
Hypothesis K_nonneg :
  forall i j, (i < nrows K)%nat -> (j < nrows K)%nat -> 0 <= entry K i j.
Hypothesis K_diag : forall i, (i < nrows K)%nat -> 0 < entry K i i.
Hypothesis cl_length : length cl = nrows K.

Lemma cluster_sums_nonneg (ids : list Z) (a c : nat) :
  (c < nrows K)%nat ->
  0 <= entry (LandmarkGraph.cluster_sums K cl ids) a c.
Proof.
  intros Hc. simpl. apply sum_list_nonneg, Forall_forall.
  intros x Hx. apply in_map_iff in Hx. destruct Hx as [r [<- Hr]].
  apply K_nonneg; [|assumption].
  rewrite <- cl_length. eapply mask_bound. exact Hr.
Qed.

(** A cluster's row holds at least the self-affinity of each of its
    members. *)
Lemma cluster_sums_member (ids : list Z) (a s : nat) :
  nth_error cl s = Some (nth a ids 0%Z) ->
  entry K s s <= entry (LandmarkGraph.cluster_sums K cl ids) a s.
Proof.
  intros Hs. simpl.
  assert (Hlt : (s < nrows K)%nat).
  { rewrite <- cl_length. apply nth_error_Some. congruence. }
  apply sum_list_ge_member.
  - apply Forall_forall. intros x Hx. apply in_map_iff in Hx.
    destruct Hx as [r [<- Hr]]. apply K_nonneg; [|assumption].
    rewrite <- cl_length. eapply mask_bound. exact Hr.
  - apply in_map_iff. exists s. split; [reflexivity|].
    apply mask_In. exact Hs.
Qed.

Lemma pmn_row_sum (a : nat) :
  (a < length (np_unique cl))%nat ->
  row_sum (normalize (LandmarkGraph.cluster_sums K cl (np_unique cl))) a = 1.
Proof.
  intros Ha. apply normalize_row_sum; simpl; rewrite K_square.
  - intros j Hj. apply (cluster_sums_nonneg (np_unique cl) a j Hj).
  - assert (Hin : In (nth a (np_unique cl) 0%Z) cl).
    { apply np_unique_In. apply nth_In. exact Ha. }
    apply In_nth_error in Hin. destruct Hin as [s Hs].
    assert (Hlt : (s < nrows K)%nat).
    { rewrite <- cl_length. apply nth_error_Some. congruence. }
    exists s. split; [assumption|].
    eapply Rlt_le_trans; [apply (K_diag s Hlt)|].
    apply (cluster_sums_member (np_unique cl) a s Hs).
Qed.

Lemma pnm_row_sum (s : nat) :
  (s < nrows K)%nat ->
  row_sum (normalize (T (LandmarkGraph.cluster_sums K cl (np_unique cl)))) s
  = 1.
Proof.
  intros Hs. apply normalize_row_sum.
  - intros a _. apply (cluster_sums_nonneg (np_unique cl) a s Hs).
  - assert (Hsome : exists c, nth_error cl s = Some c).
    { destruct (nth_error cl s) as [c|] eqn:E; [exists c; reflexivity|].
      apply nth_error_None in E. lia. }
    destruct Hsome as [c Hc].
    assert (Hin : In c (np_unique cl)).
    { apply np_unique_In. eapply nth_error_In. exact Hc. }
    destruct (In_nth _ _ 0%Z Hin) as [a [Ha Hnth]].
    exists a. split; [exact Ha|].
    eapply Rlt_le_trans; [apply (K_diag s Hs)|].
    apply (cluster_sums_member (np_unique cl) a s). congruence.
Qed.

End Landmarks.

(** C7: after [build_landmark_op], on a kernel that is square and
    non-negative with a positive diagonal, and a clustering that gives
    each sample one cluster id below [n_landmark]: every row of [pmn] and
    of [pnm] (the transitions) sums to 1, and the landmark operator
    [pmn . pnm] has shape (m, m), where m, the number of distinct cluster
    ids k-means produced, is at most [n_landmark]. *)
Theorem LandmarkGraph_build_landmark_op_rows :
  forall (spectral_clusters : matrix -> nat -> nat -> pyval -> list Z)
         (g : LandmarkGraph.t),
    let K := LandmarkGraph.kernel g in
    let L := LandmarkGraph.build_landmark_op spectral_clusters g in
    let ids := np_unique (LandmarkGraph.clusters L) in
    ncols K = nrows K ->
    (forall i j, (i < nrows K)%nat -> (j < nrows K)%nat -> 0 <= entry K i j) ->
    (forall i, (i < nrows K)%nat -> 0 < entry K i i) ->
    length (LandmarkGraph.clusters L) = nrows K ->
    Forall (fun c => (0 <= c < Z.of_nat (LandmarkGraph.n_landmark g))%Z)
           (LandmarkGraph.clusters L) ->
    NoDup ids
    /\ (forall c, In c ids <-> In c (LandmarkGraph.clusters L))
    /\ shape (LandmarkGraph.landmark_op L) = (length ids, length ids)
    /\ (length ids <= LandmarkGraph.n_landmark g)%nat
    /\ shape (LandmarkGraph.pmn L) = (length ids, nrows K)
    /\ shape (LandmarkGraph.transitions L) = (nrows K, length ids)
    /\ (forall a, (a < length ids)%nat -> row_sum (LandmarkGraph.pmn L) a = 1)
    /\ (forall s, (s < nrows K)%nat ->
                  row_sum (LandmarkGraph.transitions L) s = 1).
Proof.
  intros sc g K L ids Hsq Hnn Hdiag Hlen Hall.
  split; [apply np_unique_NoDup|].
  split; [intros c; apply np_unique_In|].
  split; [reflexivity|].
  split.
  { apply distinct_labels_bound; [apply np_unique_NoDup|].
    apply Forall_forall. intros c Hc.
    apply (proj1 (np_unique_In _ c)) in Hc.
    rewrite Forall_forall in Hall. apply Hall, Hc. }
  split; [unfold shape; simpl; f_equal; exact Hsq|].
  split; [unfold shape; simpl; f_equal; exact Hsq|].
  split.
  - intros a Ha. apply (pmn_row_sum K _ Hsq Hnn Hdiag Hlen a Ha).
  - intros s Hs. apply (pnm_row_sum K _ Hsq Hnn Hdiag Hlen s Hs).
Qed.

Lemma LandmarkGraph_build_landmark_op_rows_witness :
  let L := LandmarkGraph.build_landmark_op one_cluster one_landmark in
  shape (LandmarkGraph.landmark_op L) = (1%nat, 1%nat)
  /\ row_sum (LandmarkGraph.pmn L) 0 = 1
  /\ row_sum (LandmarkGraph.transitions L) 0 = 1
  /\ row_sum (LandmarkGraph.transitions L) 1 = 1.
Proof.
  destruct (LandmarkGraph_build_landmark_op_rows one_cluster one_landmark)
    as [_ [_ [Hop [_ [_ [_ [Hpmn Hpnm]]]]]]].
  - reflexivity.
  - intros i j _ _. simpl. destruct (Nat.eqb i j); lra.
  - intros i _. simpl. rewrite Nat.eqb_refl. lra.
  - reflexivity.
  - repeat constructor; simpl; lia.
  - split; [exact Hop|].
    split; [apply Hpmn; simpl; lia|].
    split; apply Hpnm; simpl; lia.
Defined.

(** *** A sample with no affinity

    The third sample of [isolated_affinity] has affinity 0 to every
    sample.  Whatever the clustering, its row of the transitions [pnm] is
    a row of zeros, which the normalization leaves as it is. *)
Lemma isolated_kernel_column (r : nat) : entry isolated_kernel r 2 = 0.
Proof.
  simpl. rewrite andb_false_r.
  destruct (Rlt_dec ((0 + 0) / 2) (1 / 10000)); lra.
Qed.

Lemma isolated_sample_transitions
  (spectral_clusters : matrix -> nat -> nat -> pyval -> list Z) :
  row_sum (LandmarkGraph.transitions
             (LandmarkGraph.build_landmark_op spectral_clusters
                isolated_landmarks)) 2 = 0.
Proof.
  unfold row_sum, LandmarkGraph.build_landmark_op.
  cbn [LandmarkGraph.transitions].
  set (ids := np_unique _). set (cl := spectral_clusters _ _ _ _).
  assert (Hz : forall a,
             entry (T (LandmarkGraph.cluster_sums
                         (LandmarkGraph.kernel isolated_landmarks) cl ids))
                   2 a = 0).
  { intros a. cbn [T entry LandmarkGraph.cluster_sums].
    induction (mask cl (nth a ids 0%Z)) as [|r l IH]; [reflexivity|].
    cbn [map sum_list]. rewrite IH.
    change (LandmarkGraph.kernel isolated_landmarks) with isolated_kernel.
    rewrite isolated_kernel_column. lra. }
  induction (seq 0 (ncols (normalize
                             (T (LandmarkGraph.cluster_sums
                                   (LandmarkGraph.kernel isolated_landmarks)
                                   cl ids))))) as [|a l IH];
    [reflexivity|].
  cbn [map sum_list]. rewrite IH.
  unfold normalize at 1. cbn [entry]. rewrite Hz. unfold Rdiv. ring.
Qed.

(** C7, as stated, fails on a kernel with such a sample.  The affinity
    matrix is accepted by [TraditionalGraph] and is its kernel; with the
    third sample in a cluster of its own, the row of [pmn] of that cluster
    and the row of [pnm] of that sample sum to 0, not to 1. *)
Lemma LandmarkGraph_isolated_sample_rows :
  TraditionalGraph.__init__ DataGraph_keep_matrix isolated_affinity 5
    (Some 10%Z) "euclidean" None (1 / 10000) (Some "affinity") []
  = ([], Ok isolated_graph)
  /\ TraditionalGraph.build_kernel (fun _ X => X) isolated_graph
     = Ok (LandmarkGraph.kernel isolated_landmarks)
  /\ LandmarkGraph.clusters
       (LandmarkGraph.build_landmark_op isolated_clusters isolated_landmarks)
     = [0; 0; 1]%Z
  /\ shape (LandmarkGraph.pmn
              (LandmarkGraph.build_landmark_op isolated_clusters
                 isolated_landmarks)) = (2%nat, 3%nat)
  /\ row_sum (LandmarkGraph.pmn
                (LandmarkGraph.build_landmark_op isolated_clusters
                   isolated_landmarks)) 1 = 0
  /\ row_sum (LandmarkGraph.transitions
                (LandmarkGraph.build_landmark_op isolated_clusters
                   isolated_landmarks)) 2 = 0.
Proof.
  split; [|split; [|split; [|split; [|split]]]].
  - unfold TraditionalGraph.__init__. simpl.
    unfold TraditionalGraph.any_negative. decide_R. reflexivity.
  - reflexivity.
  - reflexivity.
  - reflexivity.
  - unfold row_sum. decide_R.
  - apply isolated_sample_transitions.
Qed.

(** ** Blocks of a matrix *)

Lemma index_of_Some (r : nat) (l : list nat) (a : nat) :
  index_of r l = Some a -> nth a l 0%nat = r /\ (a < length l)%nat.
Proof.
  revert a. induction l as [|y l IH]; simpl; intros a H; [discriminate|].
  destruct (Nat.eqb_spec r y) as [->|Hne].
  - injection H as <-. split; [reflexivity | lia].
  - destruct (index_of r l) as [a'|]; simpl in H; [|discriminate].
    injection H as <-. destruct (IH a' eq_refl). split; [assumption | lia].
Qed.

Lemma index_of_None (r : nat) (l : list nat) :
  index_of r l = None <-> ~ In r l.
Proof.
  induction l as [|y l IH]; simpl; [tauto|].
  destruct (Nat.eqb_spec r y) as [->|Hne].
  - split; [discriminate | tauto].
  - destruct (index_of r l) as [a'|]; simpl.
    + split; [discriminate|]. intros Hn. exfalso. apply Hn. right.
      destruct IH as [_ IH]. destruct (in_dec Nat.eq_dec r l); [assumption|].
      specialize (IH n). discriminate.
    + split; [|reflexivity]. intros _ [E|Hin]; [congruence|].
      destruct IH as [IH _]. apply (IH eq_refl Hin).
Qed.

Lemma index_of_In (r : nat) (l : list nat) :
  In r l -> exists a, index_of r l = Some a.
Proof.
  intros Hin. destruct (index_of r l) as [a|] eqn:E; [exists a; reflexivity|].
  apply index_of_None in E. contradiction.
Qed.

Lemma index_of_nth (l : list nat) (a : nat) :
  NoDup l -> (a < length l)%nat -> index_of (nth a l 0%nat) l = Some a.
Proof.
  intros Hnd. revert a. induction Hnd as [|y l Hy Hl IH]; simpl; intros a Ha;
    [lia|].
  destruct a as [|a].
  - rewrite Nat.eqb_refl. reflexivity.
  - destruct (Nat.eqb_spec (nth a l 0%nat) y) as [E|E].
    + exfalso. apply Hy. rewrite <- E. apply nth_In. lia.
    + rewrite IH by lia. reflexivity.
Qed.

Lemma set_submatrix_Ok (X : matrix) (rows cols : list nat) (V : matrix) :
  nrows V = length rows -> ncols V = length cols ->
  set_submatrix X rows cols V
  = Ok (mkMatrix (nrows X) (ncols X)
          (fun r c => match index_of r rows, index_of c cols with
                      | Some a, Some b => entry V a b
                      | _, _ => entry X r c
                      end)).
Proof.
  intros Hr Hc. unfold set_submatrix.
  rewrite Hr, Hc, !Nat.eqb_refl. reflexivity.
Qed.

Lemma set_submatrix_inv (X : matrix) (rows cols : list nat) (V X' : matrix) :
  set_submatrix X rows cols V = Ok X' ->
  nrows V = length rows /\ ncols V = length cols
  /\ X' = mkMatrix (nrows X) (ncols X)
            (fun r c => match index_of r rows, index_of c cols with
                        | Some a, Some b => entry V a b
                        | _, _ => entry X r c
                        end).
Proof.
  unfold set_submatrix.
  destruct (Nat.eqb_spec (nrows V) (length rows)) as [Hr|Hr];
    [|discriminate].
  destruct (Nat.eqb_spec (ncols V) (length cols)) as [Hc|Hc];
    [|discriminate].
  simpl. intros H. injection H as <-. auto.
Qed.

Lemma set_submatrix_mismatch (X : matrix) (rows cols : list nat) (V : matrix) :
  nrows V <> length rows \/ ncols V <> length cols ->
  set_submatrix X rows cols V = Raise (ValueError "shape mismatch in assignment").
Proof.
  intros H. unfold set_submatrix.
  destruct (Nat.eqb_spec (nrows V) (length rows)) as [Hr|Hr];
    [|reflexivity].
  destruct (Nat.eqb_spec (ncols V) (length cols)) as [Hc|Hc];
    [|reflexivity].
  tauto.
Qed.

(** What a write changes: inside the block the written value, outside it
    nothing. *)
Lemma set_submatrix_inside (X : matrix) (rows cols : list nat) (V X' : matrix)
  (r c : nat) :
  set_submatrix X rows cols V = Ok X' ->
  In r rows -> In c cols ->
  exists a b, index_of r rows = Some a /\ index_of c cols = Some b
              /\ entry X' r c = entry V a b.
Proof.
  intros H Hr Hc. apply set_submatrix_inv in H. destruct H as [_ [_ ->]].
  destruct (index_of_In r rows Hr) as [a Ha].
  destruct (index_of_In c cols Hc) as [b Hb].
  exists a, b. simpl. rewrite Ha, Hb. auto.
Qed.

Lemma set_submatrix_outside (X : matrix) (rows cols : list nat) (V X' : matrix)
  (r c : nat) :
  set_submatrix X rows cols V = Ok X' ->
  ~ (In r rows /\ In c cols) ->
  entry X' r c = entry X r c.
Proof.
  intros H Hn. apply set_submatrix_inv in H. destruct H as [_ [_ ->]]. simpl.
  destruct (index_of r rows) as [a|] eqn:Ea; [|reflexivity].
  destruct (index_of c cols) as [b|] eqn:Eb; [|reflexivity].
  exfalso. apply Hn. split.
  - destruct (in_dec Nat.eq_dec r rows) as [|n]; [assumption|].
    apply index_of_None in n. congruence.
  - destruct (in_dec Nat.eq_dec c cols) as [|n]; [assumption|].
    apply index_of_None in n. congruence.
Qed.

Lemma set_submatrix_shape (X : matrix) (rows cols : list nat) (V X' : matrix) :
  set_submatrix X rows cols V = Ok X' -> shape X' = shape X.
Proof.
  intros H. apply set_submatrix_inv in H. destruct H as [_ [_ ->]].
  reflexivity.
Qed.

(** ** Loops *)

Lemma for_each_app {A S : Type} (l1 l2 : list A) (body : S -> A -> result S)
  (s : S) :
  for_each (l1 ++ l2) body s
  = (s' <- for_each l1 body s ;; for_each l2 body s').
Proof.
  revert s. induction l1 as [|x l1 IH]; intros s; simpl; [reflexivity|].
  destruct (body s x) as [s'|e]; simpl; [apply IH | reflexivity].
Qed.

Lemma for_each_map {A B S : Type} (f : A -> B) (l : list A)
  (body : S -> B -> result S) (s : S) :
  for_each (map f l) body s = for_each l (fun s a => body s (f a)) s.
Proof.
  revert s. induction l as [|x l IH]; intros s; simpl; [reflexivity|].
  destruct (body s (f x)) as [s'|e]; simpl; [apply IH | reflexivity].
Qed.

(** Two nested loops run their body over the pairs, row by row. *)
Lemma for_each_nested {A B S : Type} (l1 : list A) (l2 : list B)
  (body : S -> A * B -> result S) (s : S) :
  for_each l1 (fun s a => for_each l2 (fun s b => body s (a, b)) s) s
  = for_each (list_prod l1 l2) body s.
Proof.
  revert s. induction l1 as [|a l1 IH]; intros s; simpl; [reflexivity|].
  rewrite for_each_app, for_each_map.
  destruct (for_each l2 (fun s b => body s (a, b)) s) as [s'|e]; simpl;
    [apply IH | reflexivity].
Qed.

(** A loop that preserves an invariant establishes it at its end. *)
Lemma for_each_invariant {A S : Type} (I : S -> Prop) (l : list A)
  (body : S -> A -> result S) (s s' : S) :
  (forall s a s', In a l -> I s -> body s a = Ok s' -> I s') ->
  I s -> for_each l body s = Ok s' -> I s'.
Proof.
  revert s. induction l as [|x l IH]; intros s Hstep Hs H; simpl in H.
  - injection H as <-. exact Hs.
  - apply bind_Ok in H. destruct H as [s1 [H1 H2]].
    apply (IH s1); [|eapply Hstep; [left; reflexivity | exact Hs | exact H1]
                    | exact H2].
    intros s0 a s0' Ha. apply Hstep. right. exact Ha.
Qed.

(** ** MNNGraph: symmetrization *)

Lemma blend_entries_comm (gm x y : R) :
  blend_entries gm x y = blend_entries gm y x.
Proof.
  unfold blend_entries. rewrite (Rmin_comm x y), (Rmax_comm x y). reflexivity.
Qed.

Lemma mask_disjoint (labels : list Z) (i j : nat) (r : nat) :
  In r (mask labels (Z.of_nat i)) -> In r (mask labels (Z.of_nat j)) -> i = j.
Proof.
  intros Hi Hj. apply mask_In in Hi, Hj. rewrite Hi in Hj.
  injection Hj as E. lia.
Qed.

Section MatrixGamma.

Context {point : Type}.
Variable g : MNNGraph.t point.
Variable G : matrix.

Let M (i : nat) : list nat := mask (MNNGraph.sample_idx g) (Z.of_nat i).

(** One pass of the loop body rewrites the blocks [(i, j)] and [(j, i)]
    and nothing else. *)
Lemma symmetrize_pair_spec (K : matrix) (i j : nat) :
  exists K1,
    MNNGraph.symmetrize_pair g G K (i, j) = Ok K1
    /\ shape K1 = shape K
    /\ forall r c,
         (In r (M i) -> In c (M j) ->
          entry K1 r c
          = blend_entries (entry G i j) (entry K r c) (entry K c r))
         /\ (In r (M j) -> In c (M i) ->
             entry K1 r c
             = blend_entries (entry G i j) (entry K c r) (entry K r c))
         /\ (~ (In r (M i) /\ In c (M j)) -> ~ (In r (M j) /\ In c (M i)) ->
             entry K1 r c = entry K r c).
Proof.
  unfold MNNGraph.symmetrize_pair. fold (M i) (M j).
  set (S := MNNGraph.blend (entry G i j) (submatrix K (M i) (M j))
              (T (submatrix K (M j) (M i)))).
  assert (HS : forall a b,
             entry S a b
             = blend_entries (entry G i j)
                 (entry K (nth a (M i) 0%nat) (nth b (M j) 0%nat))
                 (entry K (nth b (M j) 0%nat) (nth a (M i) 0%nat))).
  { intros a b. reflexivity. }
  assert (H1 : set_submatrix K (M i) (M j) S = Ok _)
    by (apply set_submatrix_Ok; reflexivity).
  rewrite H1. simpl bind.
  set (K2 := mkMatrix _ _ _) in *.
  assert (HK2in : forall r c, In r (M i) -> In c (M j) ->
             entry K2 r c
             = blend_entries (entry G i j) (entry K r c) (entry K c r)).
  { intros r c Hr Hc.
    destruct (set_submatrix_inside _ _ _ _ _ r c H1 Hr Hc)
      as [a [b [Ha [Hb E]]]].
    rewrite E, HS.
    apply index_of_Some in Ha, Hb. destruct Ha as [-> _], Hb as [-> _].
    reflexivity. }
  assert (HK2out : forall r c, ~ (In r (M i) /\ In c (M j)) ->
             entry K2 r c = entry K r c).
  { intros r c Hn. apply (set_submatrix_outside _ _ _ _ _ r c H1 Hn). }
  destruct (Nat.eqb_spec i j) as [Eij|Nij].
  - subst j. exists K2. split; [reflexivity|]. split; [reflexivity|].
    intros r c. repeat split.
    + apply HK2in.
    + intros Hr Hc. rewrite blend_entries_comm. apply HK2in; assumption.
    + intros Hn _. apply HK2out, Hn.
  - assert (H2 : set_submatrix K2 (M j) (M i) (T S) = Ok _)
      by (apply set_submatrix_Ok; reflexivity).
    rewrite H2. eexists. split; [reflexivity|]. split; [reflexivity|].
    set (K3 := mkMatrix _ _ _) in *.
    intros r c. repeat split.
    + intros Hr Hc.
      rewrite (set_submatrix_outside _ _ _ _ _ r c H2).
      * apply HK2in; assumption.
      * intros [Hr' _]. apply Nij. apply (mask_disjoint _ i j r Hr Hr').
    + intros Hr Hc.
      destruct (set_submatrix_inside _ _ _ _ _ r c H2 Hr Hc)
        as [a [b [Ha [Hb E]]]].
      rewrite E. change (entry (T S) a b) with (entry S b a). rewrite HS.
      apply index_of_Some in Ha, Hb. destruct Ha as [-> _], Hb as [-> _].
      reflexivity.
    + intros Hn1 Hn2.
      rewrite (set_submatrix_outside _ _ _ _ _ r c H2 Hn2).
      apply HK2out, Hn1.
Qed.

Lemma covers_swap (p : nat * nat) (r c : nat) :
  covers g p r c <-> covers g p c r.
Proof. unfold covers. tauto. Qed.

Lemma covers_unique (p q : nat * nat) (r c : nat) :
  (fst p <= snd p)%nat -> (fst q <= snd q)%nat ->
  covers g p r c -> covers g q r c -> p = q.
Proof.
  destruct p as [i j], q as [i' j']. unfold covers. simpl.
  intros Hp Hq [[Hr Hc]|[Hr Hc]] [[Hr' Hc']|[Hr' Hc']];
    pose proof (mask_disjoint _ _ _ _ Hr Hr');
    pose proof (mask_disjoint _ _ _ _ Hc Hc');
    f_equal; lia.
Qed.

Lemma symmetrize_pairs_spec (ps : list (nat * nat)) (K : matrix) :
  NoDup ps -> Forall (fun p => (fst p <= snd p)%nat) ps ->
  exists K',
    for_each ps (MNNGraph.symmetrize_pair g G) K = Ok K'
    /\ shape K' = shape K
    /\ forall r c,
         (forall i j, In (i, j) ps -> In r (M i) -> In c (M j) ->
            entry K' r c
            = blend_entries (entry G i j) (entry K r c) (entry K c r))
         /\ (forall i j, In (i, j) ps -> In r (M j) -> In c (M i) ->
               entry K' r c
               = blend_entries (entry G i j) (entry K c r) (entry K r c))
         /\ ((forall p, In p ps -> ~ covers g p r c) ->
             entry K' r c = entry K r c).
Proof.
  intros Hnd Hle. revert K.
  induction ps as [|[i0 j0] ps IH]; intros K.
  - exists K. split; [reflexivity|]. split; [reflexivity|].
    intros r c. split; [|split]; simpl; try contradiction. reflexivity.
  - inversion Hnd as [|? ? Hnotin Hnd']; subst.
    inversion Hle as [|? ? Hle0 Hle']; subst. simpl in Hle0.
    destruct (symmetrize_pair_spec K i0 j0) as [K1 [E1 [Hsh1 Hstep]]].
    destruct (IH Hnd' Hle' K1) as [K' [E' [Hsh' Hrest]]].
    exists K'. split; [cbn [for_each]; rewrite E1; exact E'|].
    split; [congruence|].
    assert (Hfresh : forall q r c, In q ps -> covers g q r c ->
                                   ~ covers g (i0, j0) r c).
    { intros q r c Hq Hcq Hc0.
      rewrite Forall_forall in Hle'.
      assert (q = (i0, j0))
        by (apply (covers_unique q (i0, j0) r c); auto).
      subst q. contradiction. }
    assert (Hkeep : forall r c, ~ covers g (i0, j0) r c ->
                                entry K1 r c = entry K r c).
    { intros r c Hn. apply (proj2 (proj2 (Hstep r c))).
      - intros H. apply Hn. left. exact H.
      - intros H. apply Hn. right. exact H. }
    assert (Hlate : forall r c, covers g (i0, j0) r c ->
                                entry K' r c = entry K1 r c).
    { intros r c Hc0. apply (proj2 (proj2 (Hrest r c))).
      intros q Hq Hcq. apply (Hfresh q r c Hq Hcq Hc0). }
    intros r c. repeat split.
    + intros i j [E|Hin] Hr Hc.
      * injection E as -> ->.
        rewrite Hlate by (left; auto).
        apply (proj1 (Hstep r c)); assumption.
      * rewrite (proj1 (Hrest r c) i j Hin Hr Hc).
        assert (Hc0 : covers g (i, j) r c) by (left; auto).
        rewrite (Hkeep r c) by (apply (Hfresh _ r c Hin Hc0)).
        rewrite (Hkeep c r); [reflexivity|].
        apply covers_swap in Hc0. apply (Hfresh _ c r Hin Hc0).
    + intros i j [E|Hin] Hr Hc.
      * injection E as -> ->.
        rewrite Hlate by (right; auto).
        apply (proj1 (proj2 (Hstep r c))); assumption.
      * rewrite (proj1 (proj2 (Hrest r c)) i j Hin Hr Hc).
        assert (Hc0 : covers g (i, j) r c) by (right; auto).
        rewrite (Hkeep r c) by (apply (Hfresh _ r c Hin Hc0)).
        rewrite (Hkeep c r); [reflexivity|].
        apply covers_swap in Hc0. apply (Hfresh _ c r Hin Hc0).
    + intros Hn.
      rewrite (proj2 (proj2 (Hrest r c)))
        by (intros q Hq; apply Hn; right; exact Hq).
      apply Hkeep. apply Hn. left. reflexivity.
Qed.

Lemma upper_pairs_In (B i j : nat) :
  In (i, j) (MNNGraph.upper_pairs B) <-> (i <= j < B)%nat.
Proof.
  unfold MNNGraph.upper_pairs. rewrite in_flat_map. split.
  - intros [i' [Hi Hj]]. apply in_seq in Hi. apply in_map_iff in Hj.
    destruct Hj as [j' [E Hj']]. injection E as -> ->.
    apply in_seq in Hj'. lia.
  - intros H. exists i. split; [apply in_seq; lia|].
    apply in_map_iff. exists j. split; [reflexivity | apply in_seq; lia].
Qed.

Lemma upper_pairs_NoDup (B : nat) : NoDup (MNNGraph.upper_pairs B).
Proof.
  unfold MNNGraph.upper_pairs.
  assert (H : forall l, NoDup l ->
            NoDup (flat_map (fun i => map (fun j => (i, j)) (seq i (B - i))) l)).
  { induction 1 as [|i l Hi Hl IH]; simpl; [constructor|].
    apply NoDup_app.
    - apply Finite.Injective_map_NoDup; [|apply seq_NoDup].
      intros a b E. injection E as E. exact E.
    - exact IH.
    - intros p Hp Hq. apply in_map_iff in Hp. destruct Hp as [j [<- _]].
      apply in_flat_map in Hq. destruct Hq as [i' [Hi' Hq]].
      apply in_map_iff in Hq. destruct Hq as [j' [E _]].
      injection E as -> _. contradiction. }
  apply H, seq_NoDup.
Qed.

End MatrixGamma.

Lemma canonical_nth {point : Type} (g : MNNGraph.t point) (i : nat) :
  MNNGraph.canonical g -> (i < length (MNNGraph.samples g))%nat ->
  nth i (MNNGraph.samples g) 0%Z = Z.of_nat i.
Proof.
  intros Hc Hi. rewrite Hc.
  change 0%Z with (Z.of_nat 0). rewrite map_nth, seq_nth; [reflexivity|].
  rewrite Hc, length_map, length_seq in Hi. exact Hi.
Qed.

Lemma canonical_batch {point : Type} (g : MNNGraph.t point) (i : nat) :
  MNNGraph.canonical g -> (i < length (MNNGraph.samples g))%nat ->
  MNNGraph.batch g i = mask (MNNGraph.sample_idx g) (Z.of_nat i).
Proof.
  intros Hc Hi. unfold MNNGraph.batch. rewrite canonical_nth by assumption.
  reflexivity.
Qed.

(** C6: [MNNGraph.build_kernel] symmetrizes the assembled matrix [K] by
    the [gamma] policy.  For a number [gamma] the result is
    [gamma * min(K, K.T) + (1 - gamma) * max(K, K.T)] entry by entry, so
    the minimum for [gamma = 1] and the maximum for [gamma = 0]; for ['+']
    it is [(K + K.T) / 2]; for ['*'] the entry-wise product of [K] and
    [K.T]; for a matrix [gamma], with batches labelled [0 .. B-1], the
    block of batches [i <= j] is
    [gamma[i,j] * min(Kij, Kji.T) + (1 - gamma[i,j]) * max(Kij, Kji.T)]
    and the block [(j, i)] is its transpose. *)
Theorem MNNGraph_build_kernel_symmetrizes :
  forall (point : Type) (cdist : string -> point -> point -> R)
         (g : MNNGraph.t point) (K : matrix),
    MNNGraph.assemble cdist g = Ok K ->
    (forall x, MNNGraph.gamma g = MNNGraph.GammaNum x ->
       exists K',
         MNNGraph.build_kernel cdist g = Ok K' /\ shape K' = shape K
         /\ forall r c,
              entry K' r c
              = x * Rmin (entry K r c) (entry K c r)
                + (1 - x) * Rmax (entry K r c) (entry K c r))
    /\ (MNNGraph.gamma g = MNNGraph.GammaNum 1 ->
        exists K',
          MNNGraph.build_kernel cdist g = Ok K' /\ shape K' = shape K
          /\ forall r c, entry K' r c = Rmin (entry K r c) (entry K c r))
    /\ (MNNGraph.gamma g = MNNGraph.GammaNum 0 ->
        exists K',
          MNNGraph.build_kernel cdist g = Ok K' /\ shape K' = shape K
          /\ forall r c, entry K' r c = Rmax (entry K r c) (entry K c r))
    /\ (MNNGraph.gamma g = MNNGraph.GammaStr "+" ->
        exists K',
          MNNGraph.build_kernel cdist g = Ok K' /\ shape K' = shape K
          /\ forall r c, entry K' r c = (entry K r c + entry K c r) / 2)
    /\ (MNNGraph.gamma g = MNNGraph.GammaStr "*" ->
        exists K',
          MNNGraph.build_kernel cdist g = Ok K' /\ shape K' = shape K
          /\ forall r c, entry K' r c = entry K r c * entry K c r)
    /\ (forall G, MNNGraph.gamma g = MNNGraph.GammaMatrix G ->
          MNNGraph.canonical g ->
          exists K',
            MNNGraph.build_kernel cdist g = Ok K' /\ shape K' = shape K
            /\ forall i j r c,
                 (i <= j < length (MNNGraph.samples g))%nat ->
                 In r (MNNGraph.batch g i) -> In c (MNNGraph.batch g j) ->
                 entry K' r c
                 = entry G i j * Rmin (entry K r c) (entry K c r)
                   + (1 - entry G i j) * Rmax (entry K r c) (entry K c r)
                 /\ entry K' c r = entry K' r c).
Proof.
  intros point cdist g K HK.
  assert (Hb : MNNGraph.build_kernel cdist g = MNNGraph.symmetrize g K).
  { unfold MNNGraph.build_kernel. rewrite HK. reflexivity. }
  rewrite Hb. unfold MNNGraph.symmetrize.
  split; [|split; [|split; [|split; [|split]]]].
  - intros x ->. eexists. split; [reflexivity|]. split; reflexivity.
  - intros ->. eexists. split; [reflexivity|]. split; [reflexivity|].
    intros r c. simpl. lra.
  - intros ->. eexists. split; [reflexivity|]. split; [reflexivity|].
    intros r c. simpl. lra.
  - intros ->. eexists. split; [reflexivity|]. split; reflexivity.
  - intros ->. eexists. split; [reflexivity|]. split; reflexivity.
  - intros G -> Hc.
    destruct (symmetrize_pairs_spec g G
                (MNNGraph.upper_pairs (length (MNNGraph.samples g))) K)
      as [K' [E [Hsh Hent]]].
    + apply upper_pairs_NoDup.
    + apply Forall_forall. intros [i j] Hp. apply upper_pairs_In in Hp.
      simpl. lia.
    + exists K'. split; [exact E|]. split; [exact Hsh|].
      intros i j r c Hij Hr Hc'.
      rewrite canonical_batch in Hr, Hc' by (assumption || lia).
      assert (Hin : In (i, j)
                      (MNNGraph.upper_pairs (length (MNNGraph.samples g))))
        by (apply upper_pairs_In; lia).
      rewrite (proj1 (Hent r c) i j Hin Hr Hc').
      rewrite (proj1 (proj2 (Hent c r)) i j Hin Hc' Hr).
      split; reflexivity.
Qed.

(** *** Two batches of two samples *)

Lemma two_batches_assembled :
  exists K, MNNGraph.assemble line_dist two_batches = Ok K.
Proof. eexists. reflexivity. Qed.

Lemma MNNGraph_build_kernel_symmetrizes_witness :
  exists K K',
    MNNGraph.assemble line_dist two_batches = Ok K
    /\ MNNGraph.build_kernel line_dist two_batches = Ok K'
    /\ forall r c,
         entry K' r c
         = 99 / 100 * Rmin (entry K r c) (entry K c r)
           + (1 - 99 / 100) * Rmax (entry K r c) (entry K c r).
Proof.
  destruct two_batches_assembled as [K HK]. exists K.
  destruct (MNNGraph_build_kernel_symmetrizes Z line_dist two_batches K HK)
    as [Hnum _].
  destruct (Hnum (99 / 100) eq_refl) as [K' [E [_ Hent]]].
  exists K'. auto.
Defined.

(** C5 at the labels [1, 1, 2, 2]: the first block, of batch 0 against
    itself, is 2 by 2, but the mask [sample_idx == 0] selects no row, so
    the write is refused and no matrix is assembled. *)
Theorem MNNGraph_assemble_labels_1_2 :
  MNNGraph.samples batches_1_2 = [1; 2]%Z
  /\ MNNGraph.batch batches_1_2 0 = [0; 1]%nat
  /\ mask (MNNGraph.sample_idx batches_1_2) 0%Z = []
  /\ MNNGraph.assemble line_dist batches_1_2
     = Raise (ValueError "shape mismatch in assignment")
  /\ MNNGraph.build_kernel line_dist batches_1_2
     = Raise (ValueError "shape mismatch in assignment").
Proof. repeat split; reflexivity. Qed.

(** ** MNNGraph: assembling the blocks *)

Lemma enumerate_fst {A : Type} (l : list A) :
  map fst (enumerate l) = seq 0 (length l).
Proof.
  unfold enumerate. generalize 0%nat.
  induction l as [|x l IH]; intros k; simpl; [reflexivity|].
  rewrite IH. reflexivity.
Qed.

Lemma enumerate_In {A : Type} (l : list A) (i : nat) (x : A) :
  In (i, x) (enumerate l) <-> nth_error l i = Some x.
Proof.
  unfold enumerate.
  assert (H : forall k, In (i, x) (combine (seq k (length l)) l)
                        <-> (k <= i)%nat /\ nth_error l (i - k) = Some x).
  { induction l as [|y l IH]; intros k; simpl.
    - split; [contradiction|]. intros [_ H]. destruct (i - k)%nat; discriminate.
    - rewrite IH. split.
      + intros [E|[Hle Hn]].
        * injection E as <- <-. rewrite Nat.sub_diag. auto.
        * split; [lia|]. replace (i - k)%nat with (S (i - S k)) by lia.
          exact Hn.
      + intros [Hle Hn]. destruct (Nat.eq_dec k i) as [->|Hne].
        * rewrite Nat.sub_diag in Hn. simpl in Hn. injection Hn as <-.
          left. reflexivity.
        * right. split; [lia|].
          replace (i - k)%nat with (S (i - S k)) in Hn by lia. exact Hn. }
  rewrite H, Nat.sub_0_r. intuition lia.
Qed.

Lemma enumerate_nth_error {A : Type} (l : list A) (i : nat) :
  nth_error (enumerate l) i = option_map (pair i) (nth_error l i).
Proof.
  unfold enumerate.
  assert (H : forall k, nth_error (combine (seq k (length l)) l) i
                        = option_map (pair (k + i)%nat) (nth_error l i)).
  { revert i. induction l as [|y l IH]; intros i k; simpl.
    - destruct i; reflexivity.
    - destruct i as [|i]; simpl; [rewrite Nat.add_0_r; reflexivity|].
      rewrite IH. replace (S k + i)%nat with (k + S i)%nat by lia.
      reflexivity. }
  apply (H 0%nat).
Qed.

Lemma NoDup_index_pairs {A B : Type} (l : list (nat * A)) (l' : list (nat * B)) :
  NoDup (map fst l) -> NoDup (map fst l') ->
  NoDup (map (fun p : (nat * A) * (nat * B) => (fst (fst p), fst (snd p)))
             (list_prod l l')).
Proof.
  intros Hl Hl'. induction l as [|x l IH]; simpl; [constructor|].
  inversion Hl as [|? ? Hx Hrest]; subst.
  rewrite map_app, map_map. simpl. apply NoDup_app.
  - rewrite <- (map_map fst (fun j => (fst x, j))).
    apply Finite.Injective_map_NoDup; [|exact Hl'].
    intros a b E. injection E as E. exact E.
  - apply IH, Hrest.
  - intros q Hq Hq'. apply in_map_iff in Hq. destruct Hq as [y [<- _]].
    apply in_map_iff in Hq'. destruct Hq' as [[x' y'] [E Hin]].
    simpl in E. injection E as E _.
    apply in_prod_iff in Hin. destruct Hin as [Hin _].
    apply Hx. rewrite <- E. apply in_map. exact Hin.
Qed.

Section Assembly.

Context {point : Type}.
Variable cdist : string -> point -> point -> R.
Variable g : MNNGraph.t point.

Let M (i : nat) : list nat := mask (MNNGraph.sample_idx g) (Z.of_nat i).

Lemma assemble_as_pairs :
  MNNGraph.assemble cdist g
  = for_each (list_prod (enumerate (MNNGraph.subgraphs g))
                        (enumerate (MNNGraph.subgraphs g)))
             (assemble_body cdist g)
             (zeros (length (Base.data_nu (MNNGraph.base g)))
                    (length (Base.data_nu (MNNGraph.base g)))).
Proof.
  exact (for_each_nested (enumerate (MNNGraph.subgraphs g))
           (enumerate (MNNGraph.subgraphs g)) (assemble_body cdist g) _).
Qed.

Lemma assemble_pairs_spec
  (ps : list ((nat * kNNGraph.t point) * (nat * kNNGraph.t point)))
  (K0 K : matrix) :
  NoDup (map (fun p : (nat * kNNGraph.t point) * (nat * kNNGraph.t point) =>
                (fst (fst p), fst (snd p))) ps) ->
  for_each ps (assemble_body cdist g) K0 = Ok K ->
  shape K = shape K0
  /\ forall r c,
       (forall p, In p ps ->
          In r (M (fst (fst p))) -> In c (M (fst (snd p))) ->
          exists V a b,
            MNNGraph.block cdist g (fst p) (snd p) = Ok V
            /\ index_of r (M (fst (fst p))) = Some a
            /\ index_of c (M (fst (snd p))) = Some b
            /\ entry K r c = entry V a b)
       /\ ((forall p, In p ps ->
              ~ (In r (M (fst (fst p))) /\ In c (M (fst (snd p))))) ->
           entry K r c = entry K0 r c).
Proof.
  revert K0. induction ps as [|p0 ps IH]; intros K0 Hnd H.
  - simpl in H. injection H as <-. split; [reflexivity|].
    intros r c. split; [simpl; contradiction | reflexivity].
  - cbn [for_each] in H. apply bind_Ok in H. destruct H as [K1 [H1 H]].
    unfold assemble_body in H1. apply bind_Ok in H1.
    destruct H1 as [V0 [HV0 Hset]].
    simpl in Hnd. inversion Hnd as [|? ? Hfresh Hnd']; subst.
    destruct (IH K1 Hnd' H) as [Hsh Hrest].
    split; [rewrite Hsh; eapply set_submatrix_shape; exact Hset|].
    assert (Hlater : forall r c, In r (M (fst (fst p0))) ->
                       In c (M (fst (snd p0))) ->
                       entry K r c = entry K1 r c).
    { intros r c Hr Hc. apply (proj2 (Hrest r c)).
      intros q Hq [Hr' Hc']. apply Hfresh.
      apply in_map_iff. exists q. split; [|exact Hq].
      f_equal; symmetry.
      - apply (mask_disjoint _ _ _ r Hr Hr').
      - apply (mask_disjoint _ _ _ c Hc Hc'). }
    intros r c. split.
    + intros p [<-|Hin] Hr Hc.
      * destruct (set_submatrix_inside _ _ _ _ _ r c Hset Hr Hc)
          as [a [b [Ha [Hb E]]]].
        exists V0, a, b. rewrite Hlater by assumption. auto.
      * apply (proj1 (Hrest r c) p Hin Hr Hc).
    + intros Hn. rewrite (proj2 (Hrest r c)).
      * apply (set_submatrix_outside _ _ _ _ _ r c Hset).
        apply Hn. left. reflexivity.
      * intros q Hq. apply Hn. right. exact Hq.
Qed.

Lemma subgraphs_In (i : nat) :
  (i < length (MNNGraph.samples g))%nat ->
  In (i, subgraph g i) (enumerate (MNNGraph.subgraphs g)).
Proof.
  intros Hi. apply enumerate_In. unfold MNNGraph.subgraphs.
  rewrite nth_error_map.
  assert (E : nth_error (enumerate (MNNGraph.samples g)) i
              = Some (i, nth i (MNNGraph.samples g) 0%Z)).
  { rewrite enumerate_nth_error.
    rewrite (nth_error_nth' _ 0%Z Hi). reflexivity. }
  rewrite E. reflexivity.
Qed.

(** With batches labelled [0 .. B-1] the assembled matrix holds, in the
    rows of batch [i] and the columns of batch [j], the block of that
    pair of subgraphs. *)
Lemma assemble_blocks (K : matrix) :
  MNNGraph.canonical g ->
  MNNGraph.assemble cdist g = Ok K ->
  shape K = (length (Base.data_nu (MNNGraph.base g)),
             length (Base.data_nu (MNNGraph.base g)))
  /\ forall i j r c,
       (i < length (MNNGraph.samples g))%nat ->
       (j < length (MNNGraph.samples g))%nat ->
       In r (MNNGraph.batch g i) -> In c (MNNGraph.batch g j) ->
       exists V a b,
         MNNGraph.block cdist g (i, subgraph g i) (j, subgraph g j) = Ok V
         /\ index_of r (MNNGraph.batch g i) = Some a
         /\ index_of c (MNNGraph.batch g j) = Some b
         /\ entry K r c = entry V a b.
Proof.
  intros Hcan H. rewrite assemble_as_pairs in H.
  apply assemble_pairs_spec in H.
  - destruct H as [Hsh Hent]. split; [exact Hsh|].
    intros i j r c Hi Hj Hr Hc.
    rewrite (canonical_batch g i Hcan Hi) in *.
    rewrite (canonical_batch g j Hcan Hj) in *.
    apply (proj1 (Hent r c) ((i, subgraph g i), (j, subgraph g j)));
      [|assumption|assumption].
    apply in_prod_iff. split; apply subgraphs_In; assumption.
  - apply NoDup_index_pairs; rewrite enumerate_fst; apply seq_NoDup.
Qed.

End Assembly.

(** ** kNNGraph: the alpha-decay kernel *)

Section DecayKernel.

Context {point : Type}.
Variable cdist : string -> point -> point -> R.
Variable g : kNNGraph.t point.

Let n : nat := length (Base.data_nu (kNNGraph.base g)).

Lemma decay_kernel_to_data_inv (dec : Z) (Y : list point) (knn : nat)
  (A : matrix) :
  kNNGraph.decay_kernel_to_data cdist g dec Y knn = Ok A ->
  exists rows0 bandwidth st,
    Neighbors.kneighbors cdist (kNNGraph.knn_tree g) Y (Nat.min (knn * 20) n)
    = Ok rows0
    /\ kNNGraph.column rows0 (Nat.min (knn * 20) n) (Z.of_nat knn - 1)
       = Ok bandwidth
    /\ dec <> 0%Z
    /\ kNNGraph.widen cdist (S n) (kNNGraph.knn_tree g) Y
         (radii g dec bandwidth) (Nat.min (knn * 20) n) rows0
         (kNNGraph.inside_radius rows0 (radii g dec bandwidth)) = Ok st
    /\ A = Neighbors.csr_matrix
             (kNNGraph.affinities dec (kNNGraph.thresh g)
                (after_radius_search cdist g dec Y knn bandwidth st) bandwidth)
             (length Y) n.
Proof.
  unfold kNNGraph.decay_kernel_to_data. fold n. intros H.
  apply bind_Ok in H. destruct H as [rows0 [Hrows H]].
  apply bind_Ok in H. destruct H as [bw [Hbw H]].
  destruct (Z.eqb_spec dec 0) as [|Hdec]; [discriminate|].
  apply bind_Ok in H. destruct H as [st [Hst H]].
  exists rows0, bw, st. repeat split; try assumption.
  destruct st as [[s rows] upd]. injection H as <-. reflexivity.
Qed.

Lemma build_kernel_to_data_shape (Y : list point) (k : option nat)
  (A : matrix) :
  kNNGraph.build_kernel_to_data cdist g Y k = Ok A ->
  nrows A = length Y /\ ncols A = n.
Proof.
  unfold kNNGraph.build_kernel_to_data.
  assert (Hbin : forall k', Neighbors.kneighbors_graph cdist
                              (kNNGraph.knn_tree g) Y k' = Ok A ->
                            nrows A = length Y /\ ncols A = n).
  { intros k' H. unfold Neighbors.kneighbors_graph in H.
    apply bind_Ok in H. destruct H as [nb [_ H]]. injection H as <-.
    split; reflexivity. }
  destruct (kNNGraph.decay g) as [dec|]; [|apply Hbin].
  destruct (Req_dec_T (kNNGraph.thresh g) 1); [apply Hbin|].
  intros H. apply decay_kernel_to_data_inv in H.
  destruct H as [rows0 [bw [st [_ [_ [_ [_ ->]]]]]]]. split; reflexivity.
Qed.

Lemma build_kernel_inv (K : matrix) :
  kNNGraph.build_kernel cdist g = Ok K ->
  exists A,
    kNNGraph.build_kernel_to_data cdist g (Base.data_nu (kNNGraph.base g)) None
    = Ok A
    /\ K = mdiv (madd A (T A)) 2.
Proof.
  unfold kNNGraph.build_kernel, kNNGraph.build_kernel_to_data.
  intros H. apply bind_Ok in H. destruct H as [A [HA H]].
  injection H as <-. exists A. split; [|reflexivity].
  destruct (kNNGraph.decay g) as [dec|]; [|exact HA].
  destruct (Req_dec_T (kNNGraph.thresh g) 1); exact HA.
Qed.

Lemma kNNGraph_symmetric (K : matrix) :
  kNNGraph.build_kernel cdist g = Ok K -> symmetric K.
Proof.
  intros H. apply build_kernel_inv in H. destruct H as [A [HA ->]].
  apply symmetric_average. apply build_kernel_to_data_shape in HA.
  destruct HA as [-> ->]. reflexivity.
Qed.

End DecayKernel.

(** ** Symmetry of the kernels *)

Lemma opt_in_some (o : option string) (l : list string) :
  TraditionalGraph.opt_in o l = true -> o <> None.
Proof. destruct o; simpl; [discriminate | discriminate]. Qed.

Lemma TraditionalGraph_presymmetric_inv (pdist : string -> matrix -> matrix)
  (g : TraditionalGraph.t) (K : matrix) :
  TraditionalGraph.build_kernel pdist g = Ok K ->
  exists K0,
    K = zero_below (TraditionalGraph.thresh g) (mdiv (madd K0 (T K0)) 2)
    /\ ((TraditionalGraph.precomputed g = Some "affinity"
         /\ K0 = Base.data_nu (TraditionalGraph.base g))
        \/ (TraditionalGraph.precomputed g = Some "adjacency"
            /\ K0 = TraditionalGraph.set_diagonal
                      (Base.data_nu (TraditionalGraph.base g)) 1)
        \/ (exists pdx epsilon dec,
              (TraditionalGraph.precomputed g = Some "distance"
               /\ pdx = Base.data_nu (TraditionalGraph.base g)
               \/ TraditionalGraph.precomputed g = None
                  /\ pdx = pdist (TraditionalGraph.distance g)
                             (Base.data_nu (TraditionalGraph.base g)))
              /\ TraditionalGraph.knn_max (TraditionalGraph.knn g) pdx
                 = Ok epsilon
              /\ TraditionalGraph.decay g = Some dec
              /\ K0 = TraditionalGraph.gaussian dec pdx epsilon)).
Proof.
  unfold TraditionalGraph.build_kernel. intros H.
  apply bind_Ok in H. destruct H as [K0 [H0 H]]. injection H as <-.
  exists K0. split; [reflexivity|].
  assert (Htag : forall s,
             TraditionalGraph.opt_in (TraditionalGraph.precomputed g) [s] = true
             -> TraditionalGraph.precomputed g = Some s).
  { intros s. destruct (TraditionalGraph.precomputed g) as [p|]; simpl;
      [|discriminate].
    destruct (String.eqb_spec p s); [intros; congruence | discriminate]. }
  revert H0.
  destruct (TraditionalGraph.opt_in _ ["affinity"]) eqn:Ea.
  { intros H0. left. injection H0 as <-. auto. }
  destruct (TraditionalGraph.opt_in _ ["adjacency"]) eqn:Ej.
  { intros H0. right. left. injection H0 as <-. auto. }
  intros H0. right. right.
  apply bind_Ok in H0. destruct H0 as [pdx [Hpdx H0]].
  apply bind_Ok in H0. destruct H0 as [eps [Heps H0]].
  destruct (TraditionalGraph.decay g) as [dec|]; [|discriminate].
  injection H0 as <-. exists pdx, eps, dec.
  split; [|auto].
  revert Hpdx.
  destruct (TraditionalGraph.opt_in _ ["distance"]) eqn:Ed; intros Hpdx.
  - left. injection Hpdx as <-. auto.
  - right. destruct (TraditionalGraph.precomputed g); [discriminate|].
    injection Hpdx as <-. auto.
Qed.

Lemma TraditionalGraph_symmetric (pdist : string -> matrix -> matrix)
  (g : TraditionalGraph.t) (K : matrix) :
  (TraditionalGraph.precomputed g <> None ->
   nrows (Base.data_nu (TraditionalGraph.base g))
   = ncols (Base.data_nu (TraditionalGraph.base g))) ->
  (nrows (pdist (TraditionalGraph.distance g)
                (Base.data_nu (TraditionalGraph.base g)))
   = ncols (pdist (TraditionalGraph.distance g)
                  (Base.data_nu (TraditionalGraph.base g)))) ->
  TraditionalGraph.build_kernel pdist g = Ok K -> symmetric K.
Proof.
  intros Hpre Hraw H. apply TraditionalGraph_presymmetric_inv in H.
  destruct H as [K0 [-> Hcase]].
  apply symmetric_zero_below, symmetric_average.
  destruct Hcase as [[Hp ->]|[[Hp ->]|[pdx [eps [dec [Hpdx [_ [_ ->]]]]]]]].
  - apply Hpre. congruence.
  - simpl. apply Hpre. congruence.
  - simpl. destruct Hpdx as [[Hp ->]|[Hp ->]]; [apply Hpre; congruence|].
    exact Hraw.
Qed.

Section MNNSymmetry.

Context {point : Type}.
Variable cdist : string -> point -> point -> R.
Variable g : MNNGraph.t point.

Lemma assemble_shape (K : matrix) :
  MNNGraph.assemble cdist g = Ok K ->
  shape K = (length (Base.data_nu (MNNGraph.base g)),
             length (Base.data_nu (MNNGraph.base g))).
Proof.
  intros H. rewrite assemble_as_pairs in H.
  revert H.
  apply (for_each_invariant
           (fun X => shape X = (length (Base.data_nu (MNNGraph.base g)),
                                length (Base.data_nu (MNNGraph.base g)))));
    [|reflexivity].
  intros X p X' _ HX HX'. unfold assemble_body in HX'.
  apply bind_Ok in HX'. destruct HX' as [V [_ Hset]].
  rewrite <- HX. eapply set_submatrix_shape. exact Hset.
Qed.

Lemma init_checks_inv :
  MNNGraph.__init__checks g = Ok tt ->
  length (MNNGraph.sample_idx g) = length (Base.data_nu (MNNGraph.base g))
  /\ forall s, MNNGraph.gamma g = MNNGraph.GammaStr s -> s = "+" \/ s = "*".
Proof.
  unfold MNNGraph.__init__checks.
  destruct (Nat.eqb_spec (length (MNNGraph.sample_idx g))
                         (length (Base.data_nu (MNNGraph.base g))))
    as [Hlen|Hlen]; simpl; [|discriminate].
  destruct (length (MNNGraph.samples g) =? 1)%nat; [discriminate|].
  intros H. split; [exact Hlen|]. intros s Hs. rewrite Hs in H. simpl in H.
  destruct (String.eqb_spec s "+"); [auto|].
  destruct (String.eqb_spec s "*"); [auto|]. discriminate.
Qed.

Lemma canonical_cover (r : nat) :
  MNNGraph.canonical g -> (r < length (MNNGraph.sample_idx g))%nat ->
  exists i, (i < length (MNNGraph.samples g))%nat
            /\ In r (mask (MNNGraph.sample_idx g) (Z.of_nat i)).
Proof.
  intros Hcan Hr.
  destruct (nth_error (MNNGraph.sample_idx g) r) as [v|] eqn:E;
    [|apply nth_error_None in E; lia].
  assert (Hin : In v (MNNGraph.samples g)).
  { apply np_unique_In. eapply nth_error_In. exact E. }
  rewrite Hcan in Hin. apply in_map_iff in Hin. destruct Hin as [i [<- Hi]].
  apply in_seq in Hi. exists i. split; [lia|]. apply mask_In. exact E.
Qed.

Lemma MNNGraph_symmetric (K : matrix) :
  MNNGraph.__init__checks g = Ok tt ->
  MNNGraph.canonical g ->
  MNNGraph.build_kernel cdist g = Ok K -> symmetric K.
Proof.
  intros Hchk Hcan H. unfold MNNGraph.build_kernel in H.
  apply bind_Ok in H. destruct H as [K0 [HK0 H]].
  pose proof (assemble_shape K0 HK0) as Hsh0. unfold shape in Hsh0.
  injection Hsh0 as Hr0 Hc0.
  destruct (init_checks_inv Hchk) as [Hlen Hstr].
  unfold MNNGraph.symmetrize in H.
  destruct (MNNGraph.gamma g) as [s|x|G] eqn:Eg.
  - destruct (Hstr s eq_refl) as [-> | ->]; simpl in H; injection H as <-.
    + apply symmetric_average. congruence.
    + split; simpl; [congruence|]. intros i j _ _. apply Rmult_comm.
  - injection H as <-. split; simpl; [congruence|]. intros i j _ _.
    rewrite (Rmin_comm (entry K0 i j)), (Rmax_comm (entry K0 i j)).
    reflexivity.
  - destruct (symmetrize_pairs_spec g G
                (MNNGraph.upper_pairs (length (MNNGraph.samples g))) K0)
      as [K' [E [Hsh Hent]]].
    + apply upper_pairs_NoDup.
    + apply Forall_forall. intros [i j] Hp. apply upper_pairs_In in Hp.
      simpl. lia.
    + rewrite E in H. injection H as <-.
      unfold shape in Hsh. injection Hsh as Hr Hc.
      split; [congruence|].
      intros r c Hrn Hcn.
      destruct (canonical_cover r Hcan) as [i [Hi Hri]]; [lia|].
      destruct (canonical_cover c Hcan) as [j [Hj Hcj]]; [lia|].
      destruct (Nat.le_gt_cases i j) as [Hij|Hji].
      * assert (Hin : In (i, j)
                  (MNNGraph.upper_pairs (length (MNNGraph.samples g))))
          by (apply upper_pairs_In; lia).
        rewrite (proj1 (Hent r c) i j Hin Hri Hcj).
        rewrite (proj1 (proj2 (Hent c r)) i j Hin Hcj Hri).
        reflexivity.
      * assert (Hin : In (j, i)
                  (MNNGraph.upper_pairs (length (MNNGraph.samples g))))
          by (apply upper_pairs_In; lia).
        rewrite (proj1 (proj2 (Hent r c)) j i Hin Hri Hcj).
        rewrite (proj1 (Hent c r) j i Hin Hcj Hri).
        reflexivity.
Qed.

End MNNSymmetry.

(** C1: the matrix [build_kernel] returns is symmetric, for each of the
    three builders.  For a [TraditionalGraph] the data of a precomputed
    graph is square (the constructor refuses any other) and so is the
    matrix of pairwise distances; for an [MNNGraph] the checks of the
    constructor have passed and the batches are labelled [0 .. B-1]. *)
Theorem build_kernel_symmetric :
  (forall (point : Type) (cdist : string -> point -> point -> R)
          (g : kNNGraph.t point) (K : matrix),
      kNNGraph.build_kernel cdist g = Ok K -> symmetric K)
  /\ (forall (pdist : string -> matrix -> matrix) (g : TraditionalGraph.t)
             (K : matrix),
        (TraditionalGraph.precomputed g <> None ->
         nrows (Base.data_nu (TraditionalGraph.base g))
         = ncols (Base.data_nu (TraditionalGraph.base g))) ->
        (nrows (pdist (TraditionalGraph.distance g)
                      (Base.data_nu (TraditionalGraph.base g)))
         = ncols (pdist (TraditionalGraph.distance g)
                        (Base.data_nu (TraditionalGraph.base g)))) ->
        TraditionalGraph.build_kernel pdist g = Ok K -> symmetric K)
  /\ (forall (point : Type) (cdist : string -> point -> point -> R)
             (g : MNNGraph.t point) (K : matrix),
        MNNGraph.__init__checks g = Ok tt ->
        MNNGraph.canonical g ->
        MNNGraph.build_kernel cdist g = Ok K -> symmetric K).
Proof.
  split; [|split].
  - intros point cdist g K. apply kNNGraph_symmetric.
  - intros pdist g K. apply TraditionalGraph_symmetric.
  - intros point cdist g K. apply MNNGraph_symmetric.
Qed.

(** The three builders on the three points 0, 1, 3, on the precomputed
    affinity 2, and on the four points in two batches: each returns a
    matrix, and the matrix is symmetric. *)
Lemma build_kernel_symmetric_witness :
  (exists K, kNNGraph.build_kernel line_dist three_points = Ok K
             /\ symmetric K)
  /\ (exists K,
         TraditionalGraph.build_kernel (fun _ X => X) affinity_two = Ok K
         /\ symmetric K)
  /\ (exists K, MNNGraph.build_kernel line_dist two_batches = Ok K
                /\ symmetric K).
Proof.
  destruct build_kernel_symmetric as [Hknn [Htrad Hmnn]].
  assert (E3 : exists K, kNNGraph.build_kernel line_dist three_points = Ok K)
    by (eexists; reflexivity).
  assert (E1 : exists K,
             TraditionalGraph.build_kernel (fun _ X => X) affinity_two = Ok K)
    by (eexists; reflexivity).
  assert (E4 : exists K, MNNGraph.build_kernel line_dist two_batches = Ok K)
    by (eexists; reflexivity).
  destruct E3 as [K3 H3]. destruct E1 as [K1 H1]. destruct E4 as [K4 H4].
  split; [|split].
  - exists K3. split; [exact H3|]. exact (Hknn Z line_dist three_points K3 H3).
  - exists K1. split; [exact H1|].
    apply (Htrad (fun _ X => X) affinity_two K1); [reflexivity..|exact H1].
  - exists K4. split; [exact H4|].
    apply (Hmnn Z line_dist two_batches K4); [|reflexivity|exact H4].
    unfold MNNGraph.__init__checks. simpl.
    destruct (Rlt_dec (99 / 100) 0); [lra|].
    destruct (Rlt_dec 1 (99 / 100)); [lra|]. reflexivity.
Defined.

(** ** Rows replaced during the search *)

Lemma set_nth_length {A : Type} (i : nat) (v : A) (l : list A) :
  length (set_nth i v l) = length l.
Proof.
  revert i. induction l as [|x l IH]; intros [|i]; simpl; auto.
Qed.

Lemma set_nth_nth_error {A : Type} (i j : nat) (v x : A) (l : list A) :
  nth_error (set_nth i v l) j = Some x ->
  (j = i /\ x = v) \/ nth_error l j = Some x.
Proof.
  revert i j. induction l as [|y l IH]; intros [|i] [|j]; simpl; intros H;
    try discriminate; auto.
  - injection H as <-. auto.
  - destruct (IH i j H) as [[-> ->]|H']; auto.
Qed.

Lemma replace_rows_length (rows : list (list neighbor)) (idx : list nat)
  (new : list (list neighbor)) :
  length (kNNGraph.replace_rows rows idx new) = length rows.
Proof.
  unfold kNNGraph.replace_rows.
  generalize (combine idx new). intros l. revert rows.
  induction l as [|p l IH]; intros rows; simpl; [reflexivity|].
  rewrite IH. apply set_nth_length.
Qed.

Lemma replace_rows_nth_error (rows : list (list neighbor)) (idx : list nat)
  (new : list (list neighbor)) (i : nat) (row : list neighbor) :
  nth_error (kNNGraph.replace_rows rows idx new) i = Some row ->
  In (i, row) (combine idx new) \/ nth_error rows i = Some row.
Proof.
  unfold kNNGraph.replace_rows.
  generalize (combine idx new). intros l. revert rows.
  induction l as [|p l IH]; intros rows; simpl; [auto|].
  intros H. destruct (IH _ H) as [Hin|Hn]; [auto|].
  apply set_nth_nth_error in Hn. destruct Hn as [[-> ->]|Hn]; [|auto].
  left. left. destruct p; reflexivity.
Qed.

Lemma take_rows_searched {A B : Type} (f : A -> B) (Y : list A)
  (idx : list nat) (i : nat) (v : B) :
  Forall (fun k => (k < length Y)%nat) idx ->
  In (i, v) (combine idx (map f (kNNGraph.take_rows Y idx))) ->
  exists y, nth_error Y i = Some y /\ v = f y.
Proof.
  induction 1 as [|k idx Hk _ IH]; simpl; [contradiction|].
  destruct (nth_error Y k) as [y|] eqn:E;
    [|apply nth_error_None in E; lia].
  simpl. intros [Hin|Hin].
  - injection Hin as <- <-. exists y. auto.
  - apply IH, Hin.
Qed.

Lemma inside_radius_bound (rows : list (list neighbor)) (radius : list R) :
  Forall (fun k => (k < length rows)%nat)
         (kNNGraph.inside_radius rows radius).
Proof.
  apply Forall_forall. intros k Hk. unfold kNNGraph.inside_radius, np_where in Hk.
  apply where_from_In in Hk. destruct Hk as [_ [x [Hx _]]].
  rewrite Nat.sub_0_r in Hx.
  assert (Hlt : (k < length (combine rows radius))%nat)
    by (apply nth_error_Some; congruence).
  rewrite length_combine in Hlt. lia.
Qed.

(** ** The widening loop *)

Section Widen.

Context {point : Type}.
Variable cdist : string -> point -> point -> R.
Variable tree : Neighbors.NearestNeighbors point.
Variable Y : list point.
Variable radius : list R.

(** A property of the row found for each query point, kept by every
    k-neighbour search of at least [kmin] neighbours. *)
Variable Q : nat -> list neighbor -> Prop.
Variable kmin : nat.
Hypothesis Q_kneighbors :
  forall i y k, nth_error Y i = Some y -> (kmin <= k)%nat ->
    Q i (firstn k (Neighbors.sort_by_dist (Neighbors.all_distances cdist tree y))).

Lemma kneighbors_rows_ok (k : nat) (rows : list (list neighbor)) :
  (kmin <= k)%nat ->
  Neighbors.kneighbors cdist tree Y k = Ok rows -> rows_ok Y Q rows.
Proof.
  intros Hk H. apply kneighbors_inv in H. destruct H as [_ ->].
  split; [apply length_map|].
  intros i row Hrow. rewrite nth_error_map in Hrow.
  destruct (nth_error Y i) as [y|] eqn:E; [|discriminate].
  injection Hrow as <-. apply (Q_kneighbors i y k E Hk).
Qed.

Lemma replace_rows_ok (rows : list (list neighbor)) (idx : list nat)
  (f : point -> list neighbor) :
  rows_ok Y Q rows ->
  Forall (fun k => (k < length Y)%nat) idx ->
  (forall i y, In i idx -> nth_error Y i = Some y -> Q i (f y)) ->
  rows_ok Y Q (kNNGraph.replace_rows rows idx (map f (kNNGraph.take_rows Y idx))).
Proof.
  intros [Hlen Hrows] Hidx Hf. split.
  - rewrite replace_rows_length. exact Hlen.
  - intros i row Hrow. apply replace_rows_nth_error in Hrow.
    destruct Hrow as [Hin|Hold]; [|apply Hrows, Hold].
    pose proof (in_combine_l _ _ _ _ Hin) as Hi.
    destruct (take_rows_searched f Y idx i row Hidx Hin) as [y [Hy ->]].
    apply (Hf i y Hi Hy).
Qed.

Lemma widen_rows_ok (fuel : nat) (s : nat) (rows : list (list neighbor))
  (upd : list nat) (st : nat * list (list neighbor) * list nat) :
  (kmin <= s)%nat -> (kmin <= length (Neighbors.fit_X tree))%nat ->
  rows_ok Y Q rows ->
  Forall (fun k => (k < length Y)%nat) upd ->
  kNNGraph.widen cdist fuel tree Y radius s rows upd = Ok st ->
  rows_ok Y Q (snd (fst st))
  /\ Forall (fun k => (k < length Y)%nat) (snd st).
Proof.
  revert s rows upd. induction fuel as [|fuel IH]; intros s rows upd Hs Hn Hok Hupd;
    simpl.
  - destruct (_ && _)%bool; [discriminate|].
    intros H. injection H as <-. simpl. auto.
  - destruct (_ && _)%bool.
    + intros H. apply bind_Ok in H. destruct H as [new [Hnew H]].
      apply kneighbors_inv in Hnew. destruct Hnew as [_ ->].
      assert (Hs' : (kmin <= Nat.min (s * 20) (length (Neighbors.fit_X tree)))%nat)
        by lia.
      assert (Hok' : rows_ok Y Q
                 (kNNGraph.replace_rows rows upd
                    (map (fun y => firstn (Nat.min (s * 20)
                                            (length (Neighbors.fit_X tree)))
                                     (Neighbors.sort_by_dist
                                        (Neighbors.all_distances cdist tree y)))
                         (kNNGraph.take_rows Y upd)))).
      { apply replace_rows_ok; [exact Hok | exact Hupd|].
        intros i y _ Hy. apply Q_kneighbors; assumption. }
      eapply IH; [exact Hs' | exact Hn | exact Hok' | | exact H].
      destruct Hok' as [Hlen' _]. rewrite <- Hlen'.
      apply inside_radius_bound.
    + intros H. injection H as <-. simpl. auto.
Qed.

(** With a search that starts at one neighbour or more, [n + 1] rounds
    are enough: the loop ends by its own test. *)
Lemma widen_terminates (fuel : nat) (s : nat) (rows : list (list neighbor))
  (upd : list nat) :
  (1 <= s)%nat -> (length (Neighbors.fit_X tree) < fuel + s)%nat ->
  exists st, kNNGraph.widen cdist fuel tree Y radius s rows upd = Ok st.
Proof.
  revert s rows upd. induction fuel as [|fuel IH]; intros s rows upd Hs Hfuel;
    cbn [kNNGraph.widen].
  - destruct (Nat.ltb_spec (2 * s) (length (Neighbors.fit_X tree)));
      [lia|]. rewrite andb_false_r. eexists. reflexivity.
  - destruct ((length Y / 10 <? length upd)%nat
              && (2 * s <? length (Neighbors.fit_X tree))%nat)%bool eqn:Ec;
      [|eexists; reflexivity].
    apply andb_true_iff in Ec. destruct Ec as [_ Ec].
    apply Nat.ltb_lt in Ec.
    rewrite kneighbors_Ok by lia. simpl bind.
    apply IH; lia.
Qed.

End Widen.

(** ** Affinities *)

Lemma powerRZ_nonneg (x : R) (z : Z) : 0 <= x -> 0 <= powerRZ x z.
Proof.
  intros [Hpos|<-]; [apply powerRZ_le; exact Hpos|].
  destruct z as [|p|p]; simpl; [lra| |].
  - apply pow_le. lra.
  - rewrite pow_i by lia. rewrite Rinv_0. lra.
Qed.

Lemma exp_neg_range (x : R) : 0 <= x -> 0 < exp (-1 * x) <= 1.
Proof.
  intros Hx. split; [apply exp_pos|].
  rewrite <- exp_0. destruct Hx as [Hx|<-].
  - left. apply exp_increasing. lra.
  - right. f_equal. lra.
Qed.

Lemma div_nonneg (d bw : R) : 0 <= d -> 0 <= bw -> 0 <= d / bw.
Proof.
  intros Hd [Hbw|<-].
  - apply Rmult_le_pos; [exact Hd|]. left. apply Rinv_0_lt_compat, Hbw.
  - unfold Rdiv. rewrite Rinv_0. lra.
Qed.

Lemma affinity_range (dec : Z) (th d bw : R) :
  0 <= d -> 0 <= bw -> 0 <= kNNGraph.affinity dec th d bw <= 1.
Proof.
  intros Hd Hbw. unfold kNNGraph.affinity.
  pose proof (exp_neg_range (powerRZ (d / bw) dec)
                (powerRZ_nonneg _ dec (div_nonneg d bw Hd Hbw))) as He.
  destruct (Rlt_dec _ th); lra.
Qed.

Lemma affinity_below_thresh (dec : Z) (th d bw : R) :
  kNNGraph.affinity dec th d bw < th -> kNNGraph.affinity dec th d bw = 0.
Proof.
  unfold kNNGraph.affinity. destruct (Rlt_dec _ th); [reflexivity | lra].
Qed.

(** The affinity of a point to itself is 1, for a positive decay and a
    threshold of at most 1. *)
Lemma affinity_self (dec : Z) (th bw : R) :
  (0 < dec)%Z -> th <= 1 -> kNNGraph.affinity dec th 0 bw = 1.
Proof.
  intros Hdec Hth. unfold kNNGraph.affinity.
  assert (E : powerRZ (0 / bw) dec = 0).
  { replace (0 / bw) with 0 by (unfold Rdiv; lra).
    destruct dec as [|p|p]; try lia. simpl. apply pow_i. lia. }
  rewrite E. replace (-1 * 0) with 0 by lra. rewrite exp_0.
  destruct (Rlt_dec 1 th); [lra | reflexivity].
Qed.

Lemma affinities_nth (dec : Z) (th : R) (rows : list (list neighbor))
  (bandwidth : list R) (i : nat) (row : list neighbor) (b : R) :
  nth_error rows i = Some row -> nth_error bandwidth i = Some b ->
  nth i (kNNGraph.affinities dec th rows bandwidth) []
  = map (fun p : neighbor => (kNNGraph.affinity dec th (fst p) b, snd p)) row.
Proof.
  intros Hrow Hb. unfold kNNGraph.affinities.
  apply nth_error_nth.
  rewrite nth_error_map.
  assert (E : nth_error (combine rows bandwidth) i = Some (row, b)).
  { revert i bandwidth Hrow Hb.
    induction rows as [|r rows IH]; intros [|i] [|b' bw]; simpl;
      try discriminate.
    - intros H1 H2. injection H1 as <-. injection H2 as <-. reflexivity.
    - apply IH. }
  rewrite E. reflexivity.
Qed.

Lemma find_map_affinity (F : R -> R) (row : list neighbor) (j : nat) :
  find (fun p : neighbor => Nat.eqb (snd p) j)
       (map (fun p : neighbor => (F (fst p), snd p)) row)
  = option_map (fun p : neighbor => (F (fst p), snd p))
      (find (fun p : neighbor => Nat.eqb (snd p) j) row).
Proof.
  induction row as [|p row IH]; simpl; [reflexivity|].
  destruct (Nat.eqb (snd p) j); [reflexivity | exact IH].
Qed.

(** An entry of the alpha-decay kernel: the affinity at the distance the
    search found for that column, and [0] for a column it did not find. *)
Lemma decay_entry (dec : Z) (th : R) (rows : list (list neighbor))
  (bandwidth : list R) (ny m i j : nat) (row : list neighbor) (b : R) :
  nth_error rows i = Some row -> nth_error bandwidth i = Some b ->
  NoDup (map snd row) ->
  entry (Neighbors.csr_matrix (kNNGraph.affinities dec th rows bandwidth) ny m)
        i j
  = match find (fun p : neighbor => Nat.eqb (snd p) j) row with
    | Some p => kNNGraph.affinity dec th (fst p) b
    | None => 0
    end.
Proof.
  intros Hrow Hb Hnd. simpl.
  rewrite (affinities_nth dec th rows bandwidth i row b Hrow Hb).
  rewrite csr_row_entry by (rewrite map_map; exact Hnd).
  pose proof (find_map_affinity (fun d => kNNGraph.affinity dec th d b) row j)
    as E.
  cbv beta in E. rewrite E.
  destruct (find _ row); reflexivity.
Qed.

Lemma fold_left_Rmax_ge (l : list R) (x : R) : x <= fold_left Rmax l x.
Proof.
  revert x. induction l as [|y l IH]; intros x; simpl; [lra|].
  eapply Rle_trans; [apply (Rmax_l x y) | apply IH].
Qed.

Lemma np_max_nonneg (l : list R) : Forall (fun x => 0 <= x) l -> 0 <= np_max l.
Proof.
  intros H. destruct H as [|x l Hx _]; simpl; [lra|].
  eapply Rle_trans; [exact Hx | apply fold_left_Rmax_ge].
Qed.

Lemma column_inv (rows : list (list neighbor)) (width : nat) (i : Z)
  (col : list R) :
  kNNGraph.column rows width i = Ok col ->
  (1 <= width)%nat
  /\ exists j, col = map (fun r : list neighbor => fst (nth j r (0, 0%nat))) rows.
Proof.
  unfold kNNGraph.column.
  set (j := if (i <? 0)%Z then (i + Z.of_nat width)%Z else i).
  destruct ((0 <=? j)%Z && (j <? Z.of_nat width)%Z)%bool eqn:E;
    [|discriminate].
  intros H. injection H as <-.
  apply andb_true_iff in E. destruct E as [E1 E2].
  apply Z.leb_le in E1. apply Z.ltb_lt in E2.
  split; [lia|]. exists (Z.to_nat j). reflexivity.
Qed.

Section DecayRows.

Context {point : Type}.
Variable cdist : string -> point -> point -> R.
Variable g : kNNGraph.t point.
Variable Y : list point.
Variable Q : nat -> list neighbor -> Prop.

Hypothesis dist_nonneg : forall m x y, 0 <= cdist m x y.
Hypothesis Q_knn :
  forall i y k, nth_error Y i = Some y -> (1 <= k)%nat ->
    Q i (firstn k (Neighbors.sort_by_dist
                     (Neighbors.all_distances cdist (kNNGraph.knn_tree g) y))).
Hypothesis Q_radius :
  forall i y t r, nth_error Y i = Some y ->
    Neighbors.fit_X t = Base.data_nu (kNNGraph.base g) ->
    Neighbors.metric t = kNNGraph.distance g
    \/ Neighbors.metric t = "minkowski" ->
    0 <= r ->
    Q i (filter (fun p : neighbor => if Rle_dec (fst p) r then true else false)
                (Neighbors.all_distances cdist t y)).

Lemma all_distances_nonneg (t : Neighbors.NearestNeighbors point) (y : point)
  (p : neighbor) :
  In p (Neighbors.all_distances cdist t y) -> 0 <= fst p.
Proof.
  unfold Neighbors.all_distances. intros H.
  destruct p as [d k]. apply in_combine_l in H.
  apply in_map_iff in H. destruct H as [x [<- _]]. apply dist_nonneg.
Qed.

Lemma kneighbors_row_nonneg (t : Neighbors.NearestNeighbors point) (y : point)
  (k : nat) (p : neighbor) :
  In p (firstn k (Neighbors.sort_by_dist (Neighbors.all_distances cdist t y)))
  -> 0 <= fst p.
Proof.
  intros H. apply In_firstn in H.
  apply (all_distances_nonneg t y).
  eapply Permutation_in; [apply sort_by_dist_perm | exact H].
Qed.

Lemma bandwidth_nonneg (k : nat) (rows : list (list neighbor)) (width : nat)
  (i : Z) (bandwidth : list R) :
  Neighbors.kneighbors cdist (kNNGraph.knn_tree g) Y k = Ok rows ->
  kNNGraph.column rows width i = Ok bandwidth ->
  length bandwidth = length Y /\ Forall (fun b => 0 <= b) bandwidth.
Proof.
  intros Hrows Hcol. apply kneighbors_inv in Hrows. destruct Hrows as [_ ->].
  apply column_inv in Hcol. destruct Hcol as [_ [j ->]].
  split; [rewrite !length_map; reflexivity|].
  apply Forall_forall. intros b Hb. apply in_map_iff in Hb.
  destruct Hb as [row [<- Hrow]]. apply in_map_iff in Hrow.
  destruct Hrow as [y [<- _]].
  destruct (nth_in_or_default j
              (firstn k (Neighbors.sort_by_dist
                           (Neighbors.all_distances cdist
                              (kNNGraph.knn_tree g) y))) (0, 0%nat))
    as [Hin|E].
  - eapply kneighbors_row_nonneg. exact Hin.
  - rewrite E. simpl. lra.
Qed.

Lemma radii_nonneg (dec : Z) (bandwidth : list R) :
  Forall (fun b => 0 <= b) bandwidth ->
  Forall (fun r => 0 <= r) (radii g dec bandwidth).
Proof.
  intros H. unfold radii. apply Forall_forall. intros r Hr.
  apply in_map_iff in Hr. destruct Hr as [b [<- Hb]].
  rewrite Forall_forall in H. specialize (H b Hb).
  apply Rmult_le_pos; [exact H|]. left. apply exp_pos.
Qed.

(** Whatever path the search takes, every row it ends with is the result
    of a k-neighbour search or of a radius search for its query point. *)
Lemma decay_rows_ok (dec : Z) (knn : nat) (rows0 : list (list neighbor))
  (bandwidth : list R) (st : nat * list (list neighbor) * list nat) :
  let n := length (Base.data_nu (kNNGraph.base g)) in
  Neighbors.kneighbors cdist (kNNGraph.knn_tree g) Y (Nat.min (knn * 20) n)
  = Ok rows0 ->
  kNNGraph.column rows0 (Nat.min (knn * 20) n) (Z.of_nat knn - 1)
  = Ok bandwidth ->
  kNNGraph.widen cdist (S n) (kNNGraph.knn_tree g) Y (radii g dec bandwidth)
    (Nat.min (knn * 20) n) rows0
    (kNNGraph.inside_radius rows0 (radii g dec bandwidth)) = Ok st ->
  rows_ok Y Q (after_radius_search cdist g dec Y knn bandwidth st).
Proof.
  intros n Hrows Hcol Hst.
  destruct (bandwidth_nonneg _ _ _ _ _ Hrows Hcol) as [Hlen Hbw].
  pose proof (column_inv _ _ _ _ Hcol) as [Hwidth _].
  assert (Hok0 : rows_ok Y Q rows0).
  { apply (kneighbors_rows_ok cdist (kNNGraph.knn_tree g) Y Q 1%nat Q_knn
             (Nat.min (knn * 20) n) rows0 Hwidth Hrows). }
  destruct (widen_rows_ok cdist (kNNGraph.knn_tree g) Y
              (radii g dec bandwidth) Q 1%nat Q_knn (S n)
              (Nat.min (knn * 20) n) rows0
              (kNNGraph.inside_radius rows0 (radii g dec bandwidth)) st)
    as [Hok Hupd]; try assumption.
  { simpl. fold n. lia. }
  { destruct Hok0 as [E _]. rewrite <- E. apply inside_radius_bound. }
  destruct st as [[s rows] upd]. simpl in Hok, Hupd.
  unfold after_radius_search. fold n.
  destruct (0 <? length upd)%nat; [|exact Hok].
  unfold Neighbors.radius_neighbors.
  apply replace_rows_ok; [exact Hok | exact Hupd|].
  intros i y _ Hy. apply Q_radius.
  - exact Hy.
  - destruct (n <? 2 * s)%nat; reflexivity.
  - destruct (n <? 2 * s)%nat; simpl; auto.
  - apply np_max_nonneg. apply Forall_forall. intros r Hr.
    apply in_map_iff in Hr. destruct Hr as [k [<- _]].
    pose proof (radii_nonneg dec bandwidth Hbw) as Hrad.
    destruct (nth_in_or_default k (radii g dec bandwidth) 0) as [Hin|E].
    + rewrite Forall_forall in Hrad. apply Hrad, Hin.
    + rewrite E. lra.
Qed.

End DecayRows.

(** ** kNNGraph: range of the alpha-decay kernel *)

Section DecayRange.

Context {point : Type}.
Variable cdist : string -> point -> point -> R.
Variable g : kNNGraph.t point.
Hypothesis dist_nonneg : forall m x y, 0 <= cdist m x y.

Lemma clean_kneighbors (t : Neighbors.NearestNeighbors point) (i : nat)
  (y : point) (k : nat) :
  clean_row i (firstn k (Neighbors.sort_by_dist
                           (Neighbors.all_distances cdist t y))).
Proof.
  split; [apply kneighbors_row_NoDup|].
  apply Forall_forall. intros p Hp.
  apply (kneighbors_row_nonneg cdist dist_nonneg t y k p Hp).
Qed.

Lemma clean_radius (t : Neighbors.NearestNeighbors point) (i : nat)
  (y : point) (r : R) :
  clean_row i (filter (fun p : neighbor =>
                         if Rle_dec (fst p) r then true else false)
                      (Neighbors.all_distances cdist t y)).
Proof.
  split; [apply radius_row_NoDup|].
  apply Forall_forall. intros p Hp. apply filter_In in Hp.
  apply (all_distances_nonneg cdist dist_nonneg t y p). tauto.
Qed.

Lemma decay_kernel_to_data_range (dec : Z) (Y : list point) (knn : nat)
  (A : matrix) :
  kNNGraph.decay_kernel_to_data cdist g dec Y knn = Ok A ->
  forall i j, (i < length Y)%nat ->
    0 <= entry A i j <= 1
    /\ (entry A i j < kNNGraph.thresh g -> entry A i j = 0).
Proof.
  intros H i j Hi. apply decay_kernel_to_data_inv in H.
  destruct H as [rows0 [bw [st [Hrows [Hcol [_ [Hst ->]]]]]]].
  destruct (bandwidth_nonneg cdist g Y dist_nonneg _ _ _ _ _ Hrows Hcol)
    as [Hlen Hbw].
  pose proof (decay_rows_ok cdist g Y clean_row dist_nonneg
                (fun i y k _ _ => clean_kneighbors _ i y k)
                (fun i y t r _ _ _ _ => clean_radius t i y r)
                dec knn rows0 bw st Hrows Hcol Hst) as [Hlen' Hclean].
  destruct (nth_error (after_radius_search cdist g dec Y knn bw st) i)
    as [row|] eqn:Erow; [|apply nth_error_None in Erow; lia].
  destruct (nth_error bw i) as [b|] eqn:Eb;
    [|apply nth_error_None in Eb; lia].
  destruct (Hclean i row Erow) as [Hnd Hnn].
  rewrite (decay_entry dec _ _ bw (length Y) _ i j row b Erow Eb Hnd).
  assert (Hb : 0 <= b).
  { rewrite Forall_forall in Hbw. apply Hbw. eapply nth_error_In. exact Eb. }
  destruct (find _ row) as [p|] eqn:Ef.
  - apply find_some in Ef. destruct Ef as [Hp _].
    rewrite Forall_forall in Hnn. specialize (Hnn p Hp).
    split; [apply affinity_range; assumption|].
    apply affinity_below_thresh.
  - split; [lra | reflexivity].
Qed.

(** The kernel to new points: every entry is in [0, 1], and one below
    [thresh] is exactly 0. *)
Lemma kNNGraph_to_data_range (Y : list point) (k : option nat) (A : matrix)
  (i j : nat) :
  kNNGraph.decay g <> None -> kNNGraph.thresh g <> 1 ->
  kNNGraph.build_kernel_to_data cdist g Y k = Ok A ->
  (i < length Y)%nat ->
  0 <= entry A i j <= 1
  /\ (entry A i j < kNNGraph.thresh g -> entry A i j = 0).
Proof.
  intros Hdec Hth. unfold kNNGraph.build_kernel_to_data.
  destruct (kNNGraph.decay g) as [dec|]; [|congruence].
  destruct (Req_dec_T (kNNGraph.thresh g) 1); [contradiction|].
  intros H Hi. eapply decay_kernel_to_data_range; eassumption.
Qed.

(** The symmetrized kernel: every entry is in [0, 1], and one below half
    of [thresh] is exactly 0. *)
Lemma kNNGraph_kernel_range (K : matrix) (i j : nat) :
  kNNGraph.decay g <> None -> kNNGraph.thresh g <> 1 ->
  kNNGraph.build_kernel cdist g = Ok K ->
  (i < length (Base.data_nu (kNNGraph.base g)))%nat ->
  (j < length (Base.data_nu (kNNGraph.base g)))%nat ->
  0 <= entry K i j <= 1
  /\ (entry K i j < kNNGraph.thresh g / 2 -> entry K i j = 0).
Proof.
  intros Hdec Hth H Hi Hj. apply build_kernel_inv in H.
  destruct H as [A [HA ->]]. simpl.
  destruct (kNNGraph_to_data_range _ None A i j Hdec Hth HA Hi) as [Ha Ha0].
  destruct (kNNGraph_to_data_range _ None A j i Hdec Hth HA Hj) as [Hb Hb0].
  split; [lra|]. intros Hlt.
  assert (entry A i j = 0) by (apply Ha0; lra).
  assert (entry A j i = 0) by (apply Hb0; lra).
  lra.
Qed.

End DecayRange.

(** ** TraditionalGraph: range of the kernel *)

Lemma TraditionalGraph_below_thresh (pdist : string -> matrix -> matrix)
  (g : TraditionalGraph.t) (K : matrix) (i j : nat) :
  TraditionalGraph.build_kernel pdist g = Ok K ->
  entry K i j < TraditionalGraph.thresh g -> entry K i j = 0.
Proof.
  intros H. apply TraditionalGraph_presymmetric_inv in H.
  destruct H as [K0 [-> _]]. simpl.
  destruct (Rlt_dec _ (TraditionalGraph.thresh g)); [reflexivity | lra].
Qed.

Lemma knn_max_nonneg (k : nat) (pdx : matrix) (epsilon : nat -> R) (i : nat) :
  (forall j, (j < ncols pdx)%nat -> 0 <= entry pdx i j) ->
  TraditionalGraph.knn_max k pdx = Ok epsilon -> 0 <= epsilon i.
Proof.
  intros Hnn. unfold TraditionalGraph.knn_max.
  destruct (ncols pdx <=? k)%nat; [discriminate|].
  destruct (k =? 0)%nat; [discriminate|].
  intros H. injection H as <-.
  apply np_max_nonneg, Forall_forall. intros x Hx.
  unfold TraditionalGraph.smallest in Hx.
  apply in_map_iff in Hx. destruct Hx as [p [<- Hp]].
  apply In_firstn in Hp.
  eapply Permutation_in in Hp; [|apply sort_by_dist_perm].
  destruct p as [d c]. apply in_combine_l in Hp.
  apply in_map_iff in Hp. destruct Hp as [c' [<- Hc']].
  apply in_seq in Hc'. apply Hnn. lia.
Qed.

Lemma TraditionalGraph_decay_inv (pdist : string -> matrix -> matrix)
  (g : TraditionalGraph.t) (K : matrix) :
  TraditionalGraph.precomputed g = None
  \/ TraditionalGraph.precomputed g = Some "distance" ->
  TraditionalGraph.build_kernel pdist g = Ok K ->
  exists epsilon dec,
    TraditionalGraph.knn_max (TraditionalGraph.knn g) (distances_of pdist g)
    = Ok epsilon
    /\ TraditionalGraph.decay g = Some dec
    /\ K = zero_below (TraditionalGraph.thresh g)
             (mdiv (madd (TraditionalGraph.gaussian dec (distances_of pdist g)
                            epsilon)
                         (T (TraditionalGraph.gaussian dec
                               (distances_of pdist g) epsilon))) 2).
Proof.
  intros Hp H. apply TraditionalGraph_presymmetric_inv in H.
  destruct H as [K0 [-> Hcase]].
  destruct Hcase as [[Hp' _]|[[Hp' _]|[pdx [eps [dec [Hpdx [Heps [Hdec ->]]]]]]]].
  - destruct Hp; congruence.
  - destruct Hp; congruence.
  - exists eps, dec.
    assert (E : pdx = distances_of pdist g).
    { unfold distances_of. destruct Hpdx as [[-> ->]|[-> ->]]; reflexivity. }
    subst pdx. auto.
Qed.

Lemma TraditionalGraph_range (pdist : string -> matrix -> matrix)
  (g : TraditionalGraph.t) (K : matrix) (i j : nat) :
  TraditionalGraph.precomputed g = None
  \/ TraditionalGraph.precomputed g = Some "distance" ->
  nrows (distances_of pdist g) = ncols (distances_of pdist g) ->
  (forall a b, (a < nrows (distances_of pdist g))%nat ->
               (b < nrows (distances_of pdist g))%nat ->
               0 <= entry (distances_of pdist g) a b) ->
  TraditionalGraph.build_kernel pdist g = Ok K ->
  (i < nrows (distances_of pdist g))%nat ->
  (j < nrows (distances_of pdist g))%nat ->
  0 <= entry K i j <= 1.
Proof.
  intros Hp Hsq Hnn H Hi Hj.
  destruct (TraditionalGraph_decay_inv pdist g K Hp H)
    as [eps [dec [Heps [_ ->]]]].
  assert (Hg : forall a b, (a < nrows (distances_of pdist g))%nat ->
                           (b < nrows (distances_of pdist g))%nat ->
             0 < entry (TraditionalGraph.gaussian dec (distances_of pdist g)
                          eps) a b <= 1).
  { intros a b Ha Hb. simpl. apply exp_neg_range, powerRZ_nonneg.
    apply div_nonneg; [apply Hnn; assumption|].
    apply (knn_max_nonneg (TraditionalGraph.knn g) (distances_of pdist g)
             eps a); [|exact Heps].
    intros c Hc. apply Hnn; [assumption | lia]. }
  pose proof (Hg i j Hi Hj). pose proof (Hg j i Hj Hi).
  simpl in *. destruct (Rlt_dec _ (TraditionalGraph.thresh g)); lra.
Qed.

(** *** Three samples one apart, with alpha decay *)

Lemma decay_points_search :
  Neighbors.kneighbors line_dist (kNNGraph.knn_tree decay_points)
    [0; 1; 2]%Z 3 = Ok decay_points_rows.
Proof.
  unfold Neighbors.kneighbors, decay_points_rows. simpl. f_equal.
  unfold line_dist. decide_R; reflexivity.
Qed.

Lemma ln_2_bounds : 0 < ln 2 <= 1.
Proof.
  split.
  - rewrite <- ln_1. apply ln_increasing; lra.
  - destruct (Rle_dec (ln 2) 1) as [H|H]; [exact H|].
    exfalso. apply Rnot_le_lt in H.
    apply exp_increasing in H. rewrite exp_ln in H by lra.
    assert (H1 : 1 + 1 < exp 1) by (apply exp_ineq1; lra). lra.
Qed.

(** With [thresh = 1/2] and [decay = 1] the radius of a row is its
    bandwidth times [ln 2]. *)
Lemma half_radius_factor : 0 < Rpower (-1 * ln (1 / 2)) (1 / 1) <= 1.
Proof.
  replace (1 / 1) with 1 by lra.
  replace (-1 * ln (1 / 2)) with (ln 2).
  - rewrite Rpower_1 by apply ln_2_bounds. apply ln_2_bounds.
  - replace (1 / 2) with (/ 2) by lra. rewrite ln_Rinv by lra. lra.
Qed.

Lemma decay_points_inside :
  kNNGraph.inside_radius decay_points_rows (radii decay_points 1 [2; 1; 2])
  = [].
Proof.
  unfold radii. simpl kNNGraph.thresh.
  pose proof half_radius_factor as Hc.
  set (c := Rpower (-1 * ln (1 / 2)) (1 / 1)) in *.
  unfold kNNGraph.inside_radius, np_where, decay_points_rows. simpl.
  unfold Rmax. decide_R; try reflexivity; try lra.
Qed.

Lemma decay_points_to_data :
  kNNGraph.decay_kernel_to_data line_dist decay_points 1 [0; 1; 2]%Z 3
  = Ok (Neighbors.csr_matrix
          (kNNGraph.affinities 1 (1 / 2) decay_points_rows [2; 1; 2]) 3 3).
Proof.
  unfold kNNGraph.decay_kernel_to_data.
  cbv zeta.
  change (length (Base.data_nu (kNNGraph.base decay_points))) with 3%nat.
  change (Nat.min (3 * 20) 3) with 3%nat.
  rewrite decay_points_search. cbn [bind].
  change (kNNGraph.column decay_points_rows 3 (Z.of_nat 3 - 1))
    with (@Ok (list R) [2; 1; 2]).
  cbn [bind]. change (1 =? 0)%Z with false. cbv iota.
  fold (radii decay_points 1 [2; 1; 2]).
  rewrite decay_points_inside.
  reflexivity.
Qed.

Lemma exp_minus_half_bounds : 1 / 2 <= exp (- (1 / 2)) < 1.
Proof.
  split.
  - assert (H : 1 + - (1 / 2) < exp (- (1 / 2))) by (apply exp_ineq1; lra).
    lra.
  - apply Rlt_le_trans with (exp 0); [apply exp_increasing; lra|].
    rewrite exp_0. lra.
Qed.

Lemma exp_minus_1_bound : exp (- 1) < 1 / 2.
Proof.
  assert (H : 1 + 1 < exp 1) by (apply exp_ineq1; lra).
  assert (E : exp (- 1) = / exp 1) by apply exp_Ropp.
  rewrite E.
  assert (Hpos : 0 < exp 1) by apply exp_pos.
  apply Rmult_lt_reg_l with (exp 1); [exact Hpos|].
  rewrite Rinv_r by lra. lra.
Qed.

(** On the points 0, 1, 2 with [knn = 3], [decay = 1], [thresh = 1/2]:
    sample 0 has bandwidth 2 and keeps its affinity [exp(-1/2)] to
    sample 1; sample 1 has bandwidth 1 and its affinity [exp(-1)] to
    sample 0 is below [thresh] and becomes 0.  Their mean survives the
    symmetrization below [thresh]. *)
Lemma decay_points_kernel :
  exists K,
    kNNGraph.build_kernel line_dist decay_points = Ok K
    /\ entry K 0 1 = exp (- (1 / 2)) / 2
    /\ entry K 0 0 = 1.
Proof.
  eexists. split.
  - unfold kNNGraph.build_kernel, kNNGraph.build_kernel_to_data.
    simpl kNNGraph.decay. simpl kNNGraph.thresh.
    destruct (Req_dec_T (1 / 2) 1) as [E|_]; [lra|].
    change (Base.data_nu (kNNGraph.base decay_points)) with [0; 1; 2]%Z.
    change (kNNGraph.knn decay_points) with 3%nat.
    rewrite decay_points_to_data. reflexivity.
  - pose proof exp_minus_half_bounds as Hh.
    pose proof exp_minus_1_bound as H1.
    assert (P1 : powerRZ (1 / 2) 1 = 1 / 2) by (simpl; lra).
    assert (P2 : powerRZ (1 / 1) 1 = 1) by (simpl; lra).
    assert (P0 : powerRZ (0 / 2) 1 = 0) by (simpl; lra).
    assert (E1 : exp (-1 * (1 / 2)) = exp (- (1 / 2))) by (f_equal; lra).
    assert (E2 : exp (-1 * 1) = exp (- 1)) by (f_equal; lra).
    assert (E0 : exp (-1 * 0) = 1) by (rewrite <- exp_0; f_equal; lra).
    split; cbn -[powerRZ exp]; unfold kNNGraph.affinity;
      rewrite ?P1, ?P2, ?P0, ?E1, ?E2, ?E0; decide_R; lra.
Qed.

(** C4, as amended.  For a kNNGraph with [decay] set and [thresh < 1],
    over a non-negative metric and with no bandwidth equal to zero: the
    kernel to the graph's own data that [build_kernel_to_data] returns
    has every entry in [0, 1] and every entry below [thresh] equal to 0;
    the kernel [build_kernel] returns is its mean with its transpose, has
    every entry in [0, 1], and every entry below [thresh / 2] equal to 0.
    For a TraditionalGraph every entry of the kernel below [thresh] is 0,
    and when the kernel is computed from distances ([precomputed] [None]
    or ['distance']) that are non-negative, with no bandwidth equal to
    zero, every entry is in [0, 1]. *)
Theorem decay_kernel_entries :
  (forall (point : Type) (cdist : string -> point -> point -> R)
          (g : kNNGraph.t point) (K : matrix),
      (forall m x y, 0 <= cdist m x y) ->
      kNNGraph.decay g <> None -> kNNGraph.thresh g < 1 ->
      (forall bw, kNNGraph.bandwidths cdist g (Base.data_nu (kNNGraph.base g))
                    (kNNGraph.knn g) = Ok bw ->
                  Forall (fun b => 0 < b) bw) ->
      kNNGraph.build_kernel cdist g = Ok K ->
      exists A,
        kNNGraph.build_kernel_to_data cdist g
          (Base.data_nu (kNNGraph.base g)) None = Ok A
        /\ K = mdiv (madd A (T A)) 2
        /\ forall i j,
             (i < length (Base.data_nu (kNNGraph.base g)))%nat ->
             (j < length (Base.data_nu (kNNGraph.base g)))%nat ->
             (0 <= entry A i j <= 1
              /\ (entry A i j < kNNGraph.thresh g -> entry A i j = 0))
             /\ 0 <= entry K i j <= 1
             /\ (entry K i j < kNNGraph.thresh g / 2 -> entry K i j = 0))
  /\ (forall (pdist : string -> matrix -> matrix) (g : TraditionalGraph.t)
             (K : matrix),
        TraditionalGraph.build_kernel pdist g = Ok K ->
        (forall i j,
            entry K i j < TraditionalGraph.thresh g -> entry K i j = 0)
        /\ (TraditionalGraph.precomputed g = None
            \/ TraditionalGraph.precomputed g = Some "distance" ->
            nrows (distances_of pdist g) = ncols (distances_of pdist g) ->
            (forall a b, (a < nrows (distances_of pdist g))%nat ->
                         (b < nrows (distances_of pdist g))%nat ->
                         0 <= entry (distances_of pdist g) a b) ->
            (forall epsilon,
                TraditionalGraph.knn_max (TraditionalGraph.knn g)
                  (distances_of pdist g) = Ok epsilon ->
                forall a, (a < nrows (distances_of pdist g))%nat ->
                          0 < epsilon a) ->
            forall i j, (i < nrows (distances_of pdist g))%nat ->
                        (j < nrows (distances_of pdist g))%nat ->
                        0 <= entry K i j <= 1)).
Proof.
  split.
  - intros point cdist g K Hnn Hdec Hth _ HK.
    assert (Hth1 : kNNGraph.thresh g <> 1) by lra.
    destruct (build_kernel_inv cdist g K HK) as [A [HA E]].
    exists A. split; [exact HA|]. split; [exact E|].
    intros i j Hi Hj. split.
    + apply (kNNGraph_to_data_range cdist g Hnn _ None A i j Hdec Hth1 HA Hi).
    + apply (kNNGraph_kernel_range cdist g Hnn K i j Hdec Hth1 HK Hi Hj).
  - intros pdist g K HK. split.
    + intros i j. apply (TraditionalGraph_below_thresh pdist g K i j HK).
    + intros Hp Hsq Hnn _ i j Hi Hj.
      apply (TraditionalGraph_range pdist g K i j Hp Hsq Hnn HK Hi Hj).
Qed.

(** C4, as stated, fails twice.  On the points 0, 1, 2 ([knn = 3],
    [decay = 1], [thresh = 1/2]) the kernel of the kNNGraph has the entry
    [exp(-1/2) / 2] at (0, 1): not 0, and below [thresh].  The
    TraditionalGraph over the precomputed affinity 2 has the entry 2. *)
Lemma decay_kernel_entries_fail :
  (exists K,
      kNNGraph.build_kernel line_dist decay_points = Ok K
      /\ 0 < entry K 0 1 < kNNGraph.thresh decay_points)
  /\ (exists K,
         TraditionalGraph.build_kernel (fun _ X => X) affinity_two = Ok K
         /\ 1 < entry K 0 0).
Proof.
  split.
  - destruct decay_points_kernel as [K [HK [E _]]].
    exists K. split; [exact HK|]. rewrite E. simpl.
    pose proof exp_minus_half_bounds. lra.
  - eexists. split; [reflexivity|]. simpl.
    destruct (Rlt_dec ((2 + 2) / 2) (1 / 10000)); lra.
Qed.

(** ** kNNGraph: a kernel is returned *)

(** With [1 <= knn <= n_samples] and [decay] not 0 the builder returns a
    matrix: each search is within the number of fitted samples, the
    bandwidth column exists, and the widening loop ends. *)
Lemma kNNGraph_build_kernel_returns {point : Type}
  (cdist : string -> point -> point -> R) (g : kNNGraph.t point) :
  (1 <= kNNGraph.knn g <= length (Base.data_nu (kNNGraph.base g)))%nat ->
  kNNGraph.decay g <> Some 0%Z ->
  exists K, kNNGraph.build_kernel cdist g = Ok K.
Proof.
  intros Hk Hdec.
  assert (Hbin : exists A,
             Neighbors.kneighbors_graph cdist (kNNGraph.knn_tree g)
               (Base.data_nu (kNNGraph.base g)) (kNNGraph.knn g) = Ok A).
  { unfold Neighbors.kneighbors_graph.
    rewrite kneighbors_Ok by (simpl; lia). eexists. reflexivity. }
  unfold kNNGraph.build_kernel, kNNGraph.build_kernel_to_data.
  destruct (kNNGraph.decay g) as [dec|];
    [|destruct Hbin as [A ->]; eexists; reflexivity].
  destruct (Req_dec_T (kNNGraph.thresh g) 1) as [_|_];
    [destruct Hbin as [A ->]; eexists; reflexivity|].
  unfold kNNGraph.decay_kernel_to_data.
  rewrite kneighbors_Ok by (simpl; lia). cbn [bind].
  unfold kNNGraph.column.
  destruct (Z.ltb_spec (Z.of_nat (kNNGraph.knn g) - 1) 0); [lia|].
  destruct (Z.leb_spec 0 (Z.of_nat (kNNGraph.knn g) - 1)); [|lia].
  destruct (Z.ltb_spec (Z.of_nat (kNNGraph.knn g) - 1)
              (Z.of_nat (Nat.min (kNNGraph.knn g * 20)
                           (length (Base.data_nu (kNNGraph.base g))))));
    [|lia].
  cbn [andb bind].
  destruct (Z.eqb_spec dec 0) as [->|_]; [|].
  { exfalso. apply Hdec. reflexivity. }
  match goal with
  | |- context [kNNGraph.widen cdist ?f ?t ?Y ?rad ?s ?rows ?upd] =>
      destruct (widen_terminates cdist t Y rad f s rows upd) as [st Hst];
        [lia | simpl; lia | rewrite Hst]
  end.
  cbn [bind]. destruct st as [[s rows] upd]. eexists. reflexivity.
Qed.

(** ** Self-affinity *)

Section KnnDiagonal.

Context {point : Type}.
Variable cdist : string -> point -> point -> R.
Variable g : kNNGraph.t point.

Hypothesis dist_nonneg : forall m x y, 0 <= cdist m x y.
Hypothesis data_apart : apart cdist (Base.data_nu (kNNGraph.base g)).

Lemma binary_to_data_self (k : nat) (A : matrix) (i : nat) :
  (1 <= k)%nat ->
  Neighbors.kneighbors_graph cdist (kNNGraph.knn_tree g)
    (Base.data_nu (kNNGraph.base g)) k = Ok A ->
  (i < length (Base.data_nu (kNNGraph.base g)))%nat ->
  entry A i i = 1.
Proof.
  intros Hk HA Hi.
  assert (Hnb : exists nb,
             Neighbors.kneighbors cdist (kNNGraph.knn_tree g)
               (Base.data_nu (kNNGraph.base g)) k = Ok nb).
  { unfold Neighbors.kneighbors_graph in HA. apply bind_Ok in HA.
    destruct HA as [nb [Hnb _]]. exists nb. exact Hnb. }
  destruct Hnb as [nb Hnb].
  destruct (kneighbors_graph_entry cdist _ _ _ _ Hnb) as [A' [HA' [_ [_ Hent]]]].
  rewrite HA in HA'. injection HA' as <-. rewrite Hent.
  apply kneighbors_inv in Hnb. destruct Hnb as [_ ->].
  destruct (nth_error (Base.data_nu (kNNGraph.base g)) i) as [y|] eqn:Ey;
    [|apply nth_error_None in Ey; lia].
  erewrite nth_error_nth; [|rewrite nth_error_map, Ey; reflexivity].
  destruct (holds_self_kneighbors cdist (kNNGraph.knn_tree g) i y k
              data_apart Ey Hk) as [_ Hin].
  destruct (in_dec Nat.eq_dec i _) as [_|Hn]; [reflexivity|].
  exfalso. apply Hn. apply in_map_iff. exists (0, i). auto.
Qed.

Lemma decay_to_data_self (dec : Z) (k : nat) (A : matrix) (i : nat) :
  (0 < dec)%Z -> kNNGraph.thresh g <= 1 ->
  kNNGraph.decay_kernel_to_data cdist g dec
    (Base.data_nu (kNNGraph.base g)) k = Ok A ->
  (i < length (Base.data_nu (kNNGraph.base g)))%nat ->
  entry A i i = 1.
Proof.
  intros Hdec Hth H Hi. apply decay_kernel_to_data_inv in H.
  destruct H as [rows0 [bw [st [Hrows [Hcol [_ [Hst ->]]]]]]].
  destruct (bandwidth_nonneg cdist g _ dist_nonneg _ _ _ _ _ Hrows Hcol)
    as [Hlen _].
  pose proof (decay_rows_ok cdist g (Base.data_nu (kNNGraph.base g))
                holds_self dist_nonneg
                (fun i y k Hy Hk =>
                   holds_self_kneighbors cdist (kNNGraph.knn_tree g) i y k
                     data_apart Hy Hk)) as Hok.
  destruct (Hok (fun i y t r Hy Hfit _ Hr =>
                   holds_self_radius cdist t i y r
                     (eq_ind_r (apart cdist) data_apart Hfit)
                     (eq_ind_r (fun l => nth_error l i = Some y) Hy Hfit) Hr)
                dec k rows0 bw st Hrows Hcol Hst) as [Hlen' Hself].
  destruct (nth_error (after_radius_search cdist g dec
                         (Base.data_nu (kNNGraph.base g)) k bw st) i)
    as [row|] eqn:Erow; [|apply nth_error_None in Erow; lia].
  destruct (nth_error bw i) as [b|] eqn:Eb;
    [|apply nth_error_None in Eb; lia].
  pose proof (Hself i row Erow) as Hrow.
  rewrite (decay_entry dec _ _ bw _ _ i i row b Erow Eb (proj1 Hrow)).
  rewrite (holds_self_find i row Hrow). simpl.
  apply affinity_self; assumption.
Qed.

(** The kernel from the graph's own data to itself has a unit diagonal. *)
Lemma kNNGraph_to_data_self (k : option nat) (A : matrix) (i : nat) :
  (1 <= match k with Some k' => k' | None => kNNGraph.knn g end)%nat ->
  (forall dec, kNNGraph.decay g = Some dec -> kNNGraph.thresh g <> 1 ->
               (0 < dec)%Z /\ kNNGraph.thresh g <= 1) ->
  kNNGraph.build_kernel_to_data cdist g (Base.data_nu (kNNGraph.base g)) k
  = Ok A ->
  (i < length (Base.data_nu (kNNGraph.base g)))%nat ->
  entry A i i = 1.
Proof.
  intros Hk Hmode. unfold kNNGraph.build_kernel_to_data.
  destruct (kNNGraph.decay g) as [dec|].
  - destruct (Req_dec_T (kNNGraph.thresh g) 1) as [E|E].
    + intros HA Hi. eapply binary_to_data_self; eassumption.
    + destruct (Hmode dec eq_refl E) as [Hdec Hth].
      intros HA Hi. eapply decay_to_data_self; eassumption.
  - intros HA Hi. eapply binary_to_data_self; eassumption.
Qed.

Lemma kNNGraph_diagonal (K : matrix) (i : nat) :
  (1 <= kNNGraph.knn g)%nat ->
  (forall dec, kNNGraph.decay g = Some dec -> kNNGraph.thresh g <> 1 ->
               (0 < dec)%Z /\ kNNGraph.thresh g <= 1) ->
  kNNGraph.build_kernel cdist g = Ok K ->
  (i < length (Base.data_nu (kNNGraph.base g)))%nat ->
  entry K i i = 1.
Proof.
  intros Hk Hmode HK Hi. apply build_kernel_inv in HK.
  destruct HK as [A [HA ->]]. simpl.
  rewrite (kNNGraph_to_data_self None A i Hk Hmode HA Hi). lra.
Qed.

End KnnDiagonal.

(** ** MNNGraph: the diagonal *)

Lemma take_rows_nth_error {A : Type} (Y : list A) (idx : list nat) (a : nat) :
  Forall (fun k => (k < length Y)%nat) idx ->
  nth_error (kNNGraph.take_rows Y idx) a
  = match nth_error idx a with
    | Some k => nth_error Y k
    | None => None
    end.
Proof.
  intros H. revert a. induction H as [|k idx Hk _ IH]; intros a; simpl.
  - destruct a; reflexivity.
  - destruct (nth_error Y k) as [y|] eqn:E;
      [|apply nth_error_None in E; lia].
    destruct a as [|a]; simpl; [symmetry; exact E | apply IH].
Qed.

Lemma take_rows_length {A : Type} (Y : list A) (idx : list nat) :
  Forall (fun k => (k < length Y)%nat) idx ->
  length (kNNGraph.take_rows Y idx) = length idx.
Proof.
  induction 1 as [|k idx Hk _ IH]; simpl; [reflexivity|].
  destruct (nth_error Y k) as [y|] eqn:E;
    [|apply nth_error_None in E; lia].
  simpl. rewrite IH. reflexivity.
Qed.

(** Samples that are apart stay apart in any selection without
    repetition. *)
Lemma apart_take_rows {point : Type} (cdist : string -> point -> point -> R)
  (data : list point) (idx : list nat) :
  apart cdist data -> NoDup idx ->
  Forall (fun k => (k < length data)%nat) idx ->
  apart cdist (kNNGraph.take_rows data idx).
Proof.
  intros [Hzero Hpos] Hnd Hb. split; [exact Hzero|].
  intros m i j x y Hij Hx Hy.
  rewrite take_rows_nth_error in Hx, Hy by assumption.
  destruct (nth_error idx i) as [ki|] eqn:Ei; [|discriminate].
  destruct (nth_error idx j) as [kj|] eqn:Ej; [|discriminate].
  apply (Hpos m ki kj x y); [|assumption|assumption].
  intros ->. apply Hij.
  apply (proj1 (NoDup_nth_error idx) Hnd).
  - apply nth_error_Some. congruence.
  - congruence.
Qed.

Section MNNDiagonal.

Context {point : Type}.
Variable cdist : string -> point -> point -> R.
Variable g : MNNGraph.t point.

Hypothesis dist_nonneg : forall m x y, 0 <= cdist m x y.
Hypothesis data_apart : apart cdist (Base.data_nu (MNNGraph.base g)).
Hypothesis checked : MNNGraph.__init__checks g = Ok tt.
Hypothesis labelled : MNNGraph.canonical g.
Hypothesis knn_pos :
  forall i, (i < length (MNNGraph.samples g))%nat ->
            (1 <= nth i (MNNGraph.weighted_knn g) 0)%nat.
Hypothesis decay_mode :
  forall dec, MNNGraph.knn_decay g = Some dec -> MNNGraph.knn_thresh g <> 1 ->
              (0 < dec)%Z /\ MNNGraph.knn_thresh g <= 1.

Lemma batch_bound (i : nat) :
  Forall (fun k => (k < length (Base.data_nu (MNNGraph.base g)))%nat)
         (MNNGraph.batch g i).
Proof.
  apply Forall_forall. intros r Hr.
  rewrite <- (proj1 (init_checks_inv g checked)).
  eapply mask_bound. exact Hr.
Qed.

(** The block of a batch with itself has [beta] on its diagonal. *)
Lemma block_self (i : nat) (V : matrix) (a : nat) :
  (i < length (MNNGraph.samples g))%nat ->
  MNNGraph.block cdist g (i, subgraph g i) (i, subgraph g i) = Ok V ->
  (a < length (MNNGraph.batch g i))%nat ->
  entry V a a = MNNGraph.beta g.
Proof.
  intros Hi H Ha. unfold MNNGraph.block in H. apply bind_Ok in H.
  destruct H as [A [HA H]]. cbn [fst snd] in HA, H.
  rewrite Nat.eqb_refl in H. injection H as <-. simpl.
  rewrite (kNNGraph_to_data_self cdist (subgraph g i) dist_nonneg) with
    (k := Some (nth i (MNNGraph.weighted_knn g) 0%nat)) (A := A).
  - lra.
  - apply apart_take_rows;
      [exact data_apart | apply mask_NoDup | apply batch_bound].
  - apply knn_pos, Hi.
  - exact decay_mode.
  - exact HA.
  - simpl. rewrite take_rows_length by apply batch_bound. exact Ha.
Qed.

Lemma assemble_diagonal (K : matrix) (r : nat) :
  MNNGraph.assemble cdist g = Ok K ->
  (r < length (Base.data_nu (MNNGraph.base g)))%nat ->
  entry K r r = MNNGraph.beta g.
Proof.
  intros HK Hr.
  destruct (canonical_cover g r labelled) as [i [Hi Hri]].
  { rewrite (proj1 (init_checks_inv g checked)). exact Hr. }
  rewrite <- (canonical_batch g i labelled Hi) in Hri.
  destruct (proj2 (assemble_blocks cdist g K labelled HK) i i r r Hi Hi Hri Hri)
    as [V [a [b [HV [Ea [Eb ->]]]]]].
  assert (b = a) by congruence. subst b.
  apply (block_self i V a Hi HV).
  apply (index_of_Some _ _ _ Ea).
Qed.

(** On the diagonal the symmetrization leaves [beta], or squares it when
    [gamma] is ["*"]. *)
Lemma MNNGraph_diagonal (K : matrix) (r : nat) :
  MNNGraph.build_kernel cdist g = Ok K ->
  (r < length (Base.data_nu (MNNGraph.base g)))%nat ->
  entry K r r
  = match MNNGraph.gamma g with
    | MNNGraph.GammaStr s =>
        if String.eqb s "*" then MNNGraph.beta g * MNNGraph.beta g
        else MNNGraph.beta g
    | _ => MNNGraph.beta g
    end.
Proof.
  intros H Hr. unfold MNNGraph.build_kernel in H.
  apply bind_Ok in H. destruct H as [K0 [HK0 H]].
  pose proof (assemble_diagonal K0 r HK0 Hr) as Hd.
  destruct (init_checks_inv g checked) as [Hlen Hstr].
  unfold MNNGraph.symmetrize in H.
  destruct (MNNGraph.gamma g) as [s|x|G] eqn:Eg.
  - destruct (Hstr s eq_refl) as [-> | ->]; simpl in H; injection H as <-;
      simpl; rewrite Hd; lra.
  - injection H as <-. simpl. rewrite Hd.
    rewrite Rmin_left, Rmax_left by lra. lra.
  - destruct (symmetrize_pairs_spec g G
                (MNNGraph.upper_pairs (length (MNNGraph.samples g))) K0)
      as [K' [E [_ Hent]]].
    + apply upper_pairs_NoDup.
    + apply Forall_forall. intros [i j] Hp. apply upper_pairs_In in Hp.
      simpl. lia.
    + rewrite E in H. injection H as <-.
      destruct (canonical_cover g r labelled) as [i [Hi Hri]]; [lia|].
      assert (Hin : In (i, i)
                  (MNNGraph.upper_pairs (length (MNNGraph.samples g))))
        by (apply upper_pairs_In; lia).
      rewrite (proj1 (Hent r r) i i Hin Hri Hri). rewrite Hd.
      unfold blend_entries. rewrite Rmin_left, Rmax_left by lra. lra.
Qed.

End MNNDiagonal.

(** ** TraditionalGraph: the diagonal *)

Lemma zero_below_average_diag (th : R) (K0 : matrix) (i : nat) :
  entry (zero_below th (mdiv (madd K0 (T K0)) 2)) i i
  = if Rlt_dec (entry K0 i i) th then 0 else entry K0 i i.
Proof.
  simpl.
  destruct (Rlt_dec ((entry K0 i i + entry K0 i i) / 2) th);
    destruct (Rlt_dec (entry K0 i i) th); lra.
Qed.

Lemma TraditionalGraph_affinity_diagonal
  (pdist : string -> matrix -> matrix) (g : TraditionalGraph.t)
  (K : matrix) (i : nat) :
  TraditionalGraph.precomputed g = Some "affinity" ->
  TraditionalGraph.build_kernel pdist g = Ok K ->
  entry K i i
  = if Rlt_dec (entry (Base.data_nu (TraditionalGraph.base g)) i i)
               (TraditionalGraph.thresh g)
    then 0 else entry (Base.data_nu (TraditionalGraph.base g)) i i.
Proof.
  intros Hp H. unfold TraditionalGraph.build_kernel in H.
  rewrite Hp in H. simpl in H. injection H as <-.
  apply zero_below_average_diag.
Qed.

Lemma TraditionalGraph_adjacency_diagonal
  (pdist : string -> matrix -> matrix) (g : TraditionalGraph.t)
  (K : matrix) (i : nat) :
  TraditionalGraph.precomputed g = Some "adjacency" ->
  TraditionalGraph.thresh g <= 1 ->
  TraditionalGraph.build_kernel pdist g = Ok K ->
  entry K i i = 1.
Proof.
  intros Hp Hth H. unfold TraditionalGraph.build_kernel in H.
  rewrite Hp in H. simpl in H. injection H as <-.
  rewrite zero_below_average_diag. simpl. rewrite Nat.eqb_refl.
  destruct (Rlt_dec 1 (TraditionalGraph.thresh g)); [lra | reflexivity].
Qed.

Lemma TraditionalGraph_decay_diagonal
  (pdist : string -> matrix -> matrix) (g : TraditionalGraph.t)
  (K : matrix) (i : nat) :
  TraditionalGraph.precomputed g = None
  \/ TraditionalGraph.precomputed g = Some "distance" ->
  entry (distances_of pdist g) i i = 0 ->
  (forall dec, TraditionalGraph.decay g = Some dec -> (0 < dec)%Z) ->
  TraditionalGraph.thresh g <= 1 ->
  TraditionalGraph.build_kernel pdist g = Ok K ->
  entry K i i = 1.
Proof.
  intros Hp Hzero Hdec Hth H.
  destruct (TraditionalGraph_decay_inv pdist g K Hp H)
    as [eps [dec [_ [Ed ->]]]].
  rewrite zero_below_average_diag. simpl. rewrite Hzero.
  assert (E : powerRZ (0 / eps i) dec = 0).
  { replace (0 / eps i) with 0 by (unfold Rdiv; lra).
    specialize (Hdec dec Ed).
    destruct dec as [|p|p]; try lia. simpl. apply pow_i. lia. }
  rewrite E. replace (-1 * 0) with 0 by lra. rewrite exp_0.
  destruct (Rlt_dec 1 (TraditionalGraph.thresh g)); [lra | reflexivity].
Qed.

Lemma NoDup_four_points : NoDup [0; 1; 10; 11]%Z.
Proof.
  repeat constructor; simpl; intuition discriminate.
Qed.

(** C2, as amended.  The diagonal of the matrix [build_kernel] returns,
    over a non-negative metric and samples that are pairwise apart:
    - kNNGraph, [knn >= 1], and in decay mode [decay > 0], [thresh <= 1]
      and no bandwidth equal to zero: every diagonal entry is 1;
    - TraditionalGraph: with [precomputed='affinity'] the diagonal is the
      diagonal of the data, zeroed below [thresh]; with
      [precomputed='adjacency'] and [thresh <= 1] it is 1; computed from
      distances that are zero on the diagonal, with [decay > 0],
      [thresh <= 1] and no bandwidth equal to zero, it is 1;
    - MNNGraph with batches labelled [0 .. B-1] whose subgraphs satisfy the
      conditions of the kNNGraph: every diagonal entry is [beta], and
      [beta * beta] when [gamma] is ['*'];  so it is 1 when [beta = 1],
      and for [beta >= 0] it is 1 only then. *)
Theorem build_kernel_diagonal :
  (forall (point : Type) (cdist : string -> point -> point -> R)
          (g : kNNGraph.t point) (K : matrix),
      (forall m x y, 0 <= cdist m x y) ->
      apart cdist (Base.data_nu (kNNGraph.base g)) ->
      (1 <= kNNGraph.knn g)%nat ->
      (forall dec, kNNGraph.decay g = Some dec -> kNNGraph.thresh g <> 1 ->
         (0 < dec)%Z /\ kNNGraph.thresh g <= 1
         /\ forall bw,
              kNNGraph.bandwidths cdist g (Base.data_nu (kNNGraph.base g))
                (kNNGraph.knn g) = Ok bw ->
              Forall (fun b => 0 < b) bw) ->
      kNNGraph.build_kernel cdist g = Ok K ->
      forall i, (i < length (Base.data_nu (kNNGraph.base g)))%nat ->
                entry K i i = 1)
  /\ (forall (pdist : string -> matrix -> matrix) (g : TraditionalGraph.t)
             (K : matrix) (i : nat),
        TraditionalGraph.build_kernel pdist g = Ok K ->
        (TraditionalGraph.precomputed g = Some "affinity" ->
         entry K i i
         = if Rlt_dec (entry (Base.data_nu (TraditionalGraph.base g)) i i)
                      (TraditionalGraph.thresh g)
           then 0 else entry (Base.data_nu (TraditionalGraph.base g)) i i)
        /\ (TraditionalGraph.precomputed g = Some "adjacency" ->
            TraditionalGraph.thresh g <= 1 -> entry K i i = 1)
        /\ (TraditionalGraph.precomputed g = None
            \/ TraditionalGraph.precomputed g = Some "distance" ->
            entry (distances_of pdist g) i i = 0 ->
            (forall dec, TraditionalGraph.decay g = Some dec -> (0 < dec)%Z) ->
            TraditionalGraph.thresh g <= 1 ->
            (forall epsilon,
                TraditionalGraph.knn_max (TraditionalGraph.knn g)
                  (distances_of pdist g) = Ok epsilon ->
                0 < epsilon i) ->
            entry K i i = 1))
  /\ (forall (point : Type) (cdist : string -> point -> point -> R)
             (g : MNNGraph.t point) (K : matrix),
        (forall m x y, 0 <= cdist m x y) ->
        apart cdist (Base.data_nu (MNNGraph.base g)) ->
        MNNGraph.__init__checks g = Ok tt ->
        MNNGraph.canonical g ->
        (forall i, (i < length (MNNGraph.samples g))%nat ->
                   (1 <= nth i (MNNGraph.weighted_knn g) 0)%nat) ->
        (forall dec, MNNGraph.knn_decay g = Some dec ->
           MNNGraph.knn_thresh g <> 1 ->
           (0 < dec)%Z /\ MNNGraph.knn_thresh g <= 1
           /\ forall i bw,
                (i < length (MNNGraph.samples g))%nat ->
                kNNGraph.bandwidths cdist (subgraph g i)
                  (Base.data_nu (kNNGraph.base (subgraph g i)))
                  (nth i (MNNGraph.weighted_knn g) 0%nat) = Ok bw ->
                Forall (fun b => 0 < b) bw) ->
        MNNGraph.build_kernel cdist g = Ok K ->
        forall r, (r < length (Base.data_nu (MNNGraph.base g)))%nat ->
          entry K r r
          = match MNNGraph.gamma g with
            | MNNGraph.GammaStr s =>
                if String.eqb s "*" then MNNGraph.beta g * MNNGraph.beta g
                else MNNGraph.beta g
            | _ => MNNGraph.beta g
            end
          /\ (MNNGraph.beta g = 1 -> entry K r r = 1)
          /\ (0 <= MNNGraph.beta g -> entry K r r = 1 ->
              MNNGraph.beta g = 1)).
Proof.
  split; [|split].
  - intros point cdist g K Hnn Hap Hk Hmode HK i Hi.
    apply (kNNGraph_diagonal cdist g Hnn Hap K i Hk); [|exact HK|exact Hi].
    intros dec Hd Hth. destruct (Hmode dec Hd Hth) as [H1 [H2 _]]. auto.
  - intros pdist g K i HK. split; [|split].
    + intros Hp. apply (TraditionalGraph_affinity_diagonal pdist); assumption.
    + intros Hp Hth.
      apply (TraditionalGraph_adjacency_diagonal pdist g); assumption.
    + intros Hp Hzero Hdec Hth _.
      apply (TraditionalGraph_decay_diagonal pdist g); assumption.
  - intros point cdist g K Hnn Hap Hchk Hcan Hk Hmode HK r Hr.
    assert (E : entry K r r
                = match MNNGraph.gamma g with
                  | MNNGraph.GammaStr s =>
                      if String.eqb s "*"
                      then MNNGraph.beta g * MNNGraph.beta g
                      else MNNGraph.beta g
                  | _ => MNNGraph.beta g
                  end).
    { apply (MNNGraph_diagonal cdist g Hnn Hap Hchk Hcan Hk); [|exact HK|exact Hr].
      intros dec Hd Hth. destruct (Hmode dec Hd Hth) as [H1 [H2 _]]. auto. }
    split; [exact E|]. split.
    + intros Hb. rewrite E, Hb.
      destruct (MNNGraph.gamma g) as [s| |]; try reflexivity.
      destruct (String.eqb s "*"); lra.
    + intros Hb H1. rewrite E in H1.
      destruct (MNNGraph.gamma g) as [s| |]; try exact H1.
      destruct (String.eqb s "*"); [nra | exact H1].
Qed.

(** On the three points 0, 1, 3 the kNN kernel has 1 on its diagonal; on
    the four points in two batches the MNN kernel has [beta] there. *)
Lemma build_kernel_diagonal_witness :
  (exists K,
      kNNGraph.build_kernel line_dist three_points = Ok K
      /\ entry K 0 0 = 1 /\ entry K 1 1 = 1 /\ entry K 2 2 = 1)
  /\ (exists K,
         MNNGraph.build_kernel line_dist two_batches = Ok K
         /\ entry K 0 0 = MNNGraph.beta two_batches).
Proof.
  destruct build_kernel_diagonal as [Hknn [_ Hmnn]].
  assert (E3 : exists K, kNNGraph.build_kernel line_dist three_points = Ok K)
    by (eexists; reflexivity).
  assert (E4 : exists K, MNNGraph.build_kernel line_dist two_batches = Ok K)
    by (eexists; reflexivity).
  destruct E3 as [K3 H3]. destruct E4 as [K4 H4].
  split.
  - exists K3. split; [exact H3|].
    assert (H : forall i, (i < 3)%nat -> entry K3 i i = 1).
    { apply (Hknn Z line_dist three_points K3 line_dist_nonneg
               (line_apart _ NoDup_three_points)).
      - simpl. lia.
      - intros dec Hd. discriminate.
      - exact H3. }
    repeat split; apply H; lia.
  - exists K4. split; [exact H4|].
    refine (proj1 (Hmnn Z line_dist two_batches K4 line_dist_nonneg
                     (line_apart _ NoDup_four_points) _ eq_refl _ _ H4
                     0%nat _)).
    + unfold MNNGraph.__init__checks. simpl.
      destruct (Rlt_dec (99 / 100) 0); [lra|].
      destruct (Rlt_dec 1 (99 / 100)); [lra|]. reflexivity.
    + intros [|[|i]] Hi; simpl in *; lia.
    + intros dec Hd. discriminate.
    + simpl. lia.
Defined.

(** C2, as stated, fails twice.  The MNNGraph over the points 0, 1, 10, 11
    in two batches, with [beta = 1/2], passes the checks of the constructor
    and its kernel has 1/2 on the diagonal.  The TraditionalGraph over the
    precomputed affinity 2 is constructed without complaint and its kernel
    has 2 on the diagonal. *)
Lemma build_kernel_diagonal_fail :
  (MNNGraph.__init__checks two_batches = Ok tt
   /\ 0 < MNNGraph.beta two_batches <= 1
   /\ exists K, MNNGraph.build_kernel line_dist two_batches = Ok K
                /\ entry K 0 0 = 1 / 2)
  /\ (TraditionalGraph.__init__ DataGraph_keep_matrix (one_by_one 2) 5
        (Some 10%Z) "euclidean" None (1 / 10000) (Some "affinity") []
      = ([], Ok affinity_two)
      /\ exists K,
           TraditionalGraph.build_kernel (fun _ X => X) affinity_two = Ok K
           /\ entry K 0 0 = 2).
Proof.
  assert (Hchk : MNNGraph.__init__checks two_batches = Ok tt).
  { unfold MNNGraph.__init__checks. simpl.
    destruct (Rlt_dec (99 / 100) 0); [lra|].
    destruct (Rlt_dec 1 (99 / 100)); [lra|]. reflexivity. }
  split; [split; [|split]|split].
  - exact Hchk.
  - simpl. lra.
  - eexists. split; [reflexivity|].
    rewrite (MNNGraph_diagonal line_dist two_batches line_dist_nonneg
               (line_apart _ NoDup_four_points) Hchk eq_refl).
    + reflexivity.
    + intros [|[|i]] Hi; simpl in *; lia.
    + intros dec Hd. discriminate.
    + reflexivity.
    + simpl. lia.
  - unfold TraditionalGraph.__init__. simpl.
    unfold TraditionalGraph.any_negative. simpl.
    destruct (Rlt_dec 2 0) as [H|H]; [lra|]. reflexivity.
  - eexists. split; [reflexivity|]. simpl.
    destruct (Rlt_dec ((2 + 2) / 2) (1 / 10000)); lra.
Qed.

(** * Further properties of the code *)

(** ** Dictionaries *)

Lemma py_eq_refl (v : pyval) : py_eq v v = true.
Proof.
  destruct v as [|z|r|s]; simpl.
  - reflexivity.
  - apply Z.eqb_refl.
  - destruct (Req_dec_T r r); [reflexivity | contradiction].
  - apply String.eqb_refl.
Qed.

Lemma updates_same (k : string) (d : kwargs) (v : pyval) :
  lookup k d = Some v -> updates k d v = false.
Proof.
  intros H. unfold updates. rewrite H. unfold py_ne.
  rewrite py_eq_refl. reflexivity.
Qed.

Lemma lookup_set_item_eq (k : string) (v : pyval) (d : kwargs) :
  lookup k (set_item k v d) = Some v.
Proof.
  induction d as [|[k' w] d IH]; simpl.
  - rewrite String.eqb_refl. reflexivity.
  - destruct (String.eqb_spec k k') as [->|Hne]; simpl.
    + rewrite String.eqb_refl. reflexivity.
    + destruct (String.eqb_spec k k'); [contradiction | exact IH].
Qed.

Lemma lookup_set_item_neq (k k' : string) (v : pyval) (d : kwargs) :
  k <> k' -> lookup k (set_item k' v d) = lookup k d.
Proof.
  intros Hne. induction d as [|[k'' w] d IH]; simpl.
  - destruct (String.eqb_spec k k'); [contradiction | reflexivity].
  - destruct (String.eqb_spec k' k'') as [->|Hne']; simpl.
    + destruct (String.eqb_spec k k''); [contradiction | reflexivity].
    + destruct (String.eqb_spec k k''); [reflexivity | exact IH].
Qed.

(** After [d.update(new)] a key of [new] holds the value [new] gives it
    last; any other key holds what it held in [d]. *)
Lemma lookup_update (k : string) (d new : kwargs) :
  lookup k (update d new)
  = match lookup k (rev new) with
    | Some v => Some v
    | None => lookup k d
    end.
Proof.
  unfold update. revert d.
  induction new as [|[k' v] new IH]; intros d; simpl; [reflexivity|].
  rewrite IH. clear IH.
  assert (Happ : forall l1 l2 : kwargs, lookup k (l1 ++ l2)%list
                 = match lookup k l1 with
                   | Some w => Some w
                   | None => lookup k l2
                   end).
  { induction l1 as [|[a b] l1 IH1]; intros l2; simpl; [reflexivity|].
    destruct (String.eqb k a); [reflexivity | apply IH1]. }
  rewrite Happ. destruct (lookup k (rev new)) as [w|]; [reflexivity|].
  simpl. destruct (String.eqb_spec k k') as [->|Hne].
  - apply lookup_set_item_eq.
  - apply lookup_set_item_neq, Hne.
Qed.

(** ** kNNGraph: when a kernel is returned, and when not *)

Section KnnReturns.

Context {point : Type}.
Variable cdist : string -> point -> point -> R.
Variable g : kNNGraph.t point.

Let n : nat := length (Base.data_nu (kNNGraph.base g)).

Lemma kneighbors_graph_returns (Y : list point) (k : nat) :
  (k <= n)%nat ->
  exists A, Neighbors.kneighbors_graph cdist (kNNGraph.knn_tree g) Y k = Ok A.
Proof.
  intros Hk. unfold Neighbors.kneighbors_graph.
  rewrite kneighbors_Ok by exact Hk. eexists. reflexivity.
Qed.

Lemma decay_kernel_to_data_returns (dec : Z) (Y : list point) (k : nat) :
  (1 <= k <= n)%nat -> dec <> 0%Z ->
  exists A, kNNGraph.decay_kernel_to_data cdist g dec Y k = Ok A.
Proof.
  intros Hk Hdec. unfold kNNGraph.decay_kernel_to_data. fold n.
  rewrite kneighbors_Ok by (simpl; fold n; lia). cbn [bind].
  unfold kNNGraph.column.
  destruct (Z.ltb_spec (Z.of_nat k - 1) 0); [lia|].
  destruct (Z.leb_spec 0 (Z.of_nat k - 1)); [|lia].
  destruct (Z.ltb_spec (Z.of_nat k - 1) (Z.of_nat (Nat.min (k * 20) n)));
    [|lia].
  cbn [andb bind].
  destruct (Z.eqb_spec dec 0) as [E|_]; [contradiction|].
  match goal with
  | |- context [kNNGraph.widen cdist ?f ?t ?Y' ?rad ?s ?rows ?upd] =>
      destruct (widen_terminates cdist t Y' rad f s rows upd) as [st Hst];
        [lia | simpl; fold n; lia | rewrite Hst]
  end.
  cbn [bind]. destruct st as [[s rows] upd]. eexists. reflexivity.
Qed.

Lemma build_kernel_to_data_returns (Y : list point) (k : option nat) :
  (1 <= match k with Some k' => k' | None => kNNGraph.knn g end <= n)%nat ->
  kNNGraph.decay g <> Some 0%Z ->
  exists A, kNNGraph.build_kernel_to_data cdist g Y k = Ok A.
Proof.
  intros Hk Hdec. unfold kNNGraph.build_kernel_to_data.
  destruct (kNNGraph.decay g) as [dec|];
    [|apply kneighbors_graph_returns; lia].
  destruct (Req_dec_T (kNNGraph.thresh g) 1) as [_|_];
    [apply kneighbors_graph_returns; lia|].
  apply decay_kernel_to_data_returns; [exact Hk | congruence].
Qed.

(** With [decay = 0] the radius cannot be computed: [1 / self.decay]
    raises as soon as the first search has given the bandwidths. *)
Lemma decay_zero_raises (Y : list point) (k : nat) :
  exists e, kNNGraph.decay_kernel_to_data cdist g 0 Y k = Raise e
            /\ ((1 <= k <= n)%nat -> e = ZeroDivisionError).
Proof.
  unfold kNNGraph.decay_kernel_to_data. fold n.
  destruct (Neighbors.kneighbors cdist (kNNGraph.knn_tree g) Y
              (Nat.min (k * 20) n)) as [rows|e] eqn:Es.
  - cbn [bind].
    destruct (kNNGraph.column rows (Nat.min (k * 20) n) (Z.of_nat k - 1))
      as [bw|e] eqn:Ec.
    + cbn [bind]. simpl. eexists. split; reflexivity.
    + cbn [bind]. exists e. split; [reflexivity|]. intros Hk. exfalso.
      unfold kNNGraph.column in Ec.
      destruct (Z.ltb_spec (Z.of_nat k - 1) 0); [lia|].
      destruct (Z.leb_spec 0 (Z.of_nat k - 1)); [|lia].
      destruct (Z.ltb_spec (Z.of_nat k - 1)
                  (Z.of_nat (Nat.min (k * 20) n))); [|lia].
      discriminate.
  - cbn [bind]. exists e. split; [reflexivity|]. intros Hk. exfalso.
    rewrite kneighbors_Ok in Es by (simpl; fold n; lia). discriminate.
Qed.

End KnnReturns.

(** X1.  [build_kernel_to_data(Y, knn)] returns a matrix of shape
    [len(Y), n_samples] whenever [1 <= knn <= n_samples] and [decay] is not
    0: every search asks for at most [n_samples] neighbours, the column of
    bandwidths exists, and the loop that widens the search ends.  Under
    the same condition on the graph's own [knn], [build_kernel] returns a
    square matrix over the samples. *)
Theorem kNNGraph_kernels_returned :
  forall (point : Type) (cdist : string -> point -> point -> R)
         (g : kNNGraph.t point) (Y : list point) (k : option nat),
    (1 <= match k with Some k' => k' | None => kNNGraph.knn g end
       <= length (Base.data_nu (kNNGraph.base g)))%nat ->
    kNNGraph.decay g <> Some 0%Z ->
    (exists A,
        kNNGraph.build_kernel_to_data cdist g Y k = Ok A
        /\ shape A = (length Y, length (Base.data_nu (kNNGraph.base g))))
    /\ ((1 <= kNNGraph.knn g <= length (Base.data_nu (kNNGraph.base g)))%nat ->
        exists K,
          kNNGraph.build_kernel cdist g = Ok K
          /\ shape K = (length (Base.data_nu (kNNGraph.base g)),
                        length (Base.data_nu (kNNGraph.base g)))).
Proof.
  intros point cdist g Y k Hk Hdec. split.
  - destruct (build_kernel_to_data_returns cdist g Y k Hk Hdec) as [A HA].
    exists A. split; [exact HA|].
    destruct (build_kernel_to_data_shape cdist g Y k A HA) as [Hr Hc].
    unfold shape. rewrite Hr, Hc. reflexivity.
  - intros Hknn.
    destruct (kNNGraph_build_kernel_returns cdist g Hknn Hdec) as [K HK].
    exists K. split; [exact HK|].
    destruct (build_kernel_inv cdist g K HK) as [A [HA ->]].
    destruct (build_kernel_to_data_shape cdist g _ None A HA) as [Hr Hc].
    unfold shape. simpl. rewrite Hr, Hc. reflexivity.
Qed.

(** On the points 0, 1, 2 with [knn = 3], [decay = 1]: a kernel from the
    two new points 5 and 7, and the graph's own kernel. *)
Lemma kNNGraph_kernels_returned_witness :
  (exists A,
      kNNGraph.build_kernel_to_data line_dist decay_points [5; 7]%Z None
      = Ok A
      /\ shape A = (2%nat, 3%nat))
  /\ (exists K,
         kNNGraph.build_kernel line_dist decay_points = Ok K
         /\ shape K = (3%nat, 3%nat)).
Proof.
  destruct (kNNGraph_kernels_returned Z line_dist decay_points [5; 7]%Z None)
    as [H1 H2].
  - simpl. lia.
  - discriminate.
  - split; [exact H1|]. apply H2. simpl. lia.
Defined.

(** X2.  A kNNGraph with [decay = 0] and [thresh] other than 1 builds no
    kernel: [build_kernel_to_data] raises for every [Y] and [knn], with
    [ZeroDivisionError] from [1 / self.decay] when the search itself is in
    range, and so does [build_kernel]. *)
Theorem kNNGraph_decay_zero_raises :
  forall (point : Type) (cdist : string -> point -> point -> R)
         (g : kNNGraph.t point),
    kNNGraph.decay g = Some 0%Z -> kNNGraph.thresh g <> 1 ->
    (forall (Y : list point) (k : option nat),
        exists e,
          kNNGraph.build_kernel_to_data cdist g Y k = Raise e
          /\ ((1 <= match k with Some k' => k' | None => kNNGraph.knn g end
                 <= length (Base.data_nu (kNNGraph.base g)))%nat ->
              e = ZeroDivisionError))
    /\ exists e,
         kNNGraph.build_kernel cdist g = Raise e
         /\ ((1 <= kNNGraph.knn g
                <= length (Base.data_nu (kNNGraph.base g)))%nat ->
             e = ZeroDivisionError).
Proof.
  intros point cdist g Hdec Hth.
  assert (H : forall (Y : list point) (k : option nat),
             exists e,
               kNNGraph.build_kernel_to_data cdist g Y k = Raise e
               /\ ((1 <= match k with Some k' => k' | None => kNNGraph.knn g end
                      <= length (Base.data_nu (kNNGraph.base g)))%nat ->
                   e = ZeroDivisionError)).
  { intros Y k. unfold kNNGraph.build_kernel_to_data. rewrite Hdec.
    destruct (Req_dec_T (kNNGraph.thresh g) 1) as [E|_]; [contradiction|].
    apply decay_zero_raises. }
  split; [exact H|].
  destruct (H (Base.data_nu (kNNGraph.base g)) None) as [e [He Hz]].
  exists e. split; [|exact Hz].
  unfold kNNGraph.build_kernel. rewrite Hdec.
  destruct (Req_dec_T (kNNGraph.thresh g) 1) as [E|_]; [contradiction|].
  rewrite He. reflexivity.
Qed.

Lemma kNNGraph_decay_zero_raises_witness :
  kNNGraph.build_kernel line_dist decay0_points = Raise ZeroDivisionError.
Proof.
  destruct (kNNGraph_decay_zero_raises Z line_dist decay0_points eq_refl)
    as [_ [e [He Hz]]].
  - simpl. lra.
  - rewrite He. f_equal. apply Hz. simpl. lia.
Defined.

(** X3.  When [knn] exceeds the number of samples no kernel is built: in
    binary mode the neighbour search refuses it with a [ValueError]; in
    decay mode the search is cut down to [n_samples] neighbours and the
    bandwidth column [distances[:, knn - 1]] is out of bounds, an
    [IndexError]. *)
Theorem kNNGraph_knn_exceeds_samples :
  forall (point : Type) (cdist : string -> point -> point -> R)
         (g : kNNGraph.t point) (Y : list point) (k : option nat),
    (length (Base.data_nu (kNNGraph.base g))
     < match k with Some k' => k' | None => kNNGraph.knn g end)%nat ->
    (kNNGraph.decay g = None \/ kNNGraph.thresh g = 1 ->
     kNNGraph.build_kernel_to_data cdist g Y k
     = Raise (ValueError "Expected n_neighbors <= n_samples"))
    /\ (kNNGraph.decay g <> None -> kNNGraph.thresh g <> 1 ->
        kNNGraph.build_kernel_to_data cdist g Y k = Raise IndexError).
Proof.
  intros point cdist g Y k Hk.
  set (k' := match k with Some k' => k' | None => kNNGraph.knn g end) in *.
  assert (Hbin : Neighbors.kneighbors_graph cdist (kNNGraph.knn_tree g) Y k'
                 = Raise (ValueError "Expected n_neighbors <= n_samples")).
  { unfold Neighbors.kneighbors_graph, Neighbors.kneighbors. simpl.
    destruct (Nat.ltb_spec (length (Base.data_nu (kNNGraph.base g))) k');
      [reflexivity | lia]. }
  unfold kNNGraph.build_kernel_to_data. fold k'. split.
  - intros [Hd|Ht].
    + rewrite Hd. exact Hbin.
    + destruct (kNNGraph.decay g); [|exact Hbin].
      destruct (Req_dec_T (kNNGraph.thresh g) 1); [exact Hbin | contradiction].
  - intros Hd Ht. destruct (kNNGraph.decay g) as [dec|]; [|contradiction].
    destruct (Req_dec_T (kNNGraph.thresh g) 1) as [E|_]; [contradiction|].
    unfold kNNGraph.decay_kernel_to_data.
    rewrite kneighbors_Ok by (simpl; lia). cbn [bind].
    unfold kNNGraph.column.
    destruct (Z.ltb_spec (Z.of_nat k' - 1) 0); [lia|].
    destruct (Z.ltb_spec (Z.of_nat k' - 1)
                (Z.of_nat (Nat.min (k' * 20)
                             (length (Base.data_nu (kNNGraph.base g))))));
      [lia|].
    rewrite andb_false_r. reflexivity.
Qed.

Lemma kNNGraph_knn_exceeds_samples_witness :
  kNNGraph.build_kernel_to_data line_dist three_points [0]%Z (Some 4%nat)
  = Raise (ValueError "Expected n_neighbors <= n_samples")
  /\ kNNGraph.build_kernel_to_data line_dist decay_points [0]%Z (Some 4%nat)
     = Raise IndexError.
Proof.
  split.
  - apply (kNNGraph_knn_exceeds_samples Z line_dist three_points [0]%Z
             (Some 4%nat)); [simpl; lia | left; reflexivity].
  - apply (kNNGraph_knn_exceeds_samples Z line_dist decay_points [0]%Z
             (Some 4%nat)); [simpl; lia | discriminate | simpl; lra].
Defined.

(** ** kNNGraph: the rows of the connectivity matrix *)

Lemma sum_list_map_add {A : Type} (f h : A -> R) (l : list A) :
  sum_list (map (fun x => f x + h x) l)
  = sum_list (map f l) + sum_list (map h l).
Proof. induction l as [|x l IH]; simpl; [lra | rewrite IH; lra]. Qed.

Lemma sum_list_map_ext {A : Type} (f h : A -> R) (l : list A) :
  (forall x, In x l -> f x = h x) ->
  sum_list (map f l) = sum_list (map h l).
Proof.
  induction l as [|x l IH]; simpl; intros H; [reflexivity|].
  rewrite (H x) by (left; reflexivity). rewrite IH; [reflexivity|].
  intros y Hy. apply H. right. exact Hy.
Qed.

Lemma sum_list_one_hot (a s n : nat) :
  sum_list (map (fun j => if Nat.eqb j a then 1 else 0) (seq s n))
  = if ((s <=? a) && (a <? s + n))%nat then 1 else 0.
Proof.
  revert s. induction n as [|n IH]; intros s; simpl.
  - destruct (Nat.leb_spec s a); destruct (Nat.ltb_spec a (s + 0)); simpl;
      try reflexivity; lia.
  - rewrite IH.
    destruct (Nat.eqb_spec s a); destruct (Nat.leb_spec (S s) a);
      destruct (Nat.ltb_spec a (S s + n)); destruct (Nat.leb_spec s a);
      destruct (Nat.ltb_spec a (s + S n)); simpl; try lra; lia.
Qed.

(** Counting the columns a row names: one for each of its indices. *)
Lemma indicator_sum (l : list nat) (n : nat) :
  NoDup l -> (forall x, In x l -> (x < n)%nat) ->
  sum_list (map (fun j => if in_dec Nat.eq_dec j l then 1 else 0) (seq 0 n))
  = INR (length l).
Proof.
  intros Hnd. induction Hnd as [|a l Ha Hl IH]; intros Hb.
  - simpl length. simpl INR.
    induction (seq 0 n) as [|x s IHs]; [reflexivity|].
    cbn [map sum_list]. rewrite IHs.
    destruct (in_dec Nat.eq_dec x []); [contradiction | lra].
  - rewrite (sum_list_map_ext _
               (fun j => (if Nat.eqb j a then 1 else 0)
                         + (if in_dec Nat.eq_dec j l then 1 else 0))).
    + rewrite sum_list_map_add, sum_list_one_hot, IH.
      * assert (Ha' : (a < n)%nat) by (apply Hb; left; reflexivity).
        destruct (Nat.leb_spec 0 a); [|lia].
        destruct (Nat.ltb_spec a (0 + n)); [|lia].
        change (length (a :: l)) with (S (length l)). rewrite S_INR.
        simpl. lra.
      * intros x Hx. apply Hb. right. exact Hx.
    + intros j _. destruct (Nat.eqb_spec j a) as [E|Hne].
      * subst j.
        destruct (in_dec Nat.eq_dec a (a :: l)) as [_|Hout];
          [|exfalso; apply Hout; left; reflexivity].
        destruct (in_dec Nat.eq_dec a l); [contradiction | lra].
      * destruct (in_dec Nat.eq_dec j (a :: l)) as [[E|Hin]|Hout];
          [congruence| |]; destruct (in_dec Nat.eq_dec j l) as [Hin'|Hout'];
          try lra; try contradiction.
        exfalso. apply Hout. right. exact Hin'.
Qed.

(** X4.  In binary mode ([decay] is [None], or [thresh] is 1) and with
    [knn <= n_samples], [build_kernel_to_data(Y, knn)] returns a matrix of
    zeros and ones in which every row of [Y] holds exactly [knn] ones. *)
Theorem kNNGraph_binary_rows :
  forall (point : Type) (cdist : string -> point -> point -> R)
         (g : kNNGraph.t point) (Y : list point) (k : option nat),
    let k' := match k with Some k' => k' | None => kNNGraph.knn g end in
    kNNGraph.decay g = None \/ kNNGraph.thresh g = 1 ->
    (k' <= length (Base.data_nu (kNNGraph.base g)))%nat ->
    exists A,
      kNNGraph.build_kernel_to_data cdist g Y k = Ok A
      /\ forall i, (i < length Y)%nat ->
           (forall j, entry A i j = 0 \/ entry A i j = 1)
           /\ row_sum A i = INR k'.
Proof.
  intros point cdist g Y k k' Hmode Hk.
  assert (Hnb : Neighbors.kneighbors cdist (kNNGraph.knn_tree g) Y k'
                = Ok (map (fun y => firstn k'
                             (Neighbors.sort_by_dist
                                (Neighbors.all_distances cdist
                                   (kNNGraph.knn_tree g) y))) Y))
    by (apply kneighbors_Ok; exact Hk).
  destruct (kneighbors_graph_entry cdist _ _ _ _ Hnb)
    as [A [HA [_ [Hcols Hent]]]].
  exists A. split.
  - unfold kNNGraph.build_kernel_to_data. fold k'.
    destruct Hmode as [Hd|Ht].
    + rewrite Hd. exact HA.
    + destruct (kNNGraph.decay g); [|exact HA].
      destruct (Req_dec_T (kNNGraph.thresh g) 1); [exact HA | contradiction].
  - intros i Hi. split.
    + intros j. rewrite Hent.
      destruct (in_dec Nat.eq_dec j _); [right | left]; reflexivity.
    + unfold row_sum. rewrite Hcols.
      rewrite (sum_list_map_ext _ _ _ (fun j _ => Hent i j)).
      destruct (nth_error Y i) as [y|] eqn:Ey;
        [|apply nth_error_None in Ey; lia].
      assert (Hrow : nth i (map (fun y => firstn k'
                                   (Neighbors.sort_by_dist
                                      (Neighbors.all_distances cdist
                                         (kNNGraph.knn_tree g) y))) Y) []
                     = firstn k' (Neighbors.sort_by_dist
                                    (Neighbors.all_distances cdist
                                       (kNNGraph.knn_tree g) y))).
      { apply nth_error_nth. rewrite nth_error_map, Ey. reflexivity. }
      rewrite Hrow. rewrite indicator_sum.
      * rewrite length_map. rewrite kneighbors_row_length by exact Hk.
        reflexivity.
      * apply kneighbors_row_NoDup.
      * intros j Hj. eapply kneighbors_row_bound. exact Hj.
Qed.

Lemma kNNGraph_binary_rows_witness :
  exists A,
    kNNGraph.build_kernel_to_data line_dist three_points [2; 7]%Z None = Ok A
    /\ row_sum A 0 = 2 /\ row_sum A 1 = 2.
Proof.
  destruct (kNNGraph_binary_rows Z line_dist three_points [2; 7]%Z None)
    as [A [HA Hrows]].
  - left. reflexivity.
  - simpl. lia.
  - exists A. split; [exact HA|].
    split; [rewrite (proj2 (Hrows 0%nat ltac:(simpl; lia)))
           | rewrite (proj2 (Hrows 1%nat ltac:(simpl; lia)))]; simpl; lra.
Defined.

(** ** kNNGraph: parameters read and written back *)

Lemma with_same_base {point : Type} (g : kNNGraph.t point) :
  kNNGraph.with_base (kNNGraph.base g) g = g.
Proof. destruct g. reflexivity. Qed.

Lemma assign_same {array : Type} (k : string) (d : kwargs)
  (setter : pyval -> Base.DataGraph array -> Base.DataGraph array)
  (field : Base.DataGraph array -> pyval) (b : Base.DataGraph array) :
  (forall b', setter (field b') b' = b') ->
  lookup k d = Some (field b) ->
  Base.assign_if_given k d setter b = b.
Proof.
  intros Hsame Hk. unfold Base.assign_if_given. rewrite Hk. apply Hsame.
Qed.

(** X5.  [set_params], called with the dictionary [get_params] returns
    as its keywords, is never refused by kNNGraph's own
    checks and changes none of its attributes: every value it compares is
    the stored one, the three attributes it assigns get the values they
    hold, and the outcome is that of the base-class setter. *)
Theorem kNNGraph_set_params_get_params :
  forall (point : Type)
         (DataGraph_set_params :
            kwargs -> Base.DataGraph (list point)
            -> Base.DataGraph (list point) * result unit)
         (DataGraph_get_params : Base.DataGraph (list point) -> kwargs)
         (g : kNNGraph.t point),
    let params := kNNGraph.get_params DataGraph_get_params g in
    kNNGraph.set_params DataGraph_set_params params g
    = (kNNGraph.with_base
         (fst (DataGraph_set_params params (kNNGraph.base g))) g,
       snd (DataGraph_set_params params (kNNGraph.base g))).
Proof.
  intros point setp getp g params.
  assert (L : forall k v,
             lookup k (rev [("knn", PyInt (Z.of_nat (kNNGraph.knn g)));
                            ("decay", of_option_int (kNNGraph.decay g));
                            ("distance", PyStr (kNNGraph.distance g));
                            ("thresh", PyFloat (kNNGraph.thresh g));
                            ("n_jobs", Base.n_jobs (kNNGraph.base g));
                            ("random_state",
                             Base.random_state (kNNGraph.base g));
                            ("verbose", Base.verbose (kNNGraph.base g))])
             = Some v ->
             lookup k params = Some v).
  { intros k v H. unfold params, kNNGraph.get_params.
    rewrite lookup_update, H. reflexivity. }
  unfold kNNGraph.set_params.
  rewrite (updates_same "knn" params _ (L "knn" _ eq_refl)).
  rewrite (updates_same "decay" params _ (L "decay" _ eq_refl)).
  rewrite (updates_same "distance" params _ (L "distance" _ eq_refl)).
  rewrite (updates_same "thresh" params _ (L "thresh" _ eq_refl)).
  cbn [andb].
  rewrite (assign_same "n_jobs" params _ Base.n_jobs)
    by (first [intros []; reflexivity | apply L; reflexivity]).
  rewrite (assign_same "random_state" params _ Base.random_state)
    by (first [intros []; reflexivity | apply L; reflexivity]).
  rewrite (assign_same "verbose" params _ Base.verbose)
    by (first [intros []; reflexivity | apply L; reflexivity]).
  destruct (setp params (kNNGraph.base g)) as [b r]. reflexivity.
Qed.

(** ** kNNGraph: the neighbours found are the nearest *)

(** X6.  In binary mode the ones of a row mark the nearest fitted points:
    a sample whose entry is 1 is at most as far from the query point as any
    sample whose entry is 0. *)
Theorem kNNGraph_binary_nearest :
  forall (point : Type) (cdist : string -> point -> point -> R)
         (g : kNNGraph.t point) (Y : list point) (k : option nat)
         (A : matrix) (i j c : nat) (y xj xc : point),
    kNNGraph.decay g = None \/ kNNGraph.thresh g = 1 ->
    kNNGraph.build_kernel_to_data cdist g Y k = Ok A ->
    nth_error Y i = Some y ->
    nth_error (Base.data_nu (kNNGraph.base g)) j = Some xj ->
    nth_error (Base.data_nu (kNNGraph.base g)) c = Some xc ->
    entry A i j = 1 -> entry A i c = 0 ->
    cdist (kNNGraph.distance g) y xj <= cdist (kNNGraph.distance g) y xc.
Proof.
  intros point cdist g Y k A i j c y xj xc Hmode HA Hy Hj Hc Ej Ec.
  set (k' := match k with Some k' => k' | None => kNNGraph.knn g end) in *.
  set (t := kNNGraph.knn_tree g).
  assert (HA' : Neighbors.kneighbors_graph cdist t Y k' = Ok A).
  { unfold kNNGraph.build_kernel_to_data in HA. fold k' t in HA.
    destruct Hmode as [Hd|Ht].
    - rewrite Hd in HA. exact HA.
    - destruct (kNNGraph.decay g); [|exact HA].
      destruct (Req_dec_T (kNNGraph.thresh g) 1); [exact HA | contradiction]. }
  assert (Hnb : exists nb, Neighbors.kneighbors cdist t Y k' = Ok nb).
  { unfold Neighbors.kneighbors_graph in HA'. apply bind_Ok in HA'.
    destruct HA' as [nb [Hnb _]]. exists nb. exact Hnb. }
  destruct Hnb as [nb Hnb].
  destruct (kneighbors_graph_entry cdist _ _ _ _ Hnb) as [A' [E [_ [_ Hent]]]].
  rewrite HA' in E. injection E as <-.
  apply kneighbors_inv in Hnb. destruct Hnb as [_ ->].
  set (S := Neighbors.sort_by_dist (Neighbors.all_distances cdist t y)).
  assert (Hrow : nth i (map (fun y => firstn k'
                               (Neighbors.sort_by_dist
                                  (Neighbors.all_distances cdist t y))) Y) []
                 = firstn k' S).
  { apply nth_error_nth. rewrite nth_error_map, Hy. reflexivity. }
  rewrite Hent, Hrow in Ej, Ec.
  destruct (in_dec Nat.eq_dec j (map snd (firstn k' S))) as [Hin|_]; [|lra].
  destruct (in_dec Nat.eq_dec c (map snd (firstn k' S))) as [_|Hout]; [lra|].
  clear Ej Ec.
  apply in_map_iff in Hin. destruct Hin as [[d j'] [Ej' Hp]].
  simpl in Ej'. subst j'.
  assert (Hd : d = cdist (kNNGraph.distance g) y xj).
  { pose proof (In_firstn _ _ _ Hp) as Hp'.
    apply (Permutation_in _ (sort_by_dist_perm _)) in Hp'.
    apply all_distances_In in Hp'. destruct Hp' as [x [Hx ->]].
    simpl in Hx. rewrite Hj in Hx. injection Hx as <-. reflexivity. }
  assert (Hq : In (cdist (kNNGraph.distance g) y xc, c) S).
  { apply (Permutation_in _ (Permutation_sym (sort_by_dist_perm _))).
    apply all_distances_In. exists xc. split; [exact Hc | reflexivity]. }
  rewrite <- (firstn_skipn k' S) in Hq. apply in_app_or in Hq.
  destruct Hq as [Hq|Hq].
  - exfalso. apply Hout. apply in_map_iff.
    exists (cdist (kNNGraph.distance g) y xc, c). auto.
  - pose proof (sort_by_dist_sorted (Neighbors.all_distances cdist t y))
      as Hs. fold S in Hs. rewrite <- (firstn_skipn k' S) in Hs.
    pose proof (sorted_app_le _ _ _ _ Hs Hp Hq) as Hle.
    simpl in Hle. rewrite Hd in Hle. exact Hle.
Qed.

(** On the points 0, 1, 3 with [knn = 2], the query point 2: the samples
    1 and 3 are marked, the sample 0 is not, and 3 is nearer than 0. *)
Lemma kNNGraph_binary_nearest_witness :
  exists A,
    kNNGraph.build_kernel_to_data line_dist three_points [2]%Z None = Ok A
    /\ entry A 0 2 = 1 /\ entry A 0 0 = 0
    /\ line_dist "euclidean" 2 3 <= line_dist "euclidean" 2 0.
Proof.
  assert (E : exists A,
             kNNGraph.build_kernel_to_data line_dist three_points [2]%Z None
             = Ok A /\ entry A 0 2 = 1 /\ entry A 0 0 = 0).
  { eexists. split; [reflexivity|]. unfold line_dist.
    split; decide_R; simpl; lra. }
  destruct E as [A [HA [E2 E0]]]. exists A.
  split; [exact HA|]. split; [exact E2|]. split; [exact E0|].
  exact (kNNGraph_binary_nearest Z line_dist three_points [2]%Z None A
           0 2 0 2%Z 3%Z 0%Z (or_introl eq_refl) HA eq_refl eq_refl eq_refl
           E2 E0).
Defined.

(** ** TraditionalGraph: the setter *)

(** X7.  [TraditionalGraph.set_params] never changes [knn], [decay],
    [distance], [thresh] or [precomputed].  It raises its own
    [ValueError], leaving the object as it was, exactly when [precomputed]
    is given another value, or when the graph is precomputed and
    [distance], [knn] or [decay] is given another value.  In every other
    case the outcome is that of the base-class setter: on a graph built
    from data ([precomputed] is [None]) a changed [knn], [decay] or
    [distance] is not refused here, and is not stored either. *)
Theorem TraditionalGraph_set_params_spec :
  forall (DataGraph_set_params :
            kwargs -> Base.DataGraph matrix
            -> Base.DataGraph matrix * result unit)
         (params : kwargs) (g : TraditionalGraph.t),
    let refused :=
      (updates "precomputed" params
         (of_option_str (TraditionalGraph.precomputed g))
       || TraditionalGraph.is_some (TraditionalGraph.precomputed g)
          && (updates "distance" params (PyStr (TraditionalGraph.distance g))
              || updates "knn" params
                   (PyInt (Z.of_nat (TraditionalGraph.knn g)))
              || updates "decay" params
                   (of_option_int (TraditionalGraph.decay g))))%bool in
    let after := TraditionalGraph.set_params DataGraph_set_params params g in
    (TraditionalGraph.knn (fst after) = TraditionalGraph.knn g
     /\ TraditionalGraph.decay (fst after) = TraditionalGraph.decay g
     /\ TraditionalGraph.distance (fst after) = TraditionalGraph.distance g
     /\ TraditionalGraph.thresh (fst after) = TraditionalGraph.thresh g
     /\ TraditionalGraph.precomputed (fst after)
        = TraditionalGraph.precomputed g)
    /\ (refused = true ->
        fst after = g /\ exists msg, snd after = Raise (ValueError msg))
    /\ (refused = false ->
        after
        = (TraditionalGraph.with_base
             (fst (DataGraph_set_params params (TraditionalGraph.base g))) g,
           snd (DataGraph_set_params params (TraditionalGraph.base g))))
    /\ (TraditionalGraph.precomputed g = None ->
        lookup "precomputed" params = None -> refused = false).
Proof.
  intros setp params g refused after. subst refused after.
  unfold TraditionalGraph.set_params.
  destruct (updates "precomputed" params
              (of_option_str (TraditionalGraph.precomputed g))) eqn:Ep;
    destruct (TraditionalGraph.is_some (TraditionalGraph.precomputed g))
      eqn:Es;
    destruct (updates "distance" params (PyStr (TraditionalGraph.distance g)));
    destruct (updates "knn" params
                (PyInt (Z.of_nat (TraditionalGraph.knn g))));
    destruct (updates "decay" params
                (of_option_int (TraditionalGraph.decay g)));
    destruct (setp params (TraditionalGraph.base g)) as [b r];
    cbn [andb orb fst snd];
    (split; [repeat split|];
     split; [intros H;
             first [ discriminate H
                   | split; [reflexivity | eexists; reflexivity] ]|];
     split; [intros H; first [discriminate H | reflexivity]|];
     intros Hn Hl; try reflexivity;
     first [ rewrite Hn in Es; discriminate Es
           | unfold updates in Ep; rewrite Hl in Ep; discriminate Ep ]).
Qed.

(** X8.  [set_params], called with the dictionary [get_params] returns as
    its keywords, passes TraditionalGraph's own checks: the outcome is
    that of the base-class setter. *)
Theorem TraditionalGraph_set_params_get_params :
  forall (DataGraph_set_params :
            kwargs -> Base.DataGraph matrix
            -> Base.DataGraph matrix * result unit)
         (DataGraph_get_params : Base.DataGraph matrix -> kwargs)
         (g : TraditionalGraph.t),
    let params := TraditionalGraph.get_params DataGraph_get_params g in
    TraditionalGraph.set_params DataGraph_set_params params g
    = (TraditionalGraph.with_base
         (fst (DataGraph_set_params params (TraditionalGraph.base g))) g,
       snd (DataGraph_set_params params (TraditionalGraph.base g))).
Proof.
  intros setp getp g params.
  assert (L : forall k v,
             lookup k
               (rev [("knn", PyInt (Z.of_nat (TraditionalGraph.knn g)));
                     ("decay", of_option_int (TraditionalGraph.decay g));
                     ("distance", PyStr (TraditionalGraph.distance g));
                     ("precomputed",
                      of_option_str (TraditionalGraph.precomputed g))])
             = Some v ->
             lookup k params = Some v).
  { intros k v H. unfold params, TraditionalGraph.get_params.
    rewrite lookup_update, H. reflexivity. }
  unfold TraditionalGraph.set_params.
  rewrite (updates_same "precomputed" params _ (L "precomputed" _ eq_refl)).
  rewrite (updates_same "distance" params _ (L "distance" _ eq_refl)).
  rewrite (updates_same "knn" params _ (L "knn" _ eq_refl)).
  rewrite (updates_same "decay" params _ (L "decay" _ eq_refl)).
  cbn [andb].
  destruct (setp params (TraditionalGraph.base g)) as [b r]. reflexivity.
Qed.

(** ** TraditionalGraph: kernels to new data *)





(** X10.  On a graph built from data, [build_kernel] is
    [build_kernel_to_data] on the graph's own data, symmetrized and
    thresholded, errors included; the base class accepts the graph's own
    data as they are, and [squareform(pdist(X))] is [cdist(X, X)]. *)
Theorem TraditionalGraph_build_kernel_from_to_data :
  forall (pdist : string -> matrix -> matrix)
         (check : Base.DataGraph matrix -> matrix -> result matrix)
         (cdist : string -> matrix -> matrix -> matrix)
         (g : TraditionalGraph.t),
    let X := Base.data_nu (TraditionalGraph.base g) in
    TraditionalGraph.precomputed g = None ->
    check (TraditionalGraph.base g) X = Ok X ->
    cdist (TraditionalGraph.distance g) X X
    = pdist (TraditionalGraph.distance g) X ->
    TraditionalGraph.build_kernel pdist g
    = (A <- TraditionalGraph.build_kernel_to_data check cdist g X None ;;
       Ok (zero_below (TraditionalGraph.thresh g) (mdiv (madd A (T A)) 2))).
Proof.
  intros pdist check cdist g X Hp Hc Hd.
  unfold TraditionalGraph.build_kernel, TraditionalGraph.build_kernel_to_data.
  fold X. rewrite Hp, Hc. cbn [bind TraditionalGraph.is_some].
  rewrite Hd. simpl.
  destruct (TraditionalGraph.knn_max (TraditionalGraph.knn g)
              (pdist (TraditionalGraph.distance g) X)) as [eps|e];
    [|reflexivity].
  simpl. destruct (TraditionalGraph.decay g); reflexivity.
Qed.

Lemma TraditionalGraph_build_kernel_from_to_data_witness :
  TraditionalGraph.build_kernel (fun m X => line_cdist m X X) traditional_line
  = (A <- TraditionalGraph.build_kernel_to_data (fun _ Y => Ok Y) line_cdist
            traditional_line (column_of [0; 1; 3]) None ;;
     Ok (zero_below (1 / 10000) (mdiv (madd A (T A)) 2))).
Proof.
  exact (TraditionalGraph_build_kernel_from_to_data
           (fun m X => line_cdist m X X) (fun _ Y => Ok Y) line_cdist
           traditional_line eq_refl eq_refl eq_refl).
Defined.

(** ** TraditionalGraph: when a kernel is returned *)



(** ** LandmarkGraph: construction *)

(** X12.  [LandmarkGraph.__init__] raises a [ValueError] without reaching
    the base class when [n_landmark >= n_samples]; otherwise it hands on
    to the base-class constructor, with one warning exactly when
    [n_svd >= n_samples].  An object that was constructed has
    [n_landmark < n_samples]. *)
Theorem LandmarkGraph_init_spec :
  forall (B : Type) (DataGraph_init : matrix -> kwargs -> result B)
         (data : matrix) (n_landmark n_svd : nat) (kw : kwargs),
    let out := LandmarkGraph.__init__ DataGraph_init data n_landmark n_svd kw in
    ((nrows data <= n_landmark)%nat ->
     out = ([], Raise (ValueError
                  "n_landmark ({}) >= n_samples ({}). Use kNNGraph instead")))
    /\ ((n_landmark < nrows data)%nat ->
        snd out = (b <- DataGraph_init data kw ;; Ok (n_landmark, n_svd, b))
        /\ (fst out = [] <-> (n_svd < nrows data)%nat)
        /\ (length (fst out) <= 1)%nat)
    /\ (forall (nl ns : nat) (b : B),
           snd out = Ok (nl, ns, b) ->
           nl = n_landmark /\ ns = n_svd /\ (n_landmark < nrows data)%nat
           /\ DataGraph_init data kw = Ok b).
Proof.
  intros B init data nl ns kw out. subst out. unfold LandmarkGraph.__init__.
  destruct (Nat.leb_spec (nrows data) nl) as [Hle|Hlt].
  - split; [|split].
    + intros _. reflexivity.
    + intros H. lia.
    + intros nl' ns' b H. discriminate H.
  - split; [|split].
    + intros H. lia.
    + intros _. cbn [fst snd]. split; [reflexivity|].
      destruct (Nat.leb_spec (nrows data) ns) as [Hs|Hs]; simpl.
      * split; [|lia]. split; [discriminate | lia].
      * split; [|lia]. split; [intros _; exact Hs | reflexivity].
    + intros nl' ns' b H. cbn [snd] in H.
      destruct (init data kw) as [b'|e]; [|discriminate H].
      cbn [bind] in H. injection H as <- <- <-. auto.
Qed.

(** ** LandmarkGraph: the stored landmarks *)

(** X13.  [LandmarkGraph.set_params] stores a changed [n_landmark] or
    [n_svd] before it calls the base-class setter, and drops the stored
    landmarks only after that call has returned.  So when the base-class
    setter returns, the landmark operator is gone exactly if one of the two
    changed (and with it the transitions and the clusters, when all three
    were stored); when the base-class setter raises, the new values are
    already in place and the landmarks computed for the old ones are
    kept. *)
Theorem LandmarkGraph_set_params_spec :
  forall (DataGraph_set_params :
            kwargs -> LandmarkGraph.t -> LandmarkGraph.t * result unit)
         (new_landmark new_svd : option nat) (params : kwargs)
         (o : LandmarkGraph.obj),
    let g := LandmarkGraph.self o in
    let g1 := LandmarkGraph.mk
                (match new_landmark with
                 | Some v => v
                 | None => LandmarkGraph.n_landmark g
                 end)
                (match new_svd with
                 | Some v => v
                 | None => LandmarkGraph.n_svd g
                 end)
                (LandmarkGraph.random_state g) (LandmarkGraph.kernel g) in
    let reset :=
      (LandmarkGraph.changed new_landmark (LandmarkGraph.n_landmark g)
       || LandmarkGraph.changed new_svd (LandmarkGraph.n_svd g))%bool in
    let after :=
      LandmarkGraph.set_params DataGraph_set_params new_landmark new_svd
        params o in
    LandmarkGraph.self (fst after) = fst (DataGraph_set_params params g1)
    /\ (forall e, snd (DataGraph_set_params params g1) = Raise e ->
          snd after = Raise e
          /\ LandmarkGraph._landmark_op (fst after)
             = LandmarkGraph._landmark_op o
          /\ LandmarkGraph._transitions (fst after)
             = LandmarkGraph._transitions o
          /\ LandmarkGraph._clusters (fst after) = LandmarkGraph._clusters o)
    /\ (forall u, snd (DataGraph_set_params params g1) = Ok u ->
          snd after = Ok tt
          /\ (reset = true ->
              LandmarkGraph._landmark_op (fst after) = None
              /\ (LandmarkGraph._transitions o <> None ->
                  LandmarkGraph._landmark_op o <> None ->
                  LandmarkGraph._transitions (fst after) = None
                  /\ LandmarkGraph._clusters (fst after) = None))
          /\ (reset = false ->
              LandmarkGraph._landmark_op (fst after)
              = LandmarkGraph._landmark_op o
              /\ LandmarkGraph._transitions (fst after)
                 = LandmarkGraph._transitions o
              /\ LandmarkGraph._clusters (fst after)
                 = LandmarkGraph._clusters o)).
Proof.
  intros setp nl' ns' params o g g1 reset after.
  assert (E1 : LandmarkGraph.updated nl' (LandmarkGraph.n_landmark g)
               = match nl' with
                 | Some v => v
                 | None => LandmarkGraph.n_landmark g
                 end).
  { unfold LandmarkGraph.updated. destruct nl' as [v|]; [|reflexivity].
    destruct (Nat.eqb_spec v (LandmarkGraph.n_landmark g)); congruence. }
  assert (E2 : LandmarkGraph.updated ns' (LandmarkGraph.n_svd g)
               = match ns' with
                 | Some v => v
                 | None => LandmarkGraph.n_svd g
                 end).
  { unfold LandmarkGraph.updated. destruct ns' as [v|]; [|reflexivity].
    destruct (Nat.eqb_spec v (LandmarkGraph.n_svd g)); congruence. }
  subst after. unfold LandmarkGraph.set_params. fold g.
  rewrite E1, E2. fold g1. fold reset.
  destruct (setp params g1) as [g2 [u|e]]; cbn [fst snd].
  - destruct reset.
    + split.
      { unfold LandmarkGraph._reset_landmarks, LandmarkGraph.with_self.
        cbn [LandmarkGraph._landmark_op LandmarkGraph._transitions
             LandmarkGraph.self].
        destruct (LandmarkGraph._landmark_op o);
          [destruct (LandmarkGraph._transitions o)|]; reflexivity. }
      split; [intros e H; discriminate H|].
      intros u' _. split; [reflexivity|].
      split; [|intros H; discriminate H].
      intros _.
      unfold LandmarkGraph._reset_landmarks, LandmarkGraph.with_self.
      cbn [LandmarkGraph._landmark_op LandmarkGraph._transitions
           LandmarkGraph.self].
      destruct (LandmarkGraph._landmark_op o) as [M|] eqn:Eo;
        [destruct (LandmarkGraph._transitions o) as [P|] eqn:Et|];
        cbn [LandmarkGraph._landmark_op LandmarkGraph._transitions
             LandmarkGraph._clusters];
        (split; [first [reflexivity | exact Eo]|]);
        intros Ht Ho; first [contradiction | split; reflexivity].
    + split; [reflexivity|].
      split; [intros e H; discriminate H|].
      intros u' _. split; [reflexivity|].
      split; [intros H; discriminate H|].
      intros _. repeat split.
  - split; [reflexivity|].
    split; [|intros u H; discriminate H].
    intros e' H. injection H as <-. repeat split.
Qed.

(** On the graph of the two samples with its landmarks stored: a changed
    [n_landmark] that the base class refuses is stored, and the landmark
    operator of the old value is kept; accepted, the landmarks are
    dropped. *)
Lemma LandmarkGraph_set_params_spec_witness :
  let o := LandmarkGraph.store_landmark_op one_cluster fresh_landmarks in
  (let after := LandmarkGraph.set_params setter_refuses (Some 5%nat) None
                  [("n_landmark", PyInt 5)] o in
   LandmarkGraph.n_landmark (LandmarkGraph.self (fst after)) = 5%nat
   /\ LandmarkGraph._landmark_op (fst after) = LandmarkGraph._landmark_op o)
  /\ (let after := LandmarkGraph.set_params setter_accepts (Some 5%nat) None
                     [("n_landmark", PyInt 5)] o in
      LandmarkGraph.n_landmark (LandmarkGraph.self (fst after)) = 5%nat
      /\ LandmarkGraph._landmark_op (fst after) = None
      /\ LandmarkGraph._clusters (fst after) = None).
Proof.
  intros o. split.
  - destruct (LandmarkGraph_set_params_spec setter_refuses (Some 5%nat) None
                [("n_landmark", PyInt 5)] o) as [Hs [Hr _]].
    split; [rewrite Hs; reflexivity|].
    exact (proj1 (proj2 (Hr _ eq_refl))).
  - destruct (LandmarkGraph_set_params_spec setter_accepts (Some 5%nat) None
                [("n_landmark", PyInt 5)] o) as [Hs [_ Ho]].
    split; [rewrite Hs; reflexivity|].
    destruct (Ho tt eq_refl) as [_ [Hreset _]].
    destruct (Hreset eq_refl) as [H1 H2].
    split; [exact H1|].
    apply H2; discriminate.
Defined.

(** X14.  The [landmark_op] and [transitions] properties compute the
    landmarks at most once.  Read on an object that holds no landmark
    operator, [landmark_op] runs [build_landmark_op] and stores the
    operator, the transitions and the clusters of that one run; from then
    on either property returns the stored matrix and leaves the object as
    it is, whatever the clustering step would return now. *)
Theorem LandmarkGraph_properties_cached :
  forall (spectral_clusters : matrix -> nat -> nat -> pyval -> list Z)
         (o : LandmarkGraph.obj),
    LandmarkGraph._landmark_op o = None ->
    let L := LandmarkGraph.build_landmark_op spectral_clusters
               (LandmarkGraph.self o) in
    let o1 := snd (LandmarkGraph.landmark_op_property spectral_clusters o) in
    fst (LandmarkGraph.landmark_op_property spectral_clusters o)
    = LandmarkGraph.landmark_op L
    /\ o1 = LandmarkGraph.mkObj (LandmarkGraph.self o)
              (Some (LandmarkGraph.landmark_op L))
              (Some (LandmarkGraph.transitions L))
              (Some (LandmarkGraph.clusters L))
    /\ forall other : matrix -> nat -> nat -> pyval -> list Z,
         LandmarkGraph.landmark_op_property other o1
         = (LandmarkGraph.landmark_op L, o1)
         /\ LandmarkGraph.transitions_property other o1
            = (LandmarkGraph.transitions L, o1).
Proof.
  intros sc o Hnone L o1. subst o1.
  assert (E : LandmarkGraph.landmark_op_property sc o
              = (LandmarkGraph.landmark_op L,
                 LandmarkGraph.store_landmark_op sc o)).
  { unfold LandmarkGraph.landmark_op_property. rewrite Hnone. reflexivity. }
  rewrite E. cbn [fst snd]. split; [reflexivity|]. split; [reflexivity|].
  intros other. split; reflexivity.
Qed.

Lemma LandmarkGraph_properties_cached_witness :
  let o1 := snd (LandmarkGraph.landmark_op_property one_cluster
                   fresh_landmarks) in
  LandmarkGraph.transitions_property (fun _ _ _ _ => [0; 1]%Z) o1
  = (LandmarkGraph.transitions
       (LandmarkGraph.build_landmark_op one_cluster one_landmark), o1).
Proof.
  intros o1.
  exact (proj2 (proj2 (proj2 (LandmarkGraph_properties_cached one_cluster
                                fresh_landmarks eq_refl))
                 (fun _ _ _ _ => [0; 1]%Z))).
Defined.

(** ** LandmarkGraph: transitions of new data *)

(** X15.  [LandmarkGraph.extend_to_data], once the kernel to the new data
    is built: while the clusters are not stored it raises
    [AttributeError]; with one cluster id per column it returns a matrix
    with one row per new sample and one column per realized cluster, and
    every row whose affinities are non-negative and not all zero sums
    to 1. *)
Theorem LandmarkGraph_extend_to_data_spec :
  forall (D : Type)
         (build_kernel_to_data :
            LandmarkGraph.t -> D -> kwargs -> result matrix)
         (o : LandmarkGraph.obj) (data : D) (kw : kwargs) (K : matrix),
    build_kernel_to_data (LandmarkGraph.self o) data kw = Ok K ->
    (LandmarkGraph._clusters o = None ->
     LandmarkGraph.extend_to_data build_kernel_to_data o data kw
     = AttributeError "_clusters")
    /\ (forall cl,
           LandmarkGraph._clusters o = Some cl -> cl <> [] ->
           length cl = ncols K ->
           exists P,
             LandmarkGraph.extend_to_data build_kernel_to_data o data kw
             = Returned P
             /\ shape P = (nrows K, length (np_unique cl))
             /\ forall y,
                  (forall c, (c < ncols K)%nat -> 0 <= entry K y c) ->
                  (exists c, (c < ncols K)%nat /\ 0 < entry K y c) ->
                  row_sum P y = 1).
Proof.
  intros D bk o data kw K HK. unfold LandmarkGraph.extend_to_data.
  rewrite HK. split.
  - intros ->. reflexivity.
  - intros cl -> Hne Hlen.
    assert (Hids : np_unique cl <> []).
    { destruct cl as [|v cl]; [contradiction|].
      intros E. assert (Hin : In v (np_unique (v :: cl)))
        by (apply np_unique_In; left; reflexivity).
      rewrite E in Hin. contradiction. }
    destruct (np_unique cl) as [|id ids] eqn:Eu; [contradiction|].
    rewrite <- Eu. rewrite Hlen, Nat.eqb_refl.
    eexists. split; [reflexivity|]. split; [reflexivity|].
    intros y Hnn [c [Hc Hpos]]. apply normalize_row_sum.
    + intros a _. simpl. apply sum_list_nonneg, Forall_forall.
      intros x Hx. apply in_map_iff in Hx. destruct Hx as [c' [<- Hc']].
      apply Hnn. rewrite <- Hlen. eapply mask_bound. exact Hc'.
    + destruct (nth_error cl c) as [v|] eqn:Ev;
        [|apply nth_error_None in Ev; lia].
      assert (Hin : In v (np_unique cl))
        by (apply np_unique_In; eapply nth_error_In; exact Ev).
      destruct (In_nth _ _ 0%Z Hin) as [a [Ha Hnth]].
      exists a. split; [exact Ha|].
      eapply Rlt_le_trans; [exact Hpos|]. simpl.
      apply sum_list_ge_member.
      * apply Forall_forall. intros x Hx. apply in_map_iff in Hx.
        destruct Hx as [c' [<- Hc']].
        apply Hnn. rewrite <- Hlen. eapply mask_bound. exact Hc'.
      * apply in_map_iff. exists c. split; [reflexivity|].
        apply mask_In. rewrite Hnth. exact Ev.
Qed.

(** The two samples again as new data, the kernel to them being the
    graph's own: an error before the landmarks are computed, a row that
    sums to 1 afterwards. *)
Lemma LandmarkGraph_extend_to_data_spec_witness :
  let kernel_of := fun (g : LandmarkGraph.t) (_ : unit) (_ : kwargs) =>
                     Ok (LandmarkGraph.kernel g) in
  LandmarkGraph.extend_to_data kernel_of fresh_landmarks tt []
  = AttributeError "_clusters"
  /\ exists P,
       LandmarkGraph.extend_to_data kernel_of
         (LandmarkGraph.store_landmark_op one_cluster fresh_landmarks) tt []
       = Returned P
       /\ row_sum P 0 = 1.
Proof.
  intros kernel_of. split.
  - exact (proj1 (LandmarkGraph_extend_to_data_spec unit kernel_of
                    fresh_landmarks tt [] two_sample_kernel eq_refl) eq_refl).
  - destruct (proj2 (LandmarkGraph_extend_to_data_spec unit kernel_of
                       (LandmarkGraph.store_landmark_op one_cluster
                          fresh_landmarks) tt [] two_sample_kernel eq_refl)
                [0; 0]%Z eq_refl) as [P [HP [_ Hrow]]].
    + discriminate.
    + reflexivity.
    + exists P. split; [exact HP|]. apply Hrow.
      * intros c _. simpl. destruct c; simpl; lra.
      * exists 0%nat. split; [simpl; lia | simpl; lra].
Defined.

(** ** LandmarkGraph: the landmark operator is a diffusion operator *)

Lemma sum_list_map_scale {A : Type} (c : R) (f : A -> R) (l : list A) :
  sum_list (map (fun x => c * f x) l) = c * sum_list (map f l).
Proof. induction l as [|x l IH]; simpl; [lra | rewrite IH; lra]. Qed.

Lemma sum_list_zero {A : Type} (l : list A) :
  sum_list (map (fun _ => 0) l) = 0.
Proof. induction l as [|x l IH]; simpl; [reflexivity | rewrite IH; lra]. Qed.

(** Summing over rows and then columns, or the other way round. *)
Lemma sum_list_swap {A B : Type} (f : A -> B -> R) (la : list A)
  (lb : list B) :
  sum_list (map (fun a => sum_list (map (fun b => f a b) lb)) la)
  = sum_list (map (fun b => sum_list (map (fun a => f a b) la)) lb).
Proof.
  induction la as [|a la IH]; simpl.
  - symmetry. apply sum_list_zero.
  - rewrite IH. symmetry. apply sum_list_map_add.
Qed.

(** The product of two matrices with unit row sums has unit row sums. *)
Lemma dot_row_sum (P Q : matrix) (a : nat) :
  row_sum P a = 1 ->
  (forall k, (k < ncols P)%nat -> row_sum Q k = 1) ->
  row_sum (dot P Q) a = 1.
Proof.
  intros HP HQ. unfold row_sum, dot. cbn [ncols entry].
  rewrite (sum_list_swap (fun j k => entry P a k * entry Q k j)).
  rewrite (sum_list_map_ext _ (fun k => entry P a k * 1)).
  - rewrite (sum_list_map_ext (fun k => entry P a k * 1) (entry P a))
      by (intros; lra).
    exact HP.
  - intros k Hk. apply in_seq in Hk.
    rewrite (sum_list_map_scale (entry P a k) (fun j => entry Q k j)).
    f_equal. apply HQ. lia.
Qed.

Lemma l1_norm_nonneg (X : matrix) (i : nat) : 0 <= l1_norm X i.
Proof.
  unfold l1_norm. apply sum_list_nonneg, Forall_forall.
  intros x Hx. apply in_map_iff in Hx. destruct Hx as [j [<- _]].
  apply Rabs_pos.
Qed.

Lemma normalize_nonneg (X : matrix) (i j : nat) :
  0 <= entry X i j -> 0 <= entry (normalize X) i j.
Proof.
  intros H. simpl. destruct (Req_dec_T (l1_norm X i) 0) as [_|Hne].
  - lra.
  - pose proof (l1_norm_nonneg X i). apply div_nonneg; assumption.
Qed.

(** X16.  On a kernel that is square and non-negative with a positive
    diagonal, and a clustering with one cluster id per sample, the landmark
    operator [build_landmark_op] stores is row-stochastic: its entries are
    in [0, 1] and every row sums to 1. *)
Theorem LandmarkGraph_landmark_op_stochastic :
  forall (spectral_clusters : matrix -> nat -> nat -> pyval -> list Z)
         (g : LandmarkGraph.t),
    let K := LandmarkGraph.kernel g in
    let L := LandmarkGraph.build_landmark_op spectral_clusters g in
    let m := length (np_unique (LandmarkGraph.clusters L)) in
    ncols K = nrows K ->
    (forall i j, (i < nrows K)%nat -> (j < nrows K)%nat -> 0 <= entry K i j) ->
    (forall i, (i < nrows K)%nat -> 0 < entry K i i) ->
    length (LandmarkGraph.clusters L) = nrows K ->
    forall a, (a < m)%nat ->
      row_sum (LandmarkGraph.landmark_op L) a = 1
      /\ forall b, (b < m)%nat ->
           0 <= entry (LandmarkGraph.landmark_op L) a b <= 1.
Proof.
  intros sc g K L m Hsq Hnn Hdiag Hlen a Ha.
  set (cl := LandmarkGraph.clusters L) in *.
  set (CS := LandmarkGraph.cluster_sums K cl (np_unique cl)).
  assert (Hop : LandmarkGraph.landmark_op L
                = dot (normalize CS) (normalize (T CS))) by reflexivity.
  assert (Hsum : row_sum (LandmarkGraph.landmark_op L) a = 1).
  { rewrite Hop. apply dot_row_sum.
    - apply (pmn_row_sum K cl Hsq Hnn Hdiag Hlen a Ha).
    - intros k Hk. apply (pnm_row_sum K cl Hsq Hnn Hdiag Hlen k).
      simpl in Hk. rewrite Hsq in Hk. exact Hk. }
  split; [exact Hsum|].
  assert (Hent : forall b, 0 <= entry (LandmarkGraph.landmark_op L) a b).
  { intros b. rewrite Hop. unfold dot. cbn [entry].
    apply sum_list_nonneg, Forall_forall. intros x Hx.
    apply in_map_iff in Hx. destruct Hx as [k [<- Hk]].
    apply in_seq in Hk.
    assert (Hk' : (k < nrows K)%nat) by (simpl in Hk; rewrite Hsq in Hk; lia).
    apply Rmult_le_pos; apply normalize_nonneg.
    - apply (cluster_sums_nonneg K cl Hnn Hlen (np_unique cl) a k Hk').
    - change (entry (T CS) k b) with (entry CS b k).
      apply (cluster_sums_nonneg K cl Hnn Hlen (np_unique cl) b k Hk'). }
  intros b Hb. split; [apply Hent|].
  rewrite <- Hsum. unfold row_sum.
  apply sum_list_ge_member.
  - apply Forall_forall. intros x Hx. apply in_map_iff in Hx.
    destruct Hx as [j [<- _]]. apply Hent.
  - apply in_map_iff. exists b. split; [reflexivity|].
    apply in_seq. rewrite Hop. simpl. fold m. lia.
Qed.

Lemma LandmarkGraph_landmark_op_stochastic_witness :
  let L := LandmarkGraph.build_landmark_op one_cluster one_landmark in
  row_sum (LandmarkGraph.landmark_op L) 0 = 1
  /\ 0 <= entry (LandmarkGraph.landmark_op L) 0 0 <= 1.
Proof.
  intros L.
  destruct (LandmarkGraph_landmark_op_stochastic one_cluster one_landmark)
    with (a := 0%nat) as [Hsum Hent].
  - reflexivity.
  - intros i j _ _. simpl. destruct (Nat.eqb i j); lra.
  - intros i _. simpl. rewrite Nat.eqb_refl. lra.
  - reflexivity.
  - simpl. lia.
  - split; [exact Hsum|]. apply Hent. simpl. lia.
Defined.

(** ** MNNGraph: range of the kernel *)

Lemma fold_left_Rmax_member (l : list R) (x y : R) :
  y = x \/ In y l -> y <= fold_left Rmax l x.
Proof.
  revert x. induction l as [|z l IH]; intros x [E|Hin]; simpl.
  - subst. lra.
  - contradiction.
  - subst. eapply Rle_trans; [apply Rmax_l | apply fold_left_Rmax_ge].
  - destruct Hin as [<-|Hin].
    + eapply Rle_trans; [apply Rmax_r | apply fold_left_Rmax_ge].
    + apply IH. right. exact Hin.
Qed.

Lemma fold_left_Rmin_le (l : list R) (x : R) : fold_left Rmin l x <= x.
Proof.
  revert x. induction l as [|z l IH]; intros x; simpl; [lra|].
  eapply Rle_trans; [apply IH | apply Rmin_l].
Qed.

Lemma fold_left_Rmin_member (l : list R) (x y : R) :
  y = x \/ In y l -> fold_left Rmin l x <= y.
Proof.
  revert x. induction l as [|z l IH]; intros x [E|Hin]; simpl.
  - subst. lra.
  - contradiction.
  - subst. eapply Rle_trans; [apply fold_left_Rmin_le | apply Rmin_l].
  - destruct Hin as [<-|Hin].
    + eapply Rle_trans; [apply fold_left_Rmin_le | apply Rmin_r].
    + apply IH. right. exact Hin.
Qed.

Lemma np_max_member (l : list R) (y : R) : In y l -> y <= np_max l.
Proof.
  destruct l as [|x l]; simpl; [contradiction|].
  intros [<-|Hin]; apply fold_left_Rmax_member; auto.
Qed.

Lemma np_min_member (l : list R) (y : R) : In y l -> MNNGraph.np_min l <= y.
Proof.
  destruct l as [|x l]; simpl; [contradiction|].
  intros [<-|Hin]; apply fold_left_Rmin_member; auto.
Qed.

Lemma entries_member (G : matrix) (i j : nat) :
  (i < nrows G)%nat -> (j < ncols G)%nat ->
  In (entry G i j) (MNNGraph.entries G).
Proof.
  intros Hi Hj. unfold MNNGraph.entries. apply in_flat_map.
  exists i. split; [apply in_seq; lia|].
  apply in_map. apply in_seq. lia.
Qed.

(** What the constructor's checks leave of [gamma]: a number in [0, 1], or
    a matrix over the batches with entries in [0, 1]. *)
Lemma init_checks_gamma {point : Type} (g : MNNGraph.t point) :
  MNNGraph.__init__checks g = Ok tt ->
  (forall x, MNNGraph.gamma g = MNNGraph.GammaNum x -> 0 <= x <= 1)
  /\ (forall G, MNNGraph.gamma g = MNNGraph.GammaMatrix G ->
        forall i j, (i < length (MNNGraph.samples g))%nat ->
                    (j < length (MNNGraph.samples g))%nat ->
                    0 <= entry G i j <= 1).
Proof.
  unfold MNNGraph.__init__checks.
  destruct (negb _); [discriminate|].
  destruct (length (MNNGraph.samples g) =? 1)%nat; [discriminate|].
  intros H. split.
  - intros x Hx. rewrite Hx in H.
    destruct (Rlt_dec x 0); [discriminate|].
    destruct (Rlt_dec 1 x); [discriminate|]. lra.
  - intros G HG i j Hi Hj. rewrite HG in H.
    destruct (Nat.eqb_spec (nrows G) (length (MNNGraph.samples g)))
      as [Er|]; [|discriminate].
    destruct (Nat.eqb_spec (ncols G) (length (MNNGraph.samples g)))
      as [Ec|]; [|discriminate].
    cbn [andb negb] in H.
    destruct (Rlt_dec 1 (np_max (MNNGraph.entries G))) as [|Hmax];
      [discriminate|].
    destruct (Rlt_dec (MNNGraph.np_min (MNNGraph.entries G)) 0) as [|Hmin];
      [discriminate|].
    assert (Hin : In (entry G i j) (MNNGraph.entries G))
      by (apply entries_member; lia).
    pose proof (np_max_member _ _ Hin). pose proof (np_min_member _ _ Hin).
    lra.
Qed.

Lemma blend_entries_range (gm x y : R) :
  0 <= gm <= 1 -> 0 <= x <= 1 -> 0 <= y <= 1 ->
  0 <= blend_entries gm x y <= 1.
Proof.
  intros Hg Hx Hy. unfold blend_entries.
  assert (0 <= Rmin x y <= 1)
    by (unfold Rmin; destruct (Rle_dec x y); lra).
  assert (0 <= Rmax x y <= 1)
    by (unfold Rmax; destruct (Rle_dec x y); lra).
  split; nra.
Qed.

Section MNNRange.

Context {point : Type}.
Variable cdist : string -> point -> point -> R.
Variable g : MNNGraph.t point.

Hypothesis dist_nonneg : forall m x y, 0 <= cdist m x y.
Hypothesis checked : MNNGraph.__init__checks g = Ok tt.
Hypothesis labelled : MNNGraph.canonical g.
Hypothesis beta_range : 0 <= MNNGraph.beta g <= 1.

Let n : nat := length (Base.data_nu (MNNGraph.base g)).

(** A kernel to data, binary or with decay, has its entries in [0, 1]. *)
Lemma to_data_unit_range (h : kNNGraph.t point) (Y : list point)
  (k : option nat) (A : matrix) (i j : nat) :
  kNNGraph.build_kernel_to_data cdist h Y k = Ok A ->
  (i < length Y)%nat -> 0 <= entry A i j <= 1.
Proof.
  unfold kNNGraph.build_kernel_to_data. intros HA Hi.
  assert (Hbin : forall k',
             Neighbors.kneighbors_graph cdist (kNNGraph.knn_tree h) Y k'
             = Ok A -> 0 <= entry A i j <= 1).
  { intros k' H.
    assert (Hnb : exists nb,
               Neighbors.kneighbors cdist (kNNGraph.knn_tree h) Y k' = Ok nb).
    { unfold Neighbors.kneighbors_graph in H. apply bind_Ok in H.
      destruct H as [nb [Hnb _]]. exists nb. exact Hnb. }
    destruct Hnb as [nb Hnb].
    destruct (kneighbors_graph_entry cdist _ _ _ _ Hnb)
      as [A' [E [_ [_ Hent]]]].
    rewrite H in E. injection E as <-. rewrite Hent.
    destruct (in_dec Nat.eq_dec j _); lra. }
  destruct (kNNGraph.decay h) as [dec|]; [|eapply Hbin; exact HA].
  destruct (Req_dec_T (kNNGraph.thresh h) 1); [eapply Hbin; exact HA|].
  apply (decay_kernel_to_data_range cdist h dist_nonneg dec Y _ A HA i j Hi).
Qed.

Lemma assembled_range (K : matrix) (r c : nat) :
  MNNGraph.assemble cdist g = Ok K -> (r < n)%nat -> (c < n)%nat ->
  0 <= entry K r c <= 1.
Proof.
  intros HK Hr Hc.
  pose proof (proj1 (init_checks_inv g checked)) as Hlen.
  destruct (canonical_cover g r labelled) as [i [Hi Hri]];
    [rewrite Hlen; exact Hr|].
  destruct (canonical_cover g c labelled) as [j [Hj Hcj]];
    [rewrite Hlen; exact Hc|].
  rewrite <- (canonical_batch g i labelled Hi) in Hri.
  rewrite <- (canonical_batch g j labelled Hj) in Hcj.
  destruct (proj2 (assemble_blocks cdist g K labelled HK) i j r c Hi Hj
              Hri Hcj) as [V [a [b [HV [Ea [_ ->]]]]]].
  unfold MNNGraph.block in HV. apply bind_Ok in HV.
  destruct HV as [A [HA HV]]. cbn [fst snd] in HA, HV.
  assert (HAr : 0 <= entry A a b <= 1).
  { apply (to_data_unit_range _ _ _ A a b HA). simpl.
    rewrite take_rows_length by (apply batch_bound; exact checked).
    apply (index_of_Some _ _ _ Ea). }
  injection HV as <-.
  destruct (i =? j)%nat; simpl; [nra | exact HAr].
Qed.

Lemma MNNGraph_range (K : matrix) :
  MNNGraph.build_kernel cdist g = Ok K ->
  shape K = (n, n)
  /\ forall r c, (r < n)%nat -> (c < n)%nat -> 0 <= entry K r c <= 1.
Proof.
  intros H. unfold MNNGraph.build_kernel in H. apply bind_Ok in H.
  destruct H as [K0 [HK0 H]].
  pose proof (assemble_shape cdist g K0 HK0) as Hsh0.
  pose proof (fun r c => assembled_range K0 r c HK0) as H0.
  destruct (init_checks_inv g checked) as [Hlen Hstr].
  destruct (init_checks_gamma g checked) as [Hnum Hmat].
  unfold MNNGraph.symmetrize in H.
  destruct (MNNGraph.gamma g) as [s|x|G] eqn:Eg.
  - destruct (Hstr s eq_refl) as [-> | ->]; simpl in H; injection H as <-.
    + split; [exact Hsh0|]. intros r c Hr Hc. simpl.
      pose proof (H0 r c Hr Hc). pose proof (H0 c r Hc Hr). lra.
    + split; [exact Hsh0|]. intros r c Hr Hc. simpl.
      pose proof (H0 r c Hr Hc). pose proof (H0 c r Hc Hr). nra.
  - injection H as <-. split; [exact Hsh0|]. intros r c Hr Hc.
    apply (blend_entries_range x (entry K0 r c) (entry K0 c r));
      [apply Hnum; reflexivity | apply H0; assumption
      | apply H0; assumption].
  - destruct (symmetrize_pairs_spec g G
                (MNNGraph.upper_pairs (length (MNNGraph.samples g))) K0)
      as [K' [E [Hsh Hent]]].
    + apply upper_pairs_NoDup.
    + apply Forall_forall. intros [i j] Hp. apply upper_pairs_In in Hp.
      simpl. lia.
    + rewrite E in H. injection H as <-.
      split; [rewrite Hsh; exact Hsh0|].
      intros r c Hr Hc.
      destruct (canonical_cover g r labelled) as [i [Hi Hri]];
        [rewrite Hlen; exact Hr|].
      destruct (canonical_cover g c labelled) as [j [Hj Hcj]];
        [rewrite Hlen; exact Hc|].
      destruct (Nat.le_gt_cases i j) as [Hij|Hji].
      * assert (Hin : In (i, j)
                  (MNNGraph.upper_pairs (length (MNNGraph.samples g))))
          by (apply upper_pairs_In; lia).
        rewrite (proj1 (Hent r c) i j Hin Hri Hcj).
        apply blend_entries_range;
          [apply (Hmat G eq_refl); assumption | apply H0; assumption
          | apply H0; assumption].
      * assert (Hin : In (j, i)
                  (MNNGraph.upper_pairs (length (MNNGraph.samples g))))
          by (apply upper_pairs_In; lia).
        rewrite (proj1 (proj2 (Hent r c)) j i Hin Hri Hcj).
        apply blend_entries_range;
          [apply (Hmat G eq_refl); assumption | apply H0; assumption
          | apply H0; assumption].
Qed.

End MNNRange.

(** X17.  For an MNNGraph that passed the constructor's checks, with
    batches labelled [0 .. B-1], [beta] in [0, 1] and a non-negative
    metric (in decay mode with no bandwidth equal to zero), the matrix
    [build_kernel] returns is [n_samples] by [n_samples] and all its
    entries are in [0, 1], for every symmetrization [gamma]. *)
Theorem MNNGraph_kernel_range :
  forall (point : Type) (cdist : string -> point -> point -> R)
         (g : MNNGraph.t point) (K : matrix),
    (forall m x y, 0 <= cdist m x y) ->
    MNNGraph.__init__checks g = Ok tt ->
    MNNGraph.canonical g ->
    0 <= MNNGraph.beta g <= 1 ->
    (MNNGraph.knn_decay g <> None -> MNNGraph.knn_thresh g <> 1 ->
     forall i j bw,
       (i < length (MNNGraph.samples g))%nat ->
       (j < length (MNNGraph.samples g))%nat ->
       kNNGraph.bandwidths cdist (subgraph g j)
         (Base.data_nu (kNNGraph.base (subgraph g i)))
         (nth i (MNNGraph.weighted_knn g) 0%nat) = Ok bw ->
       Forall (fun b => 0 < b) bw) ->
    MNNGraph.build_kernel cdist g = Ok K ->
    shape K = (length (Base.data_nu (MNNGraph.base g)),
               length (Base.data_nu (MNNGraph.base g)))
    /\ forall r c,
         (r < length (Base.data_nu (MNNGraph.base g)))%nat ->
         (c < length (Base.data_nu (MNNGraph.base g)))%nat ->
         0 <= entry K r c <= 1.
Proof.
  intros point cdist g K Hnn Hchk Hcan Hbeta _ HK.
  exact (MNNGraph_range cdist g Hnn Hchk Hcan Hbeta K HK).
Qed.

Lemma MNNGraph_kernel_range_witness :
  exists K,
    MNNGraph.build_kernel line_dist two_batches = Ok K
    /\ shape K = (4%nat, 4%nat)
    /\ 0 <= entry K 0 2 <= 1.
Proof.
  assert (E : exists K, MNNGraph.build_kernel line_dist two_batches = Ok K)
    by (eexists; reflexivity).
  destruct E as [K HK]. exists K. split; [exact HK|].
  destruct (MNNGraph_kernel_range Z line_dist two_batches K) as [Hsh Hent].
  - apply line_dist_nonneg.
  - unfold MNNGraph.__init__checks. simpl.
    destruct (Rlt_dec (99 / 100) 0); [lra|].
    destruct (Rlt_dec 1 (99 / 100)); [lra|]. reflexivity.
  - reflexivity.
  - simpl. lra.
  - intros Hd. exfalso. apply Hd. reflexivity.
  - exact HK.
  - split; [exact Hsh|]. apply Hent; simpl; lia.
Defined.

(** ** MNNGraph: the setter *)

(** X18.  Once [build_kernel] has stored the subgraphs,
    [MNNGraph.set_params] never returns: either one of its checks raises
    and the object is as before, or the checks pass, the keywords
    [n_jobs], [random_state] and [verbose] that were given are stored in
    [knn_args], and the update of the first subgraph raises [TypeError].
    The base-class setter is not reached, and the graph's own attributes
    are never changed. *)
Theorem MNNGraph_set_params_never_returns :
  forall (point : Type)
         (DataGraph_set_params :
            kwargs -> Base.DataGraph (list point)
            -> Base.DataGraph (list point) * result unit)
         (ndarray_ne : pyval -> matrix -> result bool)
         (params : kwargs) (o : MNNGraph.obj point)
         (first : kNNGraph.t point) (others : list (kNNGraph.t point)),
    MNNGraph.stored_subgraphs o = Some (first :: others) ->
    let after :=
      MNNGraph.set_params DataGraph_set_params ndarray_ne params o in
    ((exists e, snd after = Raised e /\ fst after = o)
     \/ (snd after = Raised TypeError
         /\ fst after
            = MNNGraph.mkObj (MNNGraph.self o) (MNNGraph.adaptive_k o)
                (MNNGraph.store_other_args params (MNNGraph.knn_args o))
                (MNNGraph.stored_subgraphs o)))
    /\ (forall u, snd after <> Returned u)
    /\ forall other_setter,
         MNNGraph.set_params other_setter ndarray_ne params o = after.
Proof.
  intros point setp nne params o first others Hsub after. subst after.
  unfold MNNGraph.set_params. rewrite Hsub.
  destruct (updates "beta" params _).
  { split; [left; eexists; split; reflexivity|].
    split; [intros u H; discriminate H | reflexivity]. }
  destruct (match lookup "gamma" params with
            | Some v => MNNGraph.gamma_differs nne v
                          (MNNGraph.gamma (MNNGraph.self o))
            | None => Ok false
            end) as [[|]|e].
  - split; [left; eexists; split; reflexivity|].
    split; [intros u H; discriminate H | reflexivity].
  - destruct (updates "adaptive_k" params _).
    { split; [left; eexists; split; reflexivity|].
      split; [intros u H; discriminate H | reflexivity]. }
    destruct (existsb _ _).
    { split; [left; eexists; split; reflexivity|].
      split; [intros u H; discriminate H | reflexivity]. }
    split; [right; split; reflexivity|].
    split; [intros u H; discriminate H | reflexivity].
  - split; [left; eexists; split; reflexivity|].
    split; [intros u H; discriminate H | reflexivity].
Qed.

(** On the two batches with their subgraphs stored, [set_params(n_jobs=2)]
    stores the keyword and raises [TypeError]. *)
Lemma MNNGraph_set_params_never_returns_witness :
  let after := MNNGraph.set_params setter_accepts_points ambiguous_truth
                 [("n_jobs", PyInt 2)] two_batches_built in
  snd after = Raised TypeError
  /\ MNNGraph.knn_args (fst after) = [("n_jobs", PyInt 2)].
Proof.
  intros after.
  destruct (MNNGraph_set_params_never_returns Z setter_accepts_points
              ambiguous_truth [("n_jobs", PyInt 2)] two_batches_built
              (subgraph two_batches 0) [subgraph two_batches 1] eq_refl)
    as [[[e [He Ho]]|[He Ho]] _].
  - exfalso. apply (f_equal MNNGraph.knn_args) in Ho.
    unfold MNNGraph.set_params in Ho. simpl in Ho. discriminate Ho.
  - fold after in He, Ho. split; [exact He|]. rewrite Ho. reflexivity.
Defined.

(** X19.  A keyword among [knn], [decay], [distance] and [thresh] that is
    not among the keywords kept for the subgraphs cannot be passed to
    [MNNGraph.set_params], whatever its value: the call raises and leaves
    the object as it was.  [knn] is a parameter of the constructor of its
    own and never among those keywords, so [set_params(knn=...)] is
    refused even with the value in use. *)
Theorem MNNGraph_set_params_kernel_arg :
  forall (point : Type)
         (DataGraph_set_params :
            kwargs -> Base.DataGraph (list point)
            -> Base.DataGraph (list point) * result unit)
         (ndarray_ne : pyval -> matrix -> result bool)
         (params : kwargs) (o : MNNGraph.obj point) (arg : string) (v : pyval),
    In arg ["knn"; "decay"; "distance"; "thresh"] ->
    lookup arg params = Some v ->
    lookup arg (MNNGraph.knn_args o) = None ->
    let after :=
      MNNGraph.set_params DataGraph_set_params ndarray_ne params o in
    fst after = o
    /\ exists e, snd after = Raised e
                 /\ (lookup "beta" params = None ->
                     lookup "gamma" params = None ->
                     lookup "adaptive_k" params = None ->
                     e = ValueError
                           "Cannot update {}. Please create a new graph").
Proof.
  intros point setp nne params o arg v Harg Hv Hnone after. subst after.
  assert (Hex : existsb (MNNGraph.kernel_arg_changed params
                           (MNNGraph.knn_args o))
                        ["knn"; "decay"; "distance"; "thresh"] = true).
  { apply existsb_exists. exists arg. split; [exact Harg|].
    unfold MNNGraph.kernel_arg_changed. rewrite Hv, Hnone. reflexivity. }
  unfold MNNGraph.set_params.
  destruct (updates "beta" params _) eqn:Eb.
  { split; [reflexivity|]. eexists. split; [reflexivity|].
    intros Hb. unfold updates in Eb. rewrite Hb in Eb. discriminate Eb. }
  destruct (lookup "gamma" params) as [w|] eqn:Eg.
  - destruct (MNNGraph.gamma_differs nne w _) as [[|]|e].
    + split; [reflexivity|]. eexists. split; [reflexivity|].
      intros _ H. discriminate H.
    + destruct (updates "adaptive_k" params _).
      { split; [reflexivity|]. eexists. split; [reflexivity|].
        intros _ H. discriminate H. }
      rewrite Hex. split; [reflexivity|]. eexists. split; reflexivity.
    + split; [reflexivity|]. eexists. split; [reflexivity|].
      intros _ H. discriminate H.
  - destruct (updates "adaptive_k" params _) eqn:Ea.
    { split; [reflexivity|]. eexists. split; [reflexivity|].
      intros _ _ Hk. unfold updates in Ea. rewrite Hk in Ea.
      discriminate Ea. }
    rewrite Hex. split; [reflexivity|]. eexists. split; reflexivity.
Qed.

(** On the two batches, built with [knn = 1]: [set_params(knn=1)] is
    refused. *)
Lemma MNNGraph_set_params_kernel_arg_witness :
  MNNGraph.set_params setter_accepts_points ambiguous_truth
    [("knn", PyInt 1)] two_batches_built
  = (two_batches_built,
     Raised (ValueError "Cannot update {}. Please create a new graph")).
Proof.
  destruct (MNNGraph_set_params_kernel_arg Z setter_accepts_points
              ambiguous_truth [("knn", PyInt 1)] two_batches_built "knn"
              (PyInt 1) (or_introl eq_refl) eq_refl eq_refl)
    as [Ho [e [He Hmsg]]].
  rewrite (surjective_pairing (MNNGraph.set_params _ _ _ _)).
  rewrite Ho, He, (Hmsg eq_refl eq_refl eq_refl). reflexivity.
Defined.

(** ** MNNGraph: the adaptive number of neighbours *)

Lemma Int_part_IZR (z : Z) : Int_part (IZR z) = z.
Proof.
  unfold Int_part. rewrite <- (tech_up (IZR z) (z + 1)).
  - lia.
  - rewrite plus_IZR. lra.
  - rewrite plus_IZR. lra.
Qed.

Lemma np_round_IZR (z : Z) : np_round (IZR z) = z.
Proof.
  unfold np_round, frac_part. rewrite Int_part_IZR.
  destruct (Rlt_dec (IZR z - IZR z) (1 / 2)); [reflexivity | lra].
Qed.

Lemma np_round_bounds (x : R) :
  (Int_part x <= np_round x <= Int_part x + 1)%Z.
Proof.
  unfold np_round.
  destruct (Rlt_dec (frac_part x) (1 / 2)); [lia|].
  destruct (Rlt_dec (1 / 2) (frac_part x)); [lia|].
  destruct (Z.even (Int_part x)); lia.
Qed.

Lemma np_round_ge (k : Z) (x : R) : IZR k <= x -> (k <= np_round x)%Z.
Proof.
  intros H. pose proof (np_round_bounds x) as [Hb _].
  destruct (base_Int_part x) as [_ Hi].
  assert (Hlt : IZR k < IZR (Int_part x + 1)) by (rewrite plus_IZR; lra).
  apply lt_IZR in Hlt. lia.
Qed.

Lemma np_round_le (m : Z) (x : R) : x <= IZR m -> (np_round x <= m)%Z.
Proof.
  intros [Hlt| ->]; [|rewrite np_round_IZR; lia].
  pose proof (np_round_bounds x) as [_ Hb].
  destruct (base_Int_part x) as [Hi _].
  assert (Hlt' : IZR (Int_part x) < IZR m) by lra.
  apply lt_IZR in Hlt'. lia.
Qed.

Lemma fold_left_min_le (l : list nat) (c : nat) :
  (fold_left Nat.min l c <= c)%nat
  /\ forall d, In d l -> (fold_left Nat.min l c <= d)%nat.
Proof.
  revert c. induction l as [|e l IH]; intros c; simpl.
  - split; [lia | contradiction].
  - destruct (IH (Nat.min c e)) as [H1 H2]. split; [lia|].
    intros d [<-|Hd]; [lia | apply H2, Hd].
Qed.

Lemma fold_left_min_In (l : list nat) (c : nat) :
  fold_left Nat.min l c = c \/ In (fold_left Nat.min l c) l.
Proof.
  revert c. induction l as [|e l IH]; intros c; simpl; [left; reflexivity|].
  destruct (IH (Nat.min c e)) as [E|Hin]; [|right; right; exact Hin].
  rewrite E. destruct (Nat.min_spec c e) as [[_ ->]|[_ ->]]; auto.
Qed.

Lemma min_count_le (l : list nat) (c : nat) :
  In c l -> (min_count l <= c)%nat.
Proof.
  destruct l as [|e l]; simpl; [contradiction|].
  destruct (fold_left_min_le l e) as [H1 H2].
  intros [<-|Hc]; [exact H1 | apply H2, Hc].
Qed.

Lemma min_count_In (l : list nat) : l <> [] -> In (min_count l) l.
Proof.
  destruct l as [|e l]; [contradiction|]. intros _. simpl.
  destruct (fold_left_min_In l e) as [->|H]; auto.
Qed.

(** Every batch holds a sample, and no more than there are samples. *)
Lemma n_cells_bounds (labels : list Z) (c : nat) :
  In c (MNNGraph.n_cells labels) -> (1 <= c <= length labels)%nat.
Proof.
  unfold MNNGraph.n_cells. intros H. apply in_map_iff in H.
  destruct H as [v [<- Hv]]. apply (proj1 (np_unique_In _ v)) in Hv.
  apply In_nth_error in Hv. destruct Hv as [r Hr]. split.
  - assert (Hin : In r (mask labels v)) by (apply mask_In; exact Hr).
    destruct (mask labels v); [contradiction | simpl; lia].
  - assert (Hinc : incl (mask labels v) (seq 0 (length labels))).
    { intros x Hx. apply in_seq. pose proof (mask_bound _ _ _ Hx). lia. }
    pose proof (NoDup_incl_length (mask_NoDup labels v) Hinc) as Hl.
    rewrite length_seq in Hl. exact Hl.
Qed.

Lemma sqrt_of_ratio (r : R) : 1 <= r -> 1 <= sqrt r <= r.
Proof.
  intros Hr.
  assert (H1 : 1 <= sqrt r).
  { rewrite <- sqrt_1. apply sqrt_le_1_alt. exact Hr. }
  split; [exact H1|].
  rewrite <- (sqrt_sqrt r) at 2 by lra. nra.
Qed.

(** X20.  [MNNGraph._weight_knn] with [adaptive_k] one of ['min'],
    ['sqrt'] and ['none'], on the batch sizes of a non-empty [sample_idx]
    with [knn * n_samples] below 2^31: one value per batch is returned
    (a scalar when there is one batch only), no batch gets fewer than
    [knn] neighbours nor more than [knn] times its size, and a batch of
    the smallest size, or any batch under ['none'], gets [knn] exactly.
    The argument [sample_size] has no effect. *)
Theorem MNNGraph_weight_knn_adaptive :
  forall (int32_overflow : Z -> Z) (adaptive_k : string) (knn : nat)
         (labels : list Z) (sample_size : option nat),
    let cells := MNNGraph.n_cells labels in
    adaptive_k = "min" \/ adaptive_k = "sqrt" \/ adaptive_k = "none" ->
    labels <> [] ->
    (Z.of_nat knn * Z.of_nat (length labels) < 2 ^ 31)%Z ->
    exists ks,
      MNNGraph._weight_knn int32_overflow adaptive_k knn cells sample_size
      = Ok (match ks with
            | [k] => MNNGraph.Scalar k
            | _ => MNNGraph.Array ks
            end)
      /\ length ks = length cells
      /\ (forall i c k,
             nth_error cells i = Some c -> nth_error ks i = Some k ->
             (Z.of_nat knn <= k <= Z.of_nat knn * Z.of_nat c)%Z
             /\ (adaptive_k = "none" \/ c = min_count cells ->
                 k = Z.of_nat knn))
      /\ forall other_size,
           MNNGraph._weight_knn int32_overflow adaptive_k knn cells other_size
           = MNNGraph._weight_knn int32_overflow adaptive_k knn cells
               sample_size.
Proof.
  intros ovf adaptive_k knn labels ss cells Hk Hne Hbound.
  assert (Hcells : cells <> []).
  { unfold cells, MNNGraph.n_cells. destruct labels as [|v l];
      [contradiction|].
    intros E. apply map_eq_nil in E.
    assert (Hin : In v (np_unique (v :: l)))
      by (apply np_unique_In; left; reflexivity).
    rewrite E in Hin. contradiction. }
  assert (Hmin : (1 <= min_count cells)%nat).
  { apply (n_cells_bounds labels). apply min_count_In, Hcells. }
  (* the weight of each batch, between 1 and its size *)
  set (weight := fun c : nat =>
         if String.eqb adaptive_k "min" then INR c / INR (min_count cells)
         else if String.eqb adaptive_k "sqrt"
              then sqrt (INR c / INR (min_count cells))
              else 1).
  assert (Hw : forall c, In c cells ->
             1 <= weight c <= INR c
             /\ (adaptive_k = "none" \/ c = min_count cells -> weight c = 1)).
  { intros c Hc.
    pose proof (min_count_le cells c Hc) as Hle.
    destruct (n_cells_bounds labels c Hc) as [Hc1 _].
    assert (Hm : 1 <= INR (min_count cells))
      by (change 1 with (INR 1); apply le_INR; exact Hmin).
    assert (Hcm : INR (min_count cells) <= INR c) by (apply le_INR; exact Hle).
    assert (Hratio : 1 <= INR c / INR (min_count cells) <= INR c).
    { split.
      - apply (Rmult_le_reg_r (INR (min_count cells))); [lra|].
        unfold Rdiv. rewrite Rmult_assoc, Rinv_l by lra. lra.
      - apply (Rmult_le_reg_r (INR (min_count cells))); [lra|].
        unfold Rdiv. rewrite Rmult_assoc, Rinv_l by lra. nra. }
    assert (Hone : c = min_count cells ->
                   INR c / INR (min_count cells) = 1).
    { intros <-. unfold Rdiv. apply Rinv_r. lra. }
    unfold weight.
    destruct Hk as [-> | [-> | ->]]; simpl.
    - split; [exact Hratio|]. intros [H|H]; [discriminate H | auto].
    - destruct (sqrt_of_ratio _ (proj1 Hratio)) as [H1 H2].
      split; [lra|]. intros [H|H]; [discriminate H|].
      rewrite (Hone H). apply sqrt_1.
    - assert (1 <= INR c) by (change 1 with (INR 1); apply le_INR; exact Hc1).
      split; [lra | reflexivity]. }
  assert (Hweights : (if String.eqb adaptive_k "min" then
                        match cells with
                        | [] => Raise (ValueError
                                  "zero-size array to reduction operation minimum which has no identity")
                        | _ => Ok (map (fun c => INR c / INR (min_count cells))
                                       cells)
                        end
                      else if String.eqb adaptive_k "mean" then
                        Ok (map (fun c => INR c / (sum_list (map INR cells)
                                                   / INR (length cells)))
                                cells)
                      else if String.eqb adaptive_k "sqrt" then
                        match cells with
                        | [] => Raise (ValueError
                                  "zero-size array to reduction operation minimum which has no identity")
                        | _ => Ok (map (fun c => sqrt (INR c
                                                       / INR (min_count cells)))
                                       cells)
                        end
                      else if String.eqb adaptive_k "none" then
                        Ok (map (fun _ => 1) cells)
                      else Raise UnboundLocalError)
                     = Ok (map weight cells)).
  { unfold weight. destruct cells as [|c0 cs]; [contradiction|].
    destruct Hk as [-> | [-> | ->]]; reflexivity. }
  set (ks := map (fun w => MNNGraph.astype_int32 ovf (np_round (INR knn * w)))
                 (map weight cells)).
  exists ks. split; [|split; [|split]].
  - unfold MNNGraph._weight_knn. rewrite Hweights. reflexivity.
  - unfold ks. rewrite !length_map. reflexivity.
  - intros i c k Hc Hki.
    unfold ks in Hki. rewrite map_map, nth_error_map, Hc in Hki.
    injection Hki as <-.
    assert (Hin : In c cells) by (eapply nth_error_In; exact Hc).
    destruct (Hw c Hin) as [[Hw1 Hw2] Hw3].
    destruct (n_cells_bounds labels c Hin) as [_ Hcn].
    assert (Hknn : 0 <= INR knn) by apply pos_INR.
    assert (Hlo : IZR (Z.of_nat knn) <= INR knn * weight c)
      by (rewrite <- INR_IZR_INZ; nra).
    assert (Hhi : INR knn * weight c <= IZR (Z.of_nat knn * Z.of_nat c))
      by (rewrite mult_IZR, <- !INR_IZR_INZ; nra).
    pose proof (np_round_ge _ _ Hlo) as Hge.
    pose proof (np_round_le _ _ Hhi) as Hle.
    assert (Hrange : (np_round (INR knn * weight c) < 2 ^ 31)%Z) by nia.
    unfold MNNGraph.astype_int32.
    destruct (Z.leb_spec (- 2 ^ 31) (np_round (INR knn * weight c))); [|lia].
    destruct (Z.ltb_spec (np_round (INR knn * weight c)) (2 ^ 31)); [|lia].
    cbn [andb]. split; [lia|].
    intros Hsmall. rewrite (Hw3 Hsmall), Rmult_1_r, INR_IZR_INZ.
    apply np_round_IZR.
  - intros other. reflexivity.
Qed.

(** Two samples in batch 0 and eight in batch 1, [knn = 5],
    [adaptive_k='sqrt']: two values, the first of them 5. *)
Lemma MNNGraph_weight_knn_adaptive_witness :
  exists k0 k1,
    MNNGraph._weight_knn (fun z => z) "sqrt" 5
      (MNNGraph.n_cells [0; 0; 1; 1; 1; 1; 1; 1; 1; 1]%Z) None
    = Ok (MNNGraph.Array [k0; k1])
    /\ k0 = 5%Z /\ (5 <= k1 <= 40)%Z.
Proof.
  destruct (MNNGraph_weight_knn_adaptive (fun z => z) "sqrt" 5
              [0; 0; 1; 1; 1; 1; 1; 1; 1; 1]%Z None)
    as [ks [Hret [Hlen [Hks _]]]].
  - right. left. reflexivity.
  - discriminate.
  - vm_compute. reflexivity.
  - destruct ks as [|k0 [|k1 [|k2 ks]]]; try discriminate Hlen.
    exists k0, k1. split; [exact Hret|].
    destruct (Hks 0%nat 2%nat k0 eq_refl eq_refl) as [_ H0].
    destruct (Hks 1%nat 8%nat k1 eq_refl eq_refl) as [H1 _].
    split; [apply H0; right; reflexivity | exact H1].
Defined.
